(** * arts-crossfit: the fitting and evaluation core of
    [scripts/Xsec_aux_functions.py]

    A shallow embedding of the polynomial fit of absorption cross sections
    (model selection, adjusted R-square, evaluation with linear
    extrapolation, assembly of a spectrum from several bands) together with
    the properties stated about it.

    Numbers.  The program computes with numpy's double precision numbers.
    They are modelled by [float64]: a finite value is an exact real number,
    and the three special values [+inf], [-inf] and [nan] behave as IEEE-754
    prescribes.  Rounding, overflow of finite results and the sign of zero
    are not modelled.  Comparisons of finite values are decided on the real
    numbers ([Rlt_dec], [Req_dec_T]).

    Libraries.  [scipy.linalg.lstsq] is a parameter of the fit;
    [scipy.interpolate.interp1d] is modelled after its documentation. *)

From Stdlib Require Import Reals Lra Lia List Bool Arith String Sorted.
Import ListNotations.

Set Implicit Arguments.

(** * Idealised double precision numbers *)

Module F64.

Local Open Scope R_scope.

Inductive float64 : Type :=
| Fin (r : R)
| PInf
| NInf
| NaN.

Definition Rltb (x y : R) : bool := if Rlt_dec x y then true else false.
Definition Reqb (x y : R) : bool := if Req_dec_T x y then true else false.

(** [pos], [neg] or [nan] according to the sign of [r]. *)
Definition by_sign (r : R) (pos neg : float64) : float64 :=
  if Rlt_dec 0 r then pos else if Rlt_dec r 0 then neg else NaN.

Definition fopp (a : float64) : float64 :=
  match a with
  | Fin x => Fin (- x)
  | PInf => NInf
  | NInf => PInf
  | NaN => NaN
  end.

Definition fadd (a b : float64) : float64 :=
  match a, b with
  | NaN, _ | _, NaN => NaN
  | Fin x, Fin y => Fin (x + y)
  | PInf, NInf | NInf, PInf => NaN
  | PInf, _ | _, PInf => PInf
  | NInf, _ | _, NInf => NInf
  end.

Definition fsub (a b : float64) : float64 := fadd a (fopp b).

Definition fmul (a b : float64) : float64 :=
  match a, b with
  | NaN, _ | _, NaN => NaN
  | Fin x, Fin y => Fin (x * y)
  | Fin x, PInf | PInf, Fin x => by_sign x PInf NInf
  | Fin x, NInf | NInf, Fin x => by_sign x NInf PInf
  | PInf, PInf | NInf, NInf => PInf
  | PInf, NInf | NInf, PInf => NInf
  end.

(** numpy division: a finite value divided by zero is an infinity (or nan for
    0/0), never an exception. *)
Definition fdiv (a b : float64) : float64 :=
  match a, b with
  | NaN, _ | _, NaN => NaN
  | Fin x, Fin y => if Req_dec_T y 0 then by_sign x PInf NInf else Fin (x / y)
  | Fin _, PInf | Fin _, NInf => Fin 0
  | PInf, Fin y => if Rlt_dec y 0 then NInf else PInf
  | NInf, Fin y => if Rlt_dec y 0 then PInf else NInf
  | PInf, PInf | PInf, NInf | NInf, PInf | NInf, NInf => NaN
  end.

(** [x ** 2] *)
Definition fsqr (a : float64) : float64 := fmul a a.

(** [np.log] *)
Definition flog (a : float64) : float64 :=
  match a with
  | Fin x => if Rlt_dec 0 x then Fin (ln x)
             else if Rlt_dec x 0 then NaN else NInf
  | PInf => PInf
  | NInf => NaN
  | NaN => NaN
  end.

(** [np.log10] *)
Definition flog10 (a : float64) : float64 :=
  match a with
  | Fin x => if Rlt_dec 0 x then Fin (ln x / ln 10)
             else if Rlt_dec x 0 then NaN else NInf
  | PInf => PInf
  | NInf => NaN
  | NaN => NaN
  end.

(** [np.sqrt] *)
Definition fsqrt (a : float64) : float64 :=
  match a with
  | Fin x => if Rlt_dec x 0 then NaN else Fin (sqrt x)
  | PInf => PInf
  | NInf => NaN
  | NaN => NaN
  end.

(** [10. ** y] *)
Definition fexp10 (a : float64) : float64 :=
  match a with
  | Fin y => Fin (exp (y * ln 10))
  | PInf => PInf
  | NInf => Fin 0
  | NaN => NaN
  end.

(** Comparisons: every comparison with nan is false. *)
Definition flt (a b : float64) : bool :=
  match a, b with
  | NaN, _ | _, NaN => false
  | Fin x, Fin y => Rltb x y
  | _, NInf => false
  | NInf, _ => true
  | PInf, _ => false
  | _, PInf => true
  end.

Definition fgt (a b : float64) : bool := flt b a.

Definition feqb (a b : float64) : bool :=
  match a, b with
  | Fin x, Fin y => Reqb x y
  | PInf, PInf | NInf, NInf => true
  | _, _ => false
  end.

Definition fle (a b : float64) : bool := flt a b || feqb a b.
Definition fge (a b : float64) : bool := fle b a.

Definition isinf (a : float64) : bool :=
  match a with PInf | NInf => true | _ => false end.

Definition isnan (a : float64) : bool :=
  match a with NaN => true | _ => false end.

Definition is_fin (a : float64) : Prop :=
  match a with Fin _ => True | _ => False end.

End F64.

Export F64.

Declare Scope f64_scope.
Delimit Scope f64_scope with f64.
Bind Scope f64_scope with float64.
Notation "a + b" := (fadd a b) : f64_scope.
Notation "a - b" := (fsub a b) : f64_scope.
Notation "a * b" := (fmul a b) : f64_scope.
Notation "a / b" := (fdiv a b) : f64_scope.
Notation "a <? b" := (flt a b) : f64_scope.
Notation "a >? b" := (fgt a b) : f64_scope.
Notation "a >=? b" := (fge a b) : f64_scope.

(** * A small error monad: [None] is a Python exception *)

Definition bind {A B : Type} (m : option A) (k : A -> option B) : option B :=
  match m with
  | Some a => k a
  | None => None
  end.

Notation "x <- m ;; k" := (bind m (fun x => k))
  (at level 61, m at next level, right associativity).
Notation "' p <- m ;; k" := (bind m (fun p => k))
  (at level 61, p pattern, m at next level, right associativity).

(** * numpy arrays *)

Module Np.

(** A one-dimensional array is a list, a two-dimensional array the list of
    its rows. *)
Definition vector := list float64.
Definition matrix := list (list float64).

(** Elementwise operation on two arrays of one shape. *)
Fixpoint map2 {A B C : Type} (f : A -> B -> C) (a : list A) (b : list B)
  : list C :=
  match a, b with
  | x :: a', y :: b' => f x y :: map2 f a' b'
  | _, _ => []
  end.

(** The same, for operands whose shapes were not checked before: numpy
    raises [ValueError] when they differ (broadcasting of arrays of length
    one is left out). *)
Definition map2_checked {A B C : Type} (f : A -> B -> C)
  (a : list A) (b : list B) : option (list C) :=
  if Nat.eqb (List.length a) (List.length b) then Some (map2 f a b) else None.

Definition vadd (a b : vector) : vector := map2 fadd a b.
(** array * scalar *)
Definition vscale (a : vector) (k : float64) : vector :=
  map (fun x => fmul x k) a.
Definition vsqr (a : vector) : vector := map fsqr a.
Definition zeros (n : nat) : vector := repeat (Fin 0) n.

(** [np.sum] of a one-dimensional array. *)
Definition sum (a : vector) : float64 := fold_left fadd a (Fin 0).

(** [np.sum(M, axis=0)]: the sums of the columns. *)
Definition sum_axis0 (M : matrix) : vector :=
  fold_left vadd M (zeros (List.length (hd [] M))).

(** [np.zeros(np.shape(M))] *)
Definition zeros_like (M : matrix) : matrix :=
  map (fun row => zeros (List.length row)) M.

(** [M[i, :] = v]; [IndexError] when the row does not exist. *)
Fixpoint set_row (i : nat) (v : vector) (M : matrix) : option matrix :=
  match M, i with
  | [], _ => None
  | _ :: M', O => Some (v :: M')
  | r :: M', S i' => M'' <- set_row i' v M' ;; Some (r :: M'')
  end.

(** Boolean mask indexing [a[mask]]. *)
Fixpoint compress {A : Type} (mask : list bool) (a : list A) : list A :=
  match mask, a with
  | true :: mask', x :: a' => x :: compress mask' a'
  | false :: mask', _ :: a' => compress mask' a'
  | _, _ => []
  end.

(** [np.sum] of a boolean array: the number of [True]. *)
Definition count_true (mask : list bool) : nat :=
  List.length (filter (fun b => b) mask).

(** Python's builtin [max] and [min] over an array: the first element, then
    every element that compares strictly greater (smaller) replaces the
    current one; [ValueError] on an empty sequence. *)
Definition py_max (a : vector) : option float64 :=
  match a with
  | [] => None
  | x :: a' => Some (fold_left (fun m y => if fgt y m then y else m) a' x)
  end.

Definition py_min (a : vector) : option float64 :=
  match a with
  | [] => None
  | x :: a' => Some (fold_left (fun m y => if flt y m then y else m) a' x)
  end.

End Np.

Export Np.

(** * The cross-section evaluator *)

Section Evaluator.

Local Open Scope f64_scope.

(** [calculate_xsec(T, P, coeffs)].  [coeffs] has one row per coefficient
    ([p00, p10, p01, p20, p11, p02]) and one column per frequency. *)
Definition calculate_xsec (T P : float64) (coeffs : matrix) : option vector :=
  let logP := flog10 P in
  let poly := [Fin 1; T; logP; fsqr T; T * logP; fsqr logP] in
  sqrtXsec <-
    fold_left
      (fun acc i =>
         sqrtXsec <- acc ;;
         row <- nth_error coeffs i ;;
         p <- nth_error poly i ;;
         set_row i (vscale row p) sqrtXsec)
      (seq 0 6) (Some (zeros_like coeffs)) ;;
  Some (vsqr (sum_axis0 sqrtXsec)).

(** Elementwise evaluation of an expression in the six coefficient rows. *)
Fixpoint map6 (f : float64 -> float64 -> float64 -> float64 -> float64 ->
                   float64 -> float64)
  (r0 r1 r2 r3 r4 r5 : vector) : vector :=
  match r0, r1, r2, r3, r4, r5 with
  | a0 :: r0', a1 :: r1', a2 :: r2', a3 :: r3', a4 :: r4', a5 :: r5' =>
      f a0 a1 a2 a3 a4 a5 :: map6 f r0' r1' r2' r3' r4' r5'
  | _, _, _, _, _, _ => []
  end.

(** The two expressions of [xsec_derivative] for one frequency. *)
Definition DxsecDT_expr (T logP : float64)
  (p00 p10 p01 p20 p11 p02 : float64) : float64 :=
  Fin 2
  * (p10 + Fin 2 * p20 * T + p11 * logP)
  * (p00 + p10 * T + p20 * fsqr T + p01 * logP + p11 * T * logP
     + p02 * fsqr logP).

Definition DxsecDp_expr (T logP Plog : float64)
  (p00 p10 p01 p20 p11 p02 : float64) : float64 :=
  Fin 2
  * (p01 / Plog + p11 * T / Plog + Fin 2 * p02 * logP / Plog)
  * (p00 + p10 * T + p20 * fsqr T + p01 * logP + p11 * T * logP
     + p02 * fsqr logP).

(** [xsec_derivative(T, P, coeffs)] *)
Definition xsec_derivative (T P : float64) (coeffs : matrix)
  : option (vector * vector) :=
  p00 <- nth_error coeffs 0 ;;
  p10 <- nth_error coeffs 1 ;;
  p01 <- nth_error coeffs 2 ;;
  p20 <- nth_error coeffs 3 ;;
  p11 <- nth_error coeffs 4 ;;
  p02 <- nth_error coeffs 5 ;;
  let log10 := flog (Fin 10) in
  let logP := flog P / log10 in
  let Plog := P * log10 in
  let DxsecDT := map6 (DxsecDT_expr T logP) p00 p10 p01 p20 p11 p02 in
  let DxsecDp := map6 (DxsecDp_expr T logP Plog) p00 p10 p01 p20 p11 p02 in
  Some (DxsecDT, DxsecDp).

(** [calculate_xsec_fullmodel(T, P, coeffs, minT, maxT, minP, maxP)] *)
Definition calculate_xsec_fullmodel (T P : float64) (coeffs : matrix)
  (minT maxT minP maxP : float64) : option vector :=
  if (P <? minP) || (P >? maxP) || (T <? minT) || (T >? maxT) then
    let P0 := if P <? minP then minP else if P >? maxP then maxP else P in
    let T0 := if T <? minT then minT else if T >? maxT then maxT else T in
    xsec_0 <- calculate_xsec T0 P0 coeffs ;;
    '(DxsecDT, DxsecDp) <- xsec_derivative T0 P0 coeffs ;;
    Some (vadd (vadd xsec_0 (vscale DxsecDT (T - T0)))
               (vscale DxsecDp (P - P0)))
  else
    calculate_xsec T P coeffs.

End Evaluator.

(** ** Finite coefficients *)

(** The six coefficients of one frequency. *)
Record coeff6 : Type := Coeff6 {
  p00 : R; p10 : R; p01 : R; p20 : R; p11 : R; p02 : R
}.

(** The coefficient array of a band: row [i] holds coefficient [i] of every
    frequency. *)
Definition coeff_rows (cs : list coeff6) : matrix :=
  [ map (fun c => Fin (p00 c)) cs; map (fun c => Fin (p10 c)) cs;
    map (fun c => Fin (p01 c)) cs; map (fun c => Fin (p20 c)) cs;
    map (fun c => Fin (p11 c)) cs; map (fun c => Fin (p02 c)) cs ].

Section RealModel.

Local Open Scope R_scope.

Definition log10R (P : R) : R := ln P / ln 10.

(** The fitted polynomial [z = sqrt(Xsec)] in [x = T], [y = log10 P]. *)
Definition zpoly (T P : R) (c : coeff6) : R :=
  p00 c * 1 + p10 c * T + p01 c * log10R P + p20 c * (T * T)
  + p11 c * (T * log10R P) + p02 c * (log10R P * log10R P).

Definition xsecR (T P : R) (c : coeff6) : R := zpoly T P c * zpoly T P c.

Definition dzdT (T P : R) (c : coeff6) : R :=
  p10 c + 2 * p20 c * T + p11 c * log10R P.

Definition dzdP (T P : R) (c : coeff6) : R :=
  (p01 c + p11 c * T + 2 * p02 c * log10R P) / (P * ln 10).

Definition DxsecDT_R (T P : R) (c : coeff6) : R := 2 * dzdT T P c * zpoly T P c.
Definition DxsecDp_R (T P : R) (c : coeff6) : R := 2 * dzdP T P c * zpoly T P c.

End RealModel.

(** * The linear solver and the polynomial fits *)

(** What [scipy.linalg.lstsq] returns as [residues]: a number, or an empty
    array when the system is rank deficient or not overdetermined. *)
Inductive residues : Type :=
| ResValue (r : float64)
| ResEmpty.

(** [rank] and [sgl_val] of a fit result: a value of the solver, or
    [np.nan]. *)
Inductive rank_t : Type :=
| RankOf (n : nat)
| RankNaN.

Inductive sgl_t : Type :=
| SglOf (sv : vector)
| SglNaN.

(** The tuple [(poly, res, rnk, s)] returned by [lstsq]. *)
Record lstsq_result : Type := LstsqResult {
  lstsq_poly : vector;
  lstsq_res : residues;
  lstsq_rnk : nat;
  lstsq_s : vector
}.

(** The dictionary returned by [fit_xsec_data]. *)
Record fit_result : Type := FitResult {
  formula : string;
  coeff_names : list string;
  coefficients : vector;
  residuum : residues;
  rank : rank_t;
  sgl_val : sgl_t;
  MinP : float64;
  MaxP : float64;
  MinT : float64;
  MaxT : float64;
  NumberOfPoints : nat
}.

Definition the_formula : string :=
  "p00 + p10*x + p01*y + p20*x**2 + p11*x*y + p02*y**2".
Definition the_coeff_names : list string :=
  ["p00"; "p10"; "p01"; "p20"; "p11"; "p02"]%string.

Section Fit.

Local Open Scope f64_scope.

(** [scipy.linalg.lstsq] is a library routine: the fit is parametrised by
    it. *)
Variable lstsq : matrix -> vector -> lstsq_result.

(** [fit_poly22]: [M = np.ones((n, 6))], then columns 1 to 5 are filled. *)
Definition design_poly22 (xdata ydata : vector) : matrix :=
  map2 (fun x y => [Fin 1; x; y; fsqr x; x * y; fsqr y]) xdata ydata.

Definition fit_poly22 (xdata ydata zdata : vector) : lstsq_result :=
  lstsq (design_poly22 xdata ydata) zdata.

(** [fit_poly11]: [M = np.ones((n, 6))], then columns 1 and 2 are filled;
    columns 3, 4 and 5 keep their ones. *)
Definition design_poly11 (xdata ydata : vector) : matrix :=
  map2 (fun x y => [Fin 1; x; y; Fin 1; Fin 1; Fin 1]) xdata ydata.

Definition fit_poly11 (xdata ydata zdata : vector) : lstsq_result :=
  lstsq (design_poly11 xdata ydata) zdata.

(** [fit_poly2]: [M = np.ones((n, 3))], columns 1 and 2 filled. *)
Definition design_poly2 (xdata : vector) : matrix :=
  map (fun x => [Fin 1; x; fsqr x]) xdata.

Definition fit_poly2 (xdata zdata : vector) : lstsq_result :=
  lstsq (design_poly2 xdata) zdata.

(** [fit_poly1]: [M = np.ones((n, 2))], column 1 filled. *)
Definition design_poly1 (xdata : vector) : matrix :=
  map (fun x => [Fin 1; x]) xdata.

Definition fit_poly1 (xdata zdata : vector) : lstsq_result :=
  lstsq (design_poly1 xdata) zdata.

(** [logic_bad] of [fit_xsec_data]: the samples with an infinite or nan
    value. *)
Definition logic_bad (T logP sqrtXsec : vector) : option (list bool) :=
  i1 <- map2_checked orb (map isinf T) (map isinf logP) ;;
  logic_inf <- map2_checked orb i1 (map isinf sqrtXsec) ;;
  n1 <- map2_checked orb (map isnan T) (map isnan logP) ;;
  logic_nan <- map2_checked orb n1 (map isnan sqrtXsec) ;;
  map2_checked orb logic_inf logic_nan.

(** [np.mean] *)
Definition mean (a : vector) : float64 :=
  sum a / Fin (INR (List.length a)).

(** [fit_xsec_data(T, P, Xsec, min_deltaLogP, min_deltaT)] *)
Definition fit_xsec_data (T P Xsec : vector)
  (min_deltaLogP min_deltaT : float64) : option fit_result :=
  let logP := map flog10 P in
  let sqrtXsec := map fsqrt Xsec in
  logic_bad <- logic_bad T logP sqrtXsec ;;
  if (count_true logic_bad <? List.length T)%nat then
    let good := map negb logic_bad in
    let xData := compress good T in
    let yData := compress good logP in
    let zData := compress good sqrtXsec in
    let Ndata := count_true good in
    ymax <- py_max yData ;;
    ymin <- py_min yData ;;
    let Delta_logP := ymax - ymin in
    xmax <- py_max xData ;;
    xmin <- py_min xData ;;
    let Delta_T := xmax - xmin in
    '(coeffs, res, rnk, s) <-
      (if (Delta_logP >=? min_deltaLogP) && (Delta_T >? min_deltaT)
          && (5 <? Ndata)%nat then
         let r := fit_poly22 xData yData zData in
         Some (lstsq_poly r, lstsq_res r, RankOf (lstsq_rnk r),
               SglOf (lstsq_s r))
       else if (Delta_logP >=? min_deltaLogP) && (Delta_T >? min_deltaT)
               && (2 <? Ndata)%nat then
         let r := fit_poly11 xData yData zData in
         p0 <- nth_error (lstsq_poly r) 0 ;;
         p1 <- nth_error (lstsq_poly r) 1 ;;
         p2 <- nth_error (lstsq_poly r) 2 ;;
         Some ([p0; p1; p2; Fin 0; Fin 0; Fin 0], lstsq_res r,
               RankOf (lstsq_rnk r), SglOf (lstsq_s r))
       else if (Delta_logP <? min_deltaLogP) && (Delta_T >? min_deltaT)
               && (2 <? Ndata)%nat then
         let r := fit_poly2 xData zData in
         p0 <- nth_error (lstsq_poly r) 0 ;;
         p1 <- nth_error (lstsq_poly r) 1 ;;
         p2 <- nth_error (lstsq_poly r) 2 ;;
         Some ([p0; p1; Fin 0; p2; Fin 0; Fin 0], lstsq_res r,
               RankOf (lstsq_rnk r), SglOf (lstsq_s r))
       else if (Delta_logP <? min_deltaLogP) && (Delta_T >? min_deltaT)
               && (1 <? Ndata)%nat then
         let r := fit_poly1 xData zData in
         p0 <- nth_error (lstsq_poly r) 0 ;;
         p1 <- nth_error (lstsq_poly r) 1 ;;
         Some ([p0; p1; Fin 0; Fin 0; Fin 0; Fin 0], lstsq_res r,
               RankOf (lstsq_rnk r), SglOf (lstsq_s r))
       else if (Delta_logP >? min_deltaLogP) && (Delta_T <? min_deltaT)
               && (2 <? Ndata)%nat then
         let r := fit_poly2 yData zData in
         p0 <- nth_error (lstsq_poly r) 0 ;;
         p1 <- nth_error (lstsq_poly r) 1 ;;
         p2 <- nth_error (lstsq_poly r) 2 ;;
         Some ([p0; Fin 0; p1; Fin 0; Fin 0; p2], lstsq_res r,
               RankOf (lstsq_rnk r), SglOf (lstsq_s r))
       else if (Delta_logP >? min_deltaLogP) && (Delta_T <? min_deltaT)
               && (1 <? Ndata)%nat then
         let r := fit_poly1 yData zData in
         p0 <- nth_error (lstsq_poly r) 0 ;;
         p1 <- nth_error (lstsq_poly r) 1 ;;
         Some ([p0; Fin 0; p1; Fin 0; Fin 0; Fin 0], lstsq_res r,
               RankOf (lstsq_rnk r), SglOf (lstsq_s r))
       else
         let coeffs0 := mean zData in
         Some ([coeffs0; Fin 0; Fin 0; Fin 0; Fin 0; Fin 0],
               ResValue (sum (vsqr (map (fun z => z - coeffs0) zData))),
               RankNaN, SglNaN)) ;;
    MinP <- py_min (map fexp10 yData) ;;
    MaxP <- py_max (map fexp10 yData) ;;
    MinT <- py_min xData ;;
    MaxT <- py_max xData ;;
    Some {| formula := the_formula;
            coeff_names := the_coeff_names;
            coefficients := coeffs;
            residuum := res;
            rank := rnk;
            sgl_val := s;
            MinP := MinP; MaxP := MaxP; MinT := MinT; MaxT := MaxT;
            NumberOfPoints := Ndata |}
  else
    Some {| formula := the_formula;
            coeff_names := the_coeff_names;
            coefficients := zeros 6;
            residuum := ResValue NaN;
            rank := RankNaN;
            sgl_val := SglNaN;
            MinP := PInf; MaxP := NInf; MinT := PInf; MaxT := NInf;
            NumberOfPoints := 0 |}.

End Fit.

(** The default thresholds of [fit_xsec_data]. *)
Definition default_min_deltaLogP : float64 := Fin (2 / 10).
Definition default_min_deltaT : float64 := Fin 20.

(** * The adjusted R-square statistic *)

Section Rsquare.

Local Open Scope f64_scope.

(** [np.nansum]: nan entries count as zero. *)
Definition nansum (a : vector) : float64 :=
  sum (map (fun v => if isnan v then Fin 0 else v) a).

(** [np.nanmean]: the mean of the entries that are not nan (nan when there
    is none). *)
Definition nanmean (a : vector) : float64 :=
  let kept := filter (fun v => negb (isnan v)) a in
  sum kept / Fin (INR (List.length kept)).

(** [calc_Rsquare(y, yfit, Ncoeffs)] *)
Definition calc_Rsquare (y yfit : vector) (Ncoeffs : Z) : option float64 :=
  Delta_y <- map2_checked fsub y yfit ;;
  let Var_y := map (fun v => v - nanmean y) y in
  let SSE := nansum (vsqr Delta_y) in
  let SST := nansum (vsqr Var_y) in
  let n := Z.of_nat (List.length y) in
  let '(SST, n_minus_1, n_minus_Ncoeffs) :=
    if feqb SST (Fin 0) || (n - Ncoeffs =? 0)%Z
    then (NaN, NaN - Fin 1, NaN - Fin (IZR Ncoeffs))
    else (SST, Fin (IZR n) - Fin 1, Fin (IZR (n - Ncoeffs))) in
  Some (Fin 1 - SSE * n_minus_1 / (SST * n_minus_Ncoeffs)).

(** The statistic as the specification words it: [n] is the number of
    entries of [y] that are not nan. *)
Definition adjusted_r_squared_spec (y yfit : vector) (k : Z)
  : option float64 :=
  Delta_y <- map2_checked fsub y yfit ;;
  let SSE := nansum (vsqr Delta_y) in
  let SST := nansum (vsqr (map (fun v => v - nanmean y) y)) in
  let n := Z.of_nat (List.length (filter (fun v => negb (isnan v)) y)) in
  if feqb SST (Fin 0) || (n =? k)%Z then Some NaN
  else Some (Fin 1 - SSE * Fin (IZR (n - 1)) / (SST * Fin (IZR (n - k)))).

End Rsquare.

(** * Assembling a spectrum from the bands of a species *)

Section Assembler.

Local Open Scope f64_scope.

(** speed of light in m/s *)
Definition c0 : float64 := Fin 299792458.

(** One entry of [xsec_data.fitcoeffs]: the frequency grid [grids[0].data]
    in Hz and the coefficients [data.data], one row per frequency. *)
Record GriddedField2 : Type := {
  grids0_data : vector;
  data_data : matrix
}.

(** The part of a pyarts [XsecRecord] that is read here. *)
Record XsecRecord : Type := {
  fitcoeffs : list GriddedField2;
  fitminpressures : vector;
  fitmaxpressures : vector;
  fitmintemperatures : vector;
  fitmaxtemperatures : vector
}.

(** [M.transpose()] of a two-dimensional array. *)
Definition transpose (M : matrix) : matrix :=
  map (fun j => map (fun row => nth j row NaN) M)
      (seq 0 (List.length (hd [] M))).

(** Linear interpolation inside the grid [x] (ascending): on the segment
    that holds [x_new]. *)
Fixpoint interp_linear (x y : vector) (x_new : float64) : float64 :=
  match x, y with
  | x_lo :: ((x_hi :: _) as x'), y_lo :: ((y_hi :: _) as y') =>
      if x_new <? x_hi then
        if feqb x_lo x_new then y_lo
        else (y_hi - y_lo) / (x_hi - x_lo) * (x_new - x_lo) + y_lo
      else interp_linear x' y' x_new
  | [_], [y_last] => y_last
  | _, _ => NaN
  end.

(** [scipy.interpolate.interp1d(x, y, fill_value=fill, bounds_error=False)]
    for an ascending grid [x], after the documentation of scipy: the
    interpolating function, which is linear between the points of the grid,
    returns [fill_value] below [x[0]] and above [x[-1]], and nan at nan;
    [ValueError] when [x] and [y] differ in length or are empty. *)
Definition interp1d (x y : vector) (fill_value : float64)
  : option (float64 -> float64) :=
  if (List.length x =? List.length y)%nat then
    x_first <- hd_error x ;;
    let x_last := last x x_first in
    Some (fun x_new =>
            if (x_new <? x_first) || (x_new >? x_last) then fill_value
            else if isnan x_new then NaN
            else interp_linear x y x_new)
  else None.

(** [calculate_cross_sections(wvn_user, xsec_data, temperature, pressure)] *)
Definition calculate_cross_sections (wvn_user : vector)
  (xsec_data : XsecRecord) (temperature pressure : float64)
  : option vector :=
  let freq_user := vscale (vscale wvn_user c0) (Fin 100) in
  fold_left
    (fun acc m =>
       xsec_user <- acc ;;
       band <- nth_error (fitcoeffs xsec_data) m ;;
       let freq_data := grids0_data band in
       let coeffs_m := transpose (data_data band) in
       MinP <- nth_error (fitminpressures xsec_data) m ;;
       MaxP <- nth_error (fitmaxpressures xsec_data) m ;;
       MinT <- nth_error (fitmintemperatures xsec_data) m ;;
       MaxT <- nth_error (fitmaxtemperatures xsec_data) m ;;
       xsec_temp <- calculate_xsec_fullmodel temperature pressure coeffs_m
                      MinT MaxT MinP MaxP ;;
       f_int <- interp1d freq_data xsec_temp (Fin 0) ;;
       let xsec_user_m := map f_int freq_user in
       Some (vadd xsec_user xsec_user_m))
    (seq 0 (List.length (fitcoeffs xsec_data)))
    (Some (zeros (List.length wvn_user))).

(** The default arguments [temperature=273.] and [pressure=1013e2]. *)
Definition default_temperature : float64 := Fin 273.
Definition default_pressure : float64 := Fin 101300.

End Assembler.

(** * Notions used to state the properties of the fit *)

Section FitNotions.

Local Open Scope f64_scope.

(** The sub-models among which [fit_xsec_data] chooses, in the order of its
    conditional chain; [Degenerate] is the result without any valid
    sample. *)
Inductive model : Type :=
| Poly22 | Poly11 | Poly2T | Poly1T | Poly2P | Poly1P | Constant
| Degenerate.

(** The coefficient positions ([p00, p10, p01, p20, p11, p02] are 0 to 5)
    that a sub-model uses. *)
Definition uses (m : model) (i : nat) : bool :=
  match m with
  | Poly22 => (i <? 6)%nat
  | Poly11 => existsb (Nat.eqb i) [0; 1; 2]%nat
  | Poly2T => existsb (Nat.eqb i) [0; 1; 3]%nat
  | Poly1T => existsb (Nat.eqb i) [0; 1]%nat
  | Poly2P => existsb (Nat.eqb i) [0; 2; 5]%nat
  | Poly1P => existsb (Nat.eqb i) [0; 2]%nat
  | Constant => (i =? 0)%nat
  | Degenerate => false
  end.

(** The conditions of the conditional chain of [fit_xsec_data]. *)
Definition select_model (Delta_logP Delta_T min_deltaLogP min_deltaT : float64)
  (Ndata : nat) : model :=
  if (Delta_logP >=? min_deltaLogP) && (Delta_T >? min_deltaT)
     && (5 <? Ndata)%nat then Poly22
  else if (Delta_logP >=? min_deltaLogP) && (Delta_T >? min_deltaT)
          && (2 <? Ndata)%nat then Poly11
  else if (Delta_logP <? min_deltaLogP) && (Delta_T >? min_deltaT)
          && (2 <? Ndata)%nat then Poly2T
  else if (Delta_logP <? min_deltaLogP) && (Delta_T >? min_deltaT)
          && (1 <? Ndata)%nat then Poly1T
  else if (Delta_logP >? min_deltaLogP) && (Delta_T <? min_deltaT)
          && (2 <? Ndata)%nat then Poly2P
  else if (Delta_logP >? min_deltaLogP) && (Delta_T <? min_deltaT)
          && (1 <? Ndata)%nat then Poly1P
  else Constant.

(** [max(a) - min(a)] *)
Definition spread (a : vector) : option float64 :=
  mx <- py_max a ;;
  mn <- py_min a ;;
  Some (mx - mn).

(** The sub-model that [fit_xsec_data] selects on given data. *)
Definition selected_model (T P Xsec : vector)
  (min_deltaLogP min_deltaT : float64) : option model :=
  bad <- logic_bad T (map flog10 P) (map fsqrt Xsec) ;;
  if (count_true bad <? List.length T)%nat then
    let good := map negb bad in
    Delta_logP <- spread (compress good (map flog10 P)) ;;
    Delta_T <- spread (compress good T) ;;
    Some (select_model Delta_logP Delta_T min_deltaLogP min_deltaT
            (count_true good))
  else Some Degenerate.

(** One entry of [logic_bad]. *)
Definition sample_bad (t logp sqrtx : float64) : bool :=
  (isinf t || isinf logp || isinf sqrtx)
  || (isnan t || isnan logp || isnan sqrtx).

(** [logic_bad] on arrays of one length. *)
Fixpoint bad_mask (T logP sqrtXsec : vector) : list bool :=
  match T, logP, sqrtXsec with
  | t :: T', l :: logP', x :: sqrtXsec' =>
      sample_bad t l x :: bad_mask T' logP' sqrtXsec'
  | _, _, _ => []
  end.

(** [lstsq] returns one coefficient for every column of the matrix. *)
Definition lstsq_shape (lstsq : matrix -> vector -> lstsq_result) : Prop :=
  forall (M : matrix) (z : vector) (n : nat),
    M <> [] -> Forall (fun row => List.length row = n) M ->
    List.length (lstsq_poly (lstsq M z)) = n.

(** A stand-in for the solver that has the right shape: a zero coefficient
    for every column. *)
Definition zero_solver (M : matrix) (z : vector) : lstsq_result :=
  LstsqResult (zeros (List.length (hd [] M))) ResEmpty 0 [].

End FitNotions.

(** ** Least squares over the reals

    [scipy.linalg.lstsq] computes a vector [c] that minimises the 2-norm of
    [M c - z]; its default driver ([gelsd]) returns, among the minimisers,
    the one of least norm. *)

Section LeastSquares.

Local Open Scope R_scope.

Definition dot (a b : list R) : R := fold_right Rplus 0 (map2 Rmult a b).

(** [||M c - z||^2] *)
Definition residual2 (M : list (list R)) (z c : list R) : R :=
  fold_right Rplus 0
    (map2 (fun row zi => (dot row c - zi) * (dot row c - zi)) M z).

Definition least_squares (n : nat) (M : list (list R)) (z c : list R) : Prop :=
  List.length c = n
  /\ forall c' : list R,
       List.length c' = n -> residual2 M z c <= residual2 M z c'.

Definition min_norm_least_squares (n : nat) (M : list (list R)) (z c : list R)
  : Prop :=
  least_squares n M z c
  /\ forall c' : list R, least_squares n M z c' -> dot c c <= dot c' c'.

(** The contract of [lstsq] on one system with finite entries. *)
Definition lstsq_min_norm (lstsq : matrix -> vector -> lstsq_result)
  (n : nat) (M : list (list R)) (z : list R) : Prop :=
  exists c : list R,
    lstsq_poly (lstsq (map (map Fin) M) (map Fin z)) = map Fin c
    /\ min_norm_least_squares n M z c.

(** The design matrix of the bilinear model as documented: the three
    columns [1, x, y]. *)
Definition design_bilinear_spec (xdata ydata : list R) : list (list R) :=
  map2 (fun x y => [1; x; y]) xdata ydata.

(** An example for the bilinear branch: temperatures 200 K and 230 K at
    1 Pa and 10 Pa (so [log10 P] is 0 and 1), the cross section 16
    everywhere (so [z = sqrt(Xsec) = 4]). *)
Definition ex_T : list R := [200; 230; 200; 230].
Definition ex_P : list R := [1; 1; 10; 10].
Definition ex_Xsec : list R := [16; 16; 16; 16].
Definition ex_logP : list R := [0; 0; 1; 1].
Definition ex_z : list R := [4; 4; 4; 4].

(** The matrix that [fit_poly11] builds on the example. *)
Definition ex_M6 : list (list R) :=
  [ [1; 200; 0; 1; 1; 1]; [1; 230; 0; 1; 1; 1];
    [1; 200; 1; 1; 1; 1]; [1; 230; 1; 1; 1; 1] ].

(** A solver that returns the least-norm solution of the example, whatever
    it is given. *)
Definition ex_solver (M : matrix) (z : vector) : lstsq_result :=
  LstsqResult (map Fin [1; 0; 0; 1; 1; 1]) ResEmpty 3 [].

End LeastSquares.

(** * Notions used to state the properties of the assembler *)

Section AssemblerNotions.

Local Open Scope f64_scope.

(** The body of the loop of [calculate_cross_sections] for band [m],
    without the accumulation: the cross sections of the band interpolated
    to the frequencies of the user ([xsec_user_m]). *)
Definition contribution (wvn_user : vector) (xsec_data : XsecRecord)
  (temperature pressure : float64) (m : nat) : option vector :=
  let freq_user := vscale (vscale wvn_user c0) (Fin 100) in
  band <- nth_error (fitcoeffs xsec_data) m ;;
  MinP <- nth_error (fitminpressures xsec_data) m ;;
  MaxP <- nth_error (fitmaxpressures xsec_data) m ;;
  MinT <- nth_error (fitmintemperatures xsec_data) m ;;
  MaxT <- nth_error (fitmaxtemperatures xsec_data) m ;;
  xsec_temp <- calculate_xsec_fullmodel temperature pressure
                 (transpose (data_data band)) MinT MaxT MinP MaxP ;;
  f_int <- interp1d (grids0_data band) xsec_temp (Fin 0) ;;
  Some (map f_int freq_user).

(** A band as the fit stores it: at least one frequency, six coefficients
    for every frequency, an ascending frequency grid. *)
Definition wf_band (band : GriddedField2) : Prop :=
  data_data band <> []
  /\ Forall (fun row => List.length row = 6%nat) (data_data band)
  /\ List.length (grids0_data band) = List.length (data_data band)
  /\ StronglySorted (fun a b => flt a b = true) (grids0_data band).

(** A record with one envelope for every band. *)
Definition wf_record (xsec_data : XsecRecord) : Prop :=
  Forall wf_band (fitcoeffs xsec_data)
  /\ List.length (fitminpressures xsec_data)
     = List.length (fitcoeffs xsec_data)
  /\ List.length (fitmaxpressures xsec_data)
     = List.length (fitcoeffs xsec_data)
  /\ List.length (fitmintemperatures xsec_data)
     = List.length (fitcoeffs xsec_data)
  /\ List.length (fitmaxtemperatures xsec_data)
     = List.length (fitcoeffs xsec_data).

(** The frequency in Hz of a wavenumber in 1/cm. *)
Definition freq_of_wvn (w : float64) : float64 := w * c0 * Fin 100.

(** The frequency lies outside of the grid of the band. *)
Definition outside_band (band : GriddedField2) (f : float64) : Prop :=
  exists x_first : float64,
    hd_error (grids0_data band) = Some x_first
    /\ (flt f x_first = true
        \/ fgt f (last (grids0_data band) x_first) = true).

(** A record of two overlapping bands, on the grids 1 to 2 and 1 to 3
    wavenumbers, fitted with a constant. *)
Definition ex_record : XsecRecord :=
  {| fitcoeffs :=
       [ {| grids0_data := [Fin 29979245800; Fin 59958491600];
            data_data := [ [Fin 1; Fin 0; Fin 0; Fin 0; Fin 0; Fin 0];
                           [Fin 2; Fin 0; Fin 0; Fin 0; Fin 0; Fin 0] ] |};
         {| grids0_data := [Fin 29979245800; Fin 89937737400];
            data_data := [ [Fin 3; Fin 0; Fin 0; Fin 0; Fin 0; Fin 0];
                           [Fin 1; Fin 0; Fin 0; Fin 0; Fin 0; Fin 0] ] |} ];
     fitminpressures := [Fin 100; Fin 100];
     fitmaxpressures := [Fin 100000; Fin 100000];
     fitmintemperatures := [Fin 200; Fin 200];
     fitmaxtemperatures := [Fin 300; Fin 300] |}.

End AssemblerNotions.


(** * The range of the double precision numbers *)

Section Overflow.

Local Open Scope R_scope.

(** Half of the largest double, [(2 - 2^-52) * 2^1023]: a result whose
    absolute value stays below it does not overflow, rounding included. *)
Definition float_bound : R := 2 ^ 1023.

(** No step of [calculate_xsec] overflows for the coefficients [c] of one
    frequency: the entries [T ** 2], [T * logP], [logP ** 2] of [poly], and
    the square of the sum of the absolute values of the six products
    [coeffs[i] * poly[i]], which bounds each product, each partial sum of
    [np.sum] and the final square. *)
Definition calculate_xsec_no_overflow (T P : R) (c : coeff6) : Prop :=
  let logP := log10R P in
  let s := Rabs (p00 c * 1) + Rabs (p10 c * T) + Rabs (p01 c * logP)
           + Rabs (p20 c * (T * T)) + Rabs (p11 c * (T * logP))
           + Rabs (p02 c * (logP * logP)) in
  Rabs (T * T) <= float_bound
  /\ Rabs (T * logP) <= float_bound
  /\ Rabs (logP * logP) <= float_bound
  /\ s * s <= float_bound.

End Overflow.

(** * The quadratic model in one variable *)

Section QuadraticModel.

Local Open Scope R_scope.

(** The design matrix of the quadratic model as documented: the three
    columns [1, x, x^2]. *)
Definition design_quadratic_spec (xdata : list R) : list (list R) :=
  map (fun x => [1; x; x * x]) xdata.

(** The sum over the data of the squared deviations of
    [q0 + q1*x + q2*x^2] from [z]. *)
Definition quadratic_sse (xdata zdata : list R) (q0 q1 q2 : R) : R :=
  fold_right Rplus 0
    (map2 (fun x z => (q0 + q1 * x + q2 * (x * x) - z)
                      * (q0 + q1 * x + q2 * (x * x) - z))
       xdata zdata).

(** The contract of [lstsq] on one system with finite entries, without the
    choice among several minimisers: the coefficients returned minimise the
    2-norm of [M c - z]. *)
Definition lstsq_least_squares (lstsq : matrix -> vector -> lstsq_result)
  (n : nat) (M : list (list R)) (z : list R) : Prop :=
  exists c : list R,
    lstsq_poly (lstsq (map (map Fin) M) (map Fin z)) = map Fin c
    /\ least_squares n M z c.

(** An example for the quadratic branch in temperature: the cross sections
    [(T^2 / 10000)^2] at the six temperatures 200 K to 250 K, so that
    [z = sqrt(Xsec) = T^2 / 10000]. *)
Definition ex_T6 : list R := [200; 210; 220; 230; 240; 250].
Definition ex_Xsec6 : list R :=
  map (fun t => (t * t / 10000) * (t * t / 10000)) ex_T6.

(** A solver that returns the coefficients [0, 0, 1/10000], whatever it is
    given. *)
Definition ex_solver_quadratic (M : matrix) (z : vector) : lstsq_result :=
  LstsqResult (map Fin [0; 0; 1 / 10000]) ResEmpty 3 [].

End QuadraticModel.
(** * Further notions: reading one value of an array as a real number *)

Section Readings.

(** The real number held by a finite value (0 for the special values). *)
Definition to_R (a : float64) : R :=
  match a with Fin x => x | _ => 0%R end.

(** Entry [j] of the array that a computation returns. *)
Definition entry (v : option vector) (j : nat) : float64 :=
  match v with
  | Some a => nth j a NaN
  | None => NaN
  end.

End Readings.

(** * Further notions of the fit *)

Section FitNotions2.

(** A sample that [fit_xsec_data] keeps, read on the raw values: a finite
    temperature, a positive finite pressure and a non-negative finite cross
    section. *)
Definition valid_sample (t p x : float64) : bool :=
  match t, p, x with
  | Fin _, Fin pv, Fin xv => Rltb 0 pv && negb (Rltb xv 0)
  | _, _, _ => false
  end.

Fixpoint valid_count (T P Xsec : vector) : nat :=
  match T, P, Xsec with
  | t :: T', p :: P', x :: Xsec' =>
      (if valid_sample t p x then 1 else 0) + valid_count T' P' Xsec'
  | _, _, _ => 0
  end.

(** The samples that are kept. *)
Fixpoint valid_only (T P Xsec : vector) : vector * vector * vector :=
  match T, P, Xsec with
  | t :: T', p :: P', x :: Xsec' =>
      let '(Tv, Pv, Xv) := valid_only T' P' Xsec' in
      if valid_sample t p x then (t :: Tv, p :: Pv, x :: Xv)
      else (Tv, Pv, Xv)
  | _, _, _ => ([], [], [])
  end.

End FitNotions2.

(** * Further notions of the evaluator *)

Section EvaluatorNotions2.

Local Open Scope R_scope.

(** A value clamped to an interval. *)
Definition clampR (lo hi x : R) : R := Rmax lo (Rmin hi x).

(** The value of the full model on real numbers: the value and the
    derivatives at the clamped point, extrapolated linearly.  Inside the
    envelope the clamped point is the point itself. *)
Definition extrapolatedR (T P minT maxT minP maxP : R) (c : coeff6) : R :=
  xsecR (clampR minT maxT T) (clampR minP maxP P) c
  + DxsecDT_R (clampR minT maxT T) (clampR minP maxP P) c
    * (T - clampR minT maxT T)
  + DxsecDp_R (clampR minT maxT T) (clampR minP maxP P) c
    * (P - clampR minP maxP P).

End EvaluatorNotions2.


(** * Further notions of the statistic *)

Section RsquareNotions.

Local Open Scope R_scope.

(** A value that is not negative: a finite number [>= 0] or [+inf]. *)
Definition nonneg_ext (a : float64) : Prop :=
  match a with
  | Fin x => 0 <= x
  | PInf => True
  | _ => False
  end.

End RsquareNotions.

(** * Auxiliary functions *)

From Stdlib Require Import Ascii ZArith.

Section Overlap.

Local Open Scope f64_scope.

(** [getOverlap(a, b)]: [max(0, min(a[1], b[1]) - max(a[0], b[0]))], with
    Python's builtin [max] and [min]; [IndexError] when a range has fewer
    than two entries. *)
Definition getOverlap (a b : vector) : option float64 :=
  a1 <- nth_error a 1 ;;
  b1 <- nth_error b 1 ;;
  hi <- py_min [a1; b1] ;;
  a0 <- nth_error a 0 ;;
  b0 <- nth_error b 0 ;;
  lo <- py_max [a0; b0] ;;
  py_max [Fin 0; hi - lo].

End Overlap.

(** * The species of a coefficients folder *)

Section SpeciesNames.

Local Open Scope string_scope.

(** [glob.glob]: the paths of the file system that match a pattern, in
    arbitrary order. *)
Variable glob : string -> list string.

(** [list.sort()] on strings: ascending in the order of the code points. *)
Fixpoint sort_insert (s : string) (l : list string) : list string :=
  match l with
  | [] => [s]
  | x :: l' => if String.leb s x then s :: l else x :: sort_insert s l'
  end.

Definition list_sort (l : list string) : list string :=
  fold_right sort_insert [] l.

Fixpoint has_slash (p : string) : bool :=
  match p with
  | EmptyString => false
  | String c p' => Ascii.eqb c "/"%char || has_slash p'
  end.

(** [os.path.basename(p)]: what follows the last slash of [p]. *)
Fixpoint basename (p : string) : string :=
  match p with
  | EmptyString => EmptyString
  | String c p' =>
      if Ascii.eqb c "/"%char || has_slash p' then basename p' else p
  end.

(** [s.split('.')[0]]: what precedes the first dot of [s]. *)
Fixpoint split_dot_0 (s : string) : string :=
  match s with
  | EmptyString => EmptyString
  | String c s' =>
      if Ascii.eqb c "."%char then EmptyString else String c (split_dot_0 s')
  end.

(** [get_coeff_species(coefficients_folder)] *)
Definition get_coeff_species (coefficients_folder : string) : list string :=
  let filelist := list_sort (glob (coefficients_folder ++ "*.xml.bin")) in
  fold_left
    (fun all_species file =>
       let filename := basename file in
       let species := split_dot_0 filename in
       if existsb (String.eqb species) all_species then all_species
       else (all_species ++ [species])%list)
    filelist [].

End SpeciesNames.

(** An example of a coefficients folder: two files of one species and one
    file of another, as [glob] may list them. *)
Definition ex_glob (pattern : string) : list string :=
  [ "coefficients/CFC-12.xml.bin"; "coefficients/CFC-11.xml.bin";
    "coefficients/CFC-11.v2.xml.bin" ]%string.
(** * Tactics *)

(** Decide the comparisons of concrete real numbers met in a goal. *)
Ltac decide_R :=
  repeat match goal with
    | |- context [Rlt_dec ?a ?b] =>
        destruct (Rlt_dec a b); try (exfalso; Lra.lra)
    | |- context [Rle_dec ?a ?b] =>
        destruct (Rle_dec a b); try (exfalso; Lra.lra)
    | |- context [Req_dec_T ?a ?b] =>
        destruct (Req_dec_T a b); try (exfalso; Lra.lra)
    end.

Ltac eval_R :=
  repeat (progress (cbn -[IZR];
                    unfold fge, fle, fgt, flt, feqb, Reqb, Rltb, by_sign;
                    decide_R)).

(** * Properties of the evaluator *)

Section EvaluatorFacts.

Local Open Scope R_scope.

Lemma ln10_pos : 0 < ln 10.
Proof. rewrite <- ln_1. apply ln_increasing; lra. Qed.

Lemma Rltb_true (x y : R) : x < y -> Rltb x y = true.
Proof.
  intros H. unfold Rltb. destruct (Rlt_dec x y); [reflexivity | contradiction].
Qed.

Lemma Rltb_false (x y : R) : y <= x -> Rltb x y = false.
Proof.
  intros H. unfold Rltb. destruct (Rlt_dec x y); [lra | reflexivity].
Qed.

Lemma flog10_fin (P : R) : 0 < P -> flog10 (Fin P) = Fin (log10R P).
Proof.
  intros HP. unfold flog10, log10R.
  destruct (Rlt_dec 0 P) as [_ | H]; [reflexivity | contradiction].
Qed.

Lemma calculate_xsec_fin (T P : R) (cs : list coeff6) :
  0 < P ->
  calculate_xsec (Fin T) (Fin P) (coeff_rows cs)
  = Some (map (fun c => Fin (xsecR T P c)) cs).
Proof.
  intros HP. unfold calculate_xsec. rewrite (flog10_fin HP).
  cbn. f_equal. unfold vscale.
  induction cs as [| c cs IH]; [reflexivity |].
  cbn. rewrite IH. do 2 f_equal. unfold xsecR, zpoly. ring.
Qed.

Lemma flog_fin (P : R) : 0 < P -> flog (Fin P) = Fin (ln P).
Proof.
  intros HP. unfold flog.
  destruct (Rlt_dec 0 P) as [_ | H]; [reflexivity | contradiction].
Qed.

Lemma fdiv_fin (x y : R) : y <> 0 -> fdiv (Fin x) (Fin y) = Fin (x / y).
Proof.
  intros Hy. unfold fdiv.
  destruct (Req_dec_T y 0) as [H | _]; [contradiction | reflexivity].
Qed.

Lemma xsec_derivative_fin (T P : R) (cs : list coeff6) :
  0 < P ->
  xsec_derivative (Fin T) (Fin P) (coeff_rows cs)
  = Some (map (fun c => Fin (DxsecDT_R T P c)) cs,
          map (fun c => Fin (DxsecDp_R T P c)) cs).
Proof.
  intros HP. pose proof ln10_pos as H10.
  assert (HPl : P * ln 10 <> 0) by (apply Rmult_integral_contrapositive; lra).
  unfold xsec_derivative. cbn -[flog].
  rewrite (flog_fin HP), flog_fin by lra.
  rewrite fdiv_fin by lra. cbn.
  do 2 f_equal.
  - induction cs as [| c cs IH]; [reflexivity |].
    cbn. rewrite IH. do 2 f_equal.
    unfold DxsecDT_R, dzdT, zpoly, log10R. ring.
  - induction cs as [| c cs IH]; [reflexivity |].
    cbn. rewrite IH. f_equal.
    unfold DxsecDp_expr. cbn.
    destruct (Req_dec_T (P * ln 10) 0) as [E | _]; [contradiction |].
    cbn. f_equal. unfold DxsecDp_R, dzdP, zpoly, log10R. field. lra.
Qed.

(** ** The derivatives are the partial derivatives of the evaluator *)

Lemma derivable_pt_lim_quadratic (a b c x : R) :
  derivable_pt_lim (fun t => a + b * t + c * (t * t)) x (b + 2 * c * x).
Proof.
  apply derivable_pt_lim_ext
    with (f := (fct_cte a + mult_real_fct b id
                + mult_real_fct c (id * id))%F).
  - intros z. unfold plus_fct, mult_real_fct, mult_fct, fct_cte, id.
    reflexivity.
  - replace (b + 2 * c * x) with (0 + b * 1 + c * (1 * id x + id x * 1))
      by (unfold id; ring).
    repeat first
      [ apply derivable_pt_lim_plus
      | apply derivable_pt_lim_scal
      | apply derivable_pt_lim_mult
      | apply derivable_pt_lim_const
      | apply derivable_pt_lim_id ].
Qed.

Lemma derivable_pt_lim_square (f : R -> R) (x l : R) :
  derivable_pt_lim f x l ->
  derivable_pt_lim (fun t => f t * f t) x (2 * l * f x).
Proof.
  intros Hf.
  replace (2 * l * f x) with (l * f x + f x * l) by ring.
  exact (derivable_pt_lim_mult f f x l l Hf Hf).
Qed.

Lemma derivable_pt_lim_log10R (P : R) :
  0 < P -> derivable_pt_lim log10R P (/ (P * ln 10)).
Proof.
  intros HP. pose proof ln10_pos as H10.
  apply derivable_pt_lim_ext with (f := mult_real_fct (/ ln 10) ln).
  - intros z. unfold mult_real_fct, log10R. field. lra.
  - replace (/ (P * ln 10)) with (/ ln 10 * / P) by (field; lra).
    apply derivable_pt_lim_scal, derivable_pt_lim_ln, HP.
Qed.

Lemma zpoly_derivative_T (T P : R) (c : coeff6) :
  derivable_pt_lim (fun t => zpoly t P c) T (dzdT T P c).
Proof.
  apply derivable_pt_lim_ext
    with (f := fun t =>
                 (p00 c + p01 c * log10R P + p02 c * (log10R P * log10R P))
                 + (p10 c + p11 c * log10R P) * t + p20 c * (t * t)).
  - intros z. unfold zpoly. ring.
  - replace (dzdT T P c)
      with ((p10 c + p11 c * log10R P) + 2 * p20 c * T)
      by (unfold dzdT; ring).
    apply derivable_pt_lim_quadratic.
Qed.

Lemma zpoly_derivative_P (T P : R) (c : coeff6) :
  0 < P -> derivable_pt_lim (fun p => zpoly T p c) P (dzdP T P c).
Proof.
  intros HP. pose proof ln10_pos as H10.
  set (q := fun y => (p00 c + p10 c * T + p20 c * (T * T))
                     + (p01 c + p11 c * T) * y + p02 c * (y * y)).
  apply derivable_pt_lim_ext with (f := comp q log10R).
  - intros z. unfold comp, q, zpoly. ring.
  - replace (dzdP T P c)
      with (((p01 c + p11 c * T) + 2 * p02 c * log10R P) * / (P * ln 10))
      by (unfold dzdP; field; lra).
    apply derivable_pt_lim_comp.
    + apply derivable_pt_lim_log10R, HP.
    + apply derivable_pt_lim_quadratic.
Qed.

Lemma xsecR_derivative_T (T P : R) (c : coeff6) :
  derivable_pt_lim (fun t => xsecR t P c) T (DxsecDT_R T P c).
Proof.
  apply derivable_pt_lim_square with (f := fun t => zpoly t P c).
  apply zpoly_derivative_T.
Qed.

Lemma xsecR_derivative_P (T P : R) (c : coeff6) :
  0 < P -> derivable_pt_lim (fun p => xsecR T p c) P (DxsecDp_R T P c).
Proof.
  intros HP.
  apply derivable_pt_lim_square with (f := fun p => zpoly T p c).
  apply zpoly_derivative_P, HP.
Qed.

(** ** Clamping and the two branches of [calculate_xsec_fullmodel] *)

Lemma clamp_code (lo hi x : R) :
  lo <= hi ->
  (if flt (Fin x) (Fin lo) then Fin lo
   else if fgt (Fin x) (Fin hi) then Fin hi else Fin x)
  = Fin (Rmax lo (Rmin hi x)).
Proof.
  intros Hle. unfold fgt, flt, Rltb, Rmax, Rmin.
  destruct (Rlt_dec x lo), (Rlt_dec hi x), (Rle_dec hi x);
    try destruct (Rle_dec lo hi); try destruct (Rle_dec lo x);
    f_equal; lra.
Qed.

Lemma outside_code (T P minT maxT minP maxP : R) :
  flt (Fin P) (Fin minP) || fgt (Fin P) (Fin maxP)
  || flt (Fin T) (Fin minT) || fgt (Fin T) (Fin maxT) = false
  <-> (minT <= T <= maxT /\ minP <= P <= maxP).
Proof.
  unfold fgt, flt, Rltb.
  destruct (Rlt_dec P minP), (Rlt_dec maxP P), (Rlt_dec T minT),
    (Rlt_dec maxT T); cbn; split; intros H;
    try discriminate; try reflexivity; lra.
Qed.

Lemma vadd_zero_scaled (A : Type) (f g h : A -> R) (l : list A) :
  vadd (vadd (map (fun a => Fin (f a)) l)
             (vscale (map (fun a => Fin (g a)) l) (Fin 0)))
       (vscale (map (fun a => Fin (h a)) l) (Fin 0))
  = map (fun a => Fin (f a)) l.
Proof.
  unfold vadd, vscale.
  induction l as [| a l IH]; [reflexivity |].
  cbn. rewrite IH. do 2 f_equal. ring.
Qed.

Lemma fullmodel_interior (T P minT maxT minP maxP : R) (coeffs : matrix) :
  minT < T < maxT -> minP < P < maxP ->
  calculate_xsec_fullmodel (Fin T) (Fin P) coeffs
    (Fin minT) (Fin maxT) (Fin minP) (Fin maxP)
  = calculate_xsec (Fin T) (Fin P) coeffs.
Proof.
  intros HTin HPin. unfold calculate_xsec_fullmodel.
  assert (Hin : minT <= T <= maxT /\ minP <= P <= maxP) by lra.
  apply outside_code in Hin. rewrite Hin. reflexivity.
Qed.

Lemma fullmodel_not_interior
  (T P minT maxT minP maxP : R) (cs : list coeff6) :
  0 < P -> minT <= maxT -> minP <= maxP ->
  ~ (minT < T < maxT /\ minP < P < maxP) ->
  let T0 := Rmax minT (Rmin maxT T) in
  let P0 := Rmax minP (Rmin maxP P) in
  calculate_xsec_fullmodel (Fin T) (Fin P) (coeff_rows cs)
    (Fin minT) (Fin maxT) (Fin minP) (Fin maxP)
  = (xsec_0 <- calculate_xsec (Fin T0) (Fin P0) (coeff_rows cs) ;;
     '(dT, dP) <- xsec_derivative (Fin T0) (Fin P0) (coeff_rows cs) ;;
     Some (vadd (vadd xsec_0 (vscale dT (fsub (Fin T) (Fin T0))))
                (vscale dP (fsub (Fin P) (Fin P0))))).
Proof.
  intros HP HT HPe Hnot T0 P0. unfold calculate_xsec_fullmodel.
  destruct (flt (Fin P) (Fin minP) || fgt (Fin P) (Fin maxP)
            || flt (Fin T) (Fin minT) || fgt (Fin T) (Fin maxT))
    eqn:Hout.
  - rewrite (clamp_code T HT), (clamp_code P HPe). reflexivity.
  - apply outside_code in Hout.
    assert (ET : T0 = T).
    { unfold T0, Rmax, Rmin.
      destruct (Rle_dec maxT T); destruct (Rle_dec minT maxT);
        try destruct (Rle_dec minT T); lra. }
    assert (EP : P0 = P).
    { unfold P0, Rmax, Rmin.
      destruct (Rle_dec maxP P); destruct (Rle_dec minP maxP);
        try destruct (Rle_dec minP P); lra. }
    rewrite ET, EP.
    rewrite (calculate_xsec_fin T cs HP), (xsec_derivative_fin T cs HP).
    cbn [bind]. f_equal. unfold fsub, fopp, fadd.
    replace (T + - T) with 0 by ring. replace (P + - P) with 0 by ring.
    symmetry. apply vadd_zero_scaled.
Qed.

End EvaluatorFacts.

(** * Claims about the evaluator *)

Section EvaluatorClaims.

Local Open Scope R_scope.

Lemma zpoly_abs_le (T P : R) (c : coeff6) :
  Rabs (zpoly T P c)
  <= Rabs (p00 c * 1) + Rabs (p10 c * T) + Rabs (p01 c * log10R P)
     + Rabs (p20 c * (T * T)) + Rabs (p11 c * (T * log10R P))
     + Rabs (p02 c * (log10R P * log10R P)).
Proof.
  unfold zpoly.
  do 5 (eapply Rle_trans; [apply Rabs_triang |]; apply Rplus_le_compat_r).
  apply Rle_refl.
Qed.

Lemma square_le_of_abs_le (z s : R) : Rabs z <= s -> 0 <= z * z <= s * s.
Proof.
  intros H. pose proof (Rabs_pos z) as H0.
  assert (E : z * z = Rabs z * Rabs z).
  { unfold Rabs. destruct (Rcase_abs z); ring. }
  rewrite E. split; [apply Rmult_le_pos; assumption |].
  apply Rmult_le_compat; assumption.
Qed.

Lemma float_bound_ge : 2 ^ 17 <= float_bound.
Proof. unfold float_bound. apply Rle_pow; [lra | lia]. Qed.

(** C4: for every [T], every [P > 0] and every coefficient vector for which
    no step of the evaluation overflows, each value returned by
    [calculate_xsec] is the square of the coefficients dotted with the basis
    [1, T, log10 P, T^2, T*log10 P, (log10 P)^2]: a finite number in the
    range of the doubles that compares [>= 0]. *)
Theorem calculate_xsec_nonneg (T P : R) (cs : list coeff6) :
  0 < P ->
  Forall (calculate_xsec_no_overflow T P) cs ->
  exists out : vector,
    calculate_xsec (Fin T) (Fin P) (coeff_rows cs) = Some out
    /\ out = map (fun c => Fin (zpoly T P c * zpoly T P c)) cs
    /\ Forall (fun v => fge v (Fin 0) = true) out
    /\ Forall (fun v => exists r : R, v = Fin r /\ 0 <= r <= float_bound) out.
Proof.
  intros HP Hno. eexists. split; [apply calculate_xsec_fin, HP |].
  split; [reflexivity |]. split.
  - apply Forall_forall. intros v Hv.
    apply in_map_iff in Hv. destruct Hv as [c [<- _]].
    unfold xsecR, fge, fle, flt, feqb, Rltb, Reqb.
    pose proof (Rle_0_sqr (zpoly T P c)) as Hsq. unfold Rsqr in Hsq.
    destruct (Rlt_dec 0 (zpoly T P c * zpoly T P c)); [reflexivity |].
    destruct (Req_dec_T 0 (zpoly T P c * zpoly T P c)); [reflexivity | lra].
  - apply Forall_forall. intros v Hv.
    apply in_map_iff in Hv. destruct Hv as [c [<- Hc]].
    rewrite Forall_forall in Hno. destruct (Hno c Hc) as (_ & _ & _ & Hs).
    cbv zeta in Hs.
    destruct (@square_le_of_abs_le _ _ (zpoly_abs_le T P c)) as [H0 H1].
    eexists. split; [reflexivity |]. split; [exact H0 |].
    eapply Rle_trans; [exact H1 | exact Hs].
Qed.

Lemma calculate_xsec_nonneg_witness :
  exists out : vector,
    calculate_xsec (Fin 250) (Fin 10)
      (coeff_rows [Coeff6 1 (1 / 100) (1 / 2) 0 0 0]) = Some out
    /\ out = map (fun c => Fin (zpoly 250 10 c * zpoly 250 10 c))
                 [Coeff6 1 (1 / 100) (1 / 2) 0 0 0]
    /\ Forall (fun v => fge v (Fin 0) = true) out
    /\ Forall (fun v => exists r : R, v = Fin r /\ 0 <= r <= float_bound) out.
Proof.
  assert (HP : 0 < 10) by lra.
  assert (HL : log10R 10 = 1).
  { unfold log10R. pose proof ln10_pos. field. lra. }
  assert (Hb : forall x : R, -131072 <= x <= 131072 -> Rabs x <= float_bound).
  { intros x Hx. apply Rle_trans with (2 ^ 17); [| apply float_bound_ge].
    replace (2 ^ 17) with 131072 by (cbn [pow]; lra).
    unfold Rabs. destruct (Rcase_abs x); lra. }
  apply (@calculate_xsec_nonneg 250 10 [Coeff6 1 (1 / 100) (1 / 2) 0 0 0] HP).
  constructor; [| constructor].
  unfold calculate_xsec_no_overflow. cbv zeta. cbn [p00 p10 p01 p20 p11 p02].
  rewrite HL.
  repeat split; try (apply Hb; lra).
  apply Rle_trans with (2 ^ 17); [| apply float_bound_ge].
  replace (2 ^ 17) with 131072 by (cbn [pow]; lra).
  replace (Rabs (1 * 1)) with 1 by (rewrite Rabs_pos_eq; lra).
  replace (Rabs (1 / 100 * 250)) with (5 / 2) by (rewrite Rabs_pos_eq; lra).
  replace (Rabs (1 / 2 * 1)) with (1 / 2) by (rewrite Rabs_pos_eq; lra).
  replace (Rabs (0 * (250 * 250))) with 0 by (rewrite Rabs_pos_eq; lra).
  replace (Rabs (0 * (250 * 1))) with 0 by (rewrite Rabs_pos_eq; lra).
  replace (Rabs (0 * (1 * 1))) with 0 by (rewrite Rabs_pos_eq; lra).
  lra.
Defined.

(** C2: for finite [T], [P > 0] and an envelope [minT <= maxT],
    [minP <= maxP]: strictly inside the rectangle the full model is
    [calculate_xsec(T, P)]; everywhere else it is
    [calculate_xsec(T0, P0) + dT*(T - T0) + dP*(P - P0)] with [(T0, P0)]
    the point clamped axis by axis and [(dT, dP)] the result of
    [xsec_derivative] there, which (for [P0 > 0]) are the partial
    derivatives of the evaluator at [(T0, P0)]. *)
Theorem calculate_xsec_fullmodel_cases
  (T P minT maxT minP maxP : R) (cs : list coeff6) :
  0 < P -> minT <= maxT -> minP <= maxP ->
  let coeffs := coeff_rows cs in
  let T0 := Rmax minT (Rmin maxT T) in
  let P0 := Rmax minP (Rmin maxP P) in
  let full := calculate_xsec_fullmodel (Fin T) (Fin P) coeffs
                (Fin minT) (Fin maxT) (Fin minP) (Fin maxP) in
  ((minT < T < maxT /\ minP < P < maxP) ->
   full = calculate_xsec (Fin T) (Fin P) coeffs)
  /\ (~ (minT < T < maxT /\ minP < P < maxP) ->
      full = (xsec_0 <- calculate_xsec (Fin T0) (Fin P0) coeffs ;;
              '(dT, dP) <- xsec_derivative (Fin T0) (Fin P0) coeffs ;;
              Some (vadd (vadd xsec_0 (vscale dT (fsub (Fin T) (Fin T0))))
                         (vscale dP (fsub (Fin P) (Fin P0))))))
  /\ (0 < P0 ->
      calculate_xsec (Fin T0) (Fin P0) coeffs
      = Some (map (fun c => Fin (xsecR T0 P0 c)) cs)
      /\ xsec_derivative (Fin T0) (Fin P0) coeffs
         = Some (map (fun c => Fin (DxsecDT_R T0 P0 c)) cs,
                 map (fun c => Fin (DxsecDp_R T0 P0 c)) cs)
      /\ forall c : coeff6,
           derivable_pt_lim (fun t => xsecR t P0 c) T0 (DxsecDT_R T0 P0 c)
           /\ derivable_pt_lim (fun p => xsecR T0 p c) P0
                (DxsecDp_R T0 P0 c)).
Proof.
  intros HP HT HPe coeffs T0 P0 full.
  split; [| split].
  - intros [HTin HPin]. apply fullmodel_interior; assumption.
  - intros Hnot. apply fullmodel_not_interior; assumption.
  - intros HP0. split; [| split].
    + apply calculate_xsec_fin, HP0.
    + apply xsec_derivative_fin, HP0.
    + intros c. split.
      * apply xsecR_derivative_T.
      * apply xsecR_derivative_P, HP0.
Qed.

Lemma calculate_xsec_fullmodel_cases_witness :
  0 < 1000 /\ 200 <= 300 /\ 100 <= 100000
  /\ calculate_xsec_fullmodel (Fin 199) (Fin 1000)
       (coeff_rows [Coeff6 (-199) 1 0 0 0 0])
       (Fin 200) (Fin 300) (Fin 100) (Fin 100000)
     = (xsec_0 <- calculate_xsec (Fin (Rmax 200 (Rmin 300 199)))
                    (Fin (Rmax 100 (Rmin 100000 1000)))
                    (coeff_rows [Coeff6 (-199) 1 0 0 0 0]) ;;
        '(dT, dP) <- xsec_derivative (Fin (Rmax 200 (Rmin 300 199)))
                       (Fin (Rmax 100 (Rmin 100000 1000)))
                       (coeff_rows [Coeff6 (-199) 1 0 0 0 0]) ;;
        Some (vadd (vadd xsec_0
                      (vscale dT (fsub (Fin 199)
                                    (Fin (Rmax 200 (Rmin 300 199))))))
                   (vscale dP (fsub (Fin 1000)
                                 (Fin (Rmax 100 (Rmin 100000 1000))))))).
Proof.
  assert (H1 : 0 < 1000) by lra.
  assert (H2 : 200 <= 300) by lra.
  assert (H3 : 100 <= 100000) by lra.
  repeat split; try assumption.
  apply (proj1 (proj2 (@calculate_xsec_fullmodel_cases 199 1000 200 300 100
                         100000 [Coeff6 (-199) 1 0 0 0 0] H1 H2 H3))).
  lra.
Defined.

(** C9: the linear extrapolation does not keep the result non-negative: for
    the coefficients [z = T - 199], the envelope [200, 300] x [100, 100000]
    and the query point [(199, 1000)] below the envelope in temperature, the
    full model returns [-1], although [calculate_xsec] itself never returns
    a negative value for these coefficients. *)
Theorem extrapolation_can_be_negative :
  exists (T P minT maxT minP maxP : R) (c : coeff6) (v : R),
    0 < P /\ minT <= maxT /\ minP <= maxP
    /\ ~ (minT <= T <= maxT /\ minP <= P <= maxP)
    /\ calculate_xsec_fullmodel (Fin T) (Fin P) (coeff_rows [c])
         (Fin minT) (Fin maxT) (Fin minP) (Fin maxP) = Some [Fin v]
    /\ v = xsecR (Rmax minT (Rmin maxT T)) (Rmax minP (Rmin maxP P)) c
           + DxsecDT_R (Rmax minT (Rmin maxT T)) (Rmax minP (Rmin maxP P)) c
             * (T - Rmax minT (Rmin maxT T))
           + DxsecDp_R (Rmax minT (Rmin maxT T)) (Rmax minP (Rmin maxP P)) c
             * (P - Rmax minP (Rmin maxP P))
    /\ v < 0
    /\ forall T' P' : R,
         0 < P' ->
         calculate_xsec (Fin T') (Fin P') (coeff_rows [c])
         = Some [Fin (xsecR T' P' c)] /\ 0 <= xsecR T' P' c.
Proof.
  exists 199, 1000, 200, 300, 100, 100000, (Coeff6 (-199) 1 0 0 0 0), (-1).
  assert (ET : Rmax 200 (Rmin 300 199) = 200).
  { unfold Rmax, Rmin. destruct (Rle_dec 300 199); [lra |].
    destruct (Rle_dec 200 199); [lra | reflexivity]. }
  assert (EP : Rmax 100 (Rmin 100000 1000) = 1000).
  { unfold Rmax, Rmin. destruct (Rle_dec 100000 1000); [lra |].
    destruct (Rle_dec 100 1000); [reflexivity | lra]. }
  assert (Hv : xsecR 200 1000 (Coeff6 (-199) 1 0 0 0 0)
               + DxsecDT_R 200 1000 (Coeff6 (-199) 1 0 0 0 0) * (199 - 200)
               + DxsecDp_R 200 1000 (Coeff6 (-199) 1 0 0 0 0) * (1000 - 1000)
               = -1).
  { unfold xsecR, DxsecDT_R, DxsecDp_R, dzdT, dzdP, zpoly.
    cbn [p00 p10 p01 p20 p11 p02].
    assert (H10 := ln10_pos). field. lra. }
  repeat split; try lra.
  - rewrite fullmodel_not_interior by lra.
    rewrite ET, EP.
    rewrite calculate_xsec_fin, xsec_derivative_fin by lra.
    cbn. do 3 f_equal. rewrite <- Hv. ring.
  - rewrite ET, EP. symmetry. exact Hv.
  - apply (calculate_xsec_fin T' [Coeff6 (-199) 1 0 0 0 0]). assumption.
  - unfold xsecR. apply Rle_0_sqr.
Qed.

End EvaluatorClaims.

(** * The adjusted R-square statistic *)

Section RsquareClaims.

Local Open Scope R_scope.

(** C3: on [y = [1, 2, nan]], [yfit = [1, 2, 0]] and two coefficients the
    code takes [n = len(y) = 3] and returns 1, where the statistic with [n]
    the number of entries that are not nan ([n = 2 = k]) is undefined (nan);
    on [y = [1, 2, 4, nan]], [yfit = [1, 2, 3, 0]] the code returns 19/28
    where the statistic is 4/7. *)
Theorem calc_Rsquare_counts_nan_entries :
  calc_Rsquare [Fin 1; Fin 2; NaN] [Fin 1; Fin 2; Fin 0] 2 = Some (Fin 1)
  /\ adjusted_r_squared_spec [Fin 1; Fin 2; NaN] [Fin 1; Fin 2; Fin 0] 2
     = Some NaN
  /\ calc_Rsquare [Fin 1; Fin 2; Fin 4; NaN] [Fin 1; Fin 2; Fin 3; Fin 0] 2
     = Some (Fin (19 / 28))
  /\ adjusted_r_squared_spec [Fin 1; Fin 2; Fin 4; NaN]
       [Fin 1; Fin 2; Fin 3; Fin 0] 2
     = Some (Fin (4 / 7)).
Proof.
  assert (Hm : nanmean [Fin 1; Fin 2; NaN] = Fin (3 / 2)).
  { unfold nanmean, sum. eval_R. f_equal. lra. }
  assert (Hm' : nanmean [Fin 1; Fin 2; Fin 4; NaN] = Fin (7 / 3)).
  { unfold nanmean, sum. eval_R. f_equal. lra. }
  repeat split.
  - unfold calc_Rsquare. cbn -[nanmean IZR nansum vsqr]. rewrite Hm.
    unfold nansum, sum, vsqr, fsqr. eval_R. do 2 f_equal. field.
  - unfold adjusted_r_squared_spec. cbn -[nanmean IZR nansum vsqr].
    rewrite Hm. unfold nansum, sum, vsqr, fsqr. eval_R. reflexivity.
  - unfold calc_Rsquare. cbn -[nanmean IZR nansum vsqr]. rewrite Hm'.
    unfold nansum, sum, vsqr, fsqr. eval_R. do 2 f_equal. field.
  - unfold adjusted_r_squared_spec. cbn -[nanmean IZR nansum vsqr].
    rewrite Hm'. unfold nansum, sum, vsqr, fsqr. eval_R. do 2 f_equal. field.
Qed.

(** X10: what the code does instead: with [n = len(y)], nan is returned
    when [SST == 0] or [len(y) = Ncoeffs], and no division by zero is
    made. *)
Lemma calc_Rsquare_undefined (y yfit : vector) (Ncoeffs : Z) :
  List.length y = List.length yfit ->
  feqb (nansum (vsqr (map (fun v => fsub v (nanmean y)) y))) (Fin 0) = true
  \/ Z.of_nat (List.length y) = Ncoeffs ->
  calc_Rsquare y yfit Ncoeffs = Some NaN.
Proof.
  intros Hlen Hundef. unfold calc_Rsquare, map2_checked.
  rewrite Hlen, Nat.eqb_refl. cbn [bind].
  assert (Hc : feqb (nansum (vsqr (map (fun v => fsub v (nanmean y)) y)))
                 (Fin 0)
               || (Z.of_nat (List.length yfit) - Ncoeffs =? 0)%Z = true).
  { destruct Hundef as [-> | <-]; [reflexivity |].
    rewrite Hlen, Z.sub_diag. apply orb_true_r. }
  rewrite Hc. cbn.
  destruct (nansum (vsqr (map2 fsub y yfit))); reflexivity.
Qed.

End RsquareClaims.

(** * The model selector *)

Section MaskFacts.

Lemma map2_length (A B C : Type) (f : A -> B -> C) (a : list A) (b : list B) :
  List.length a = List.length b -> List.length (map2 f a b) = List.length a.
Proof.
  revert b. induction a as [| x a IH]; intros [| y b] H; cbn in *;
    try discriminate; [reflexivity |].
  f_equal. apply IH. lia.
Qed.

Lemma map2_checked_eq (A B C : Type) (f : A -> B -> C)
  (a : list A) (b : list B) :
  List.length a = List.length b -> map2_checked f a b = Some (map2 f a b).
Proof.
  intros H. unfold map2_checked. rewrite H, Nat.eqb_refl. reflexivity.
Qed.

Lemma logic_bad_eq (T L S : vector) :
  List.length T = List.length L -> List.length L = List.length S ->
  logic_bad T L S = Some (bad_mask T L S).
Proof.
  intros HTL HLS. unfold logic_bad.
  assert (Hi1 : List.length (map2 orb (map isinf T) (map isinf L))
                = List.length T).
  { rewrite map2_length; rewrite !length_map; lia. }
  assert (Hn1 : List.length (map2 orb (map isnan T) (map isnan L))
                = List.length T).
  { rewrite map2_length; rewrite !length_map; lia. }
  rewrite (map2_checked_eq orb (map isinf T) (map isinf L))
    by (rewrite !length_map; lia).
  cbn [bind].
  rewrite (map2_checked_eq orb _ (map isinf S))
    by (rewrite Hi1, length_map; lia).
  cbn [bind].
  rewrite (map2_checked_eq orb (map isnan T) (map isnan L))
    by (rewrite !length_map; lia).
  cbn [bind].
  rewrite (map2_checked_eq orb _ (map isnan S))
    by (rewrite Hn1, length_map; lia).
  cbn [bind].
  rewrite map2_checked_eq
    by (rewrite !map2_length; rewrite ?Hi1, ?Hn1, ?length_map; lia).
  f_equal.
  revert L S HTL HLS Hi1 Hn1.
  induction T as [| t T IH]; intros [| l L] [| x S] HTL HLS _ _; cbn in *;
    try discriminate; [reflexivity |].
  unfold sample_bad at 1. f_equal.
  apply IH; try lia; rewrite map2_length; rewrite !length_map; lia.
Qed.

Lemma bad_mask_length (T L S : vector) :
  List.length T = List.length L -> List.length L = List.length S ->
  List.length (bad_mask T L S) = List.length T.
Proof.
  revert L S.
  induction T as [| t T IH]; intros [| l L] [| x S] HTL HLS; cbn in *;
    try discriminate; [reflexivity |].
  f_equal. apply IH; lia.
Qed.

Lemma count_true_negb (mask : list bool) :
  (count_true (map negb mask) + count_true mask = List.length mask)%nat.
Proof.
  unfold count_true.
  induction mask as [| [|] mask IH]; cbn; [reflexivity | lia | lia].
Qed.

Lemma compress_length (A : Type) (mask : list bool) (a : list A) :
  List.length mask = List.length a ->
  List.length (compress mask a) = count_true mask.
Proof.
  unfold count_true. revert a.
  induction mask as [| [|] mask IH]; intros [| x a] H; cbn in *;
    try discriminate; try reflexivity.
  - f_equal. apply IH. lia.
  - apply IH. lia.
Qed.

Lemma nonempty_cons (A : Type) (l : list A) :
  (0 < List.length l)%nat -> exists x l', l = x :: l'.
Proof. destruct l as [| x l']; cbn; [lia | eauto]. Qed.

Lemma sample_bad_iff (t l x : float64) :
  sample_bad t l x = true <-> ~ (is_fin t /\ is_fin l /\ is_fin x).
Proof.
  destruct t, l, x; cbn; split; intros H; try reflexivity; try tauto;
    try discriminate; intros [? [? ?]]; assumption.
Qed.

Lemma bad_mask_all (T L S : vector) :
  List.length T = List.length L -> List.length L = List.length S ->
  (forall i : nat,
      (i < List.length T)%nat ->
      ~ (is_fin (nth i T NaN) /\ is_fin (nth i L NaN) /\ is_fin (nth i S NaN))) ->
  count_true (bad_mask T L S) = List.length T.
Proof.
  unfold count_true. revert L S.
  induction T as [| t T IH]; intros [| l L] [| x S] HTL HLS Hall; cbn in *;
    try discriminate; [reflexivity |].
  assert (Hb : sample_bad t l x = true).
  { apply sample_bad_iff. apply (Hall 0%nat). lia. }
  rewrite Hb. cbn. f_equal. apply IH; [lia | lia |].
  intros i Hi. apply (Hall (Datatypes.S i)). lia.
Qed.

End MaskFacts.

Section SelectorClaims.

Variable lstsq : matrix -> vector -> lstsq_result.

(** C5: when every sample has an infinite or nan value among [T],
    [log10(P)] and [sqrt(Xsec)], no fit is made and the result has six zero
    coefficients, nan as residual, rank and singular values, the envelope
    [MinP = MinT = +inf], [MaxP = MaxT = -inf] and no point. *)
Theorem fit_xsec_data_all_invalid (T P Xsec : vector)
  (min_deltaLogP min_deltaT : float64) :
  List.length T = List.length P -> List.length P = List.length Xsec ->
  (forall i : nat,
      (i < List.length T)%nat ->
      ~ (is_fin (nth i T NaN) /\ is_fin (flog10 (nth i P (Fin 1)))
         /\ is_fin (fsqrt (nth i Xsec (Fin 1))))) ->
  fit_xsec_data lstsq T P Xsec min_deltaLogP min_deltaT
  = Some {| formula := the_formula;
            coeff_names := the_coeff_names;
            coefficients := [Fin 0; Fin 0; Fin 0; Fin 0; Fin 0; Fin 0];
            residuum := ResValue NaN;
            rank := RankNaN;
            sgl_val := SglNaN;
            MinP := PInf; MaxP := NInf; MinT := PInf; MaxT := NInf;
            NumberOfPoints := 0 |}.
Proof.
  intros HTP HPX Hall. unfold fit_xsec_data.
  rewrite logic_bad_eq by (rewrite !length_map; lia). cbn [bind].
  rewrite bad_mask_all; try (rewrite !length_map; lia).
  - rewrite Nat.ltb_irrefl. reflexivity.
  - intros i Hi.
    assert (EP : nth i (map flog10 P) NaN = flog10 (nth i P (Fin 1))).
    { rewrite (nth_indep _ NaN (flog10 (Fin 1)))
        by (rewrite length_map; lia).
      apply map_nth. }
    assert (EX : nth i (map fsqrt Xsec) NaN = fsqrt (nth i Xsec (Fin 1))).
    { rewrite (nth_indep _ NaN (fsqrt (Fin 1)))
        by (rewrite length_map; lia).
      apply map_nth. }
    rewrite EP, EX. apply Hall, Hi.
Qed.

(** ** The solver returns what the branches index *)

Lemma Forall_map2_rows (A B : Type) (f : A -> B -> list float64) (n : nat)
  (a : list A) (b : list B) :
  (forall x y, List.length (f x y) = n) ->
  Forall (fun row => List.length row = n) (map2 f a b).
Proof.
  intros Hf. revert b.
  induction a as [| x a IH]; intros [| y b]; cbn; constructor; auto.
Qed.

Lemma length2_inv (A : Type) (l : list A) :
  List.length l = 2%nat -> exists a b, l = [a; b].
Proof.
  destruct l as [| a [| b [| c l]]]; cbn; intros H; try discriminate; eauto.
Qed.

Lemma length3_inv (A : Type) (l : list A) :
  List.length l = 3%nat -> exists a b c, l = [a; b; c].
Proof.
  destruct l as [| a [| b [| c [| d l]]]]; cbn; intros H; try discriminate;
    eauto.
Qed.

Lemma length6_inv (A : Type) (l : list A) :
  List.length l = 6%nat -> exists a b c d e f, l = [a; b; c; d; e; f].
Proof.
  destruct l as [| a [| b [| c [| d [| e [| f [| g l]]]]]]]; cbn; intros H;
    try discriminate.
  do 6 eexists. reflexivity.
Qed.

Section Shape.

Hypothesis Hshape : lstsq_shape lstsq.

Lemma fit_poly22_shape (x y : float64) (xs ys zs : vector) :
  exists a b c d e f,
    lstsq_poly (fit_poly22 lstsq (x :: xs) (y :: ys) zs) = [a; b; c; d; e; f].
Proof.
  apply length6_inv. unfold fit_poly22. apply Hshape.
  - cbn. discriminate.
  - apply Forall_map2_rows. reflexivity.
Qed.

Lemma fit_poly11_shape (x y : float64) (xs ys zs : vector) :
  exists a b c d e f,
    lstsq_poly (fit_poly11 lstsq (x :: xs) (y :: ys) zs) = [a; b; c; d; e; f].
Proof.
  apply length6_inv. unfold fit_poly11. apply Hshape.
  - cbn. discriminate.
  - apply Forall_map2_rows. reflexivity.
Qed.

Lemma fit_poly2_shape (x : float64) (xs zs : vector) :
  exists a b c, lstsq_poly (fit_poly2 lstsq (x :: xs) zs) = [a; b; c].
Proof.
  apply length3_inv. unfold fit_poly2. apply Hshape.
  - cbn. discriminate.
  - apply Forall_forall. intros row Hrow.
    apply in_map_iff in Hrow. destruct Hrow as [t [<- _]]. reflexivity.
Qed.

Lemma fit_poly1_shape (x : float64) (xs zs : vector) :
  exists a b, lstsq_poly (fit_poly1 lstsq (x :: xs) zs) = [a; b].
Proof.
  apply length2_inv. unfold fit_poly1. apply Hshape.
  - cbn. discriminate.
  - apply Forall_forall. intros row Hrow.
    apply in_map_iff in Hrow. destruct Hrow as [t [<- _]]. reflexivity.
Qed.

End Shape.

(** The valid samples of well-shaped data are not empty when a fit is
    made. *)
Lemma valid_samples (T L S : vector) :
  List.length T = List.length L -> List.length L = List.length S ->
  (count_true (bad_mask T L S) <? List.length T)%nat = true ->
  exists x xs y ys z zs,
    compress (map negb (bad_mask T L S)) T = x :: xs
    /\ compress (map negb (bad_mask T L S)) L = y :: ys
    /\ compress (map negb (bad_mask T L S)) S = z :: zs.
Proof.
  intros HTL HLS Hlt. apply Nat.ltb_lt in Hlt.
  pose proof (bad_mask_length T L S HTL HLS) as Hlen.
  pose proof (count_true_negb (bad_mask T L S)) as Hneg.
  assert (Hpos : (0 < count_true (map negb (bad_mask T L S)))%nat) by lia.
  destruct (@nonempty_cons _ (compress (map negb (bad_mask T L S)) T))
    as (x & xs & Hx);
    [rewrite compress_length by (rewrite length_map; lia); exact Hpos |].
  destruct (@nonempty_cons _ (compress (map negb (bad_mask T L S)) L))
    as (y & ys & Hy);
    [rewrite compress_length by (rewrite length_map; lia); exact Hpos |].
  destruct (@nonempty_cons _ (compress (map negb (bad_mask T L S)) S))
    as (z & zs & Hz);
    [rewrite compress_length by (rewrite length_map; lia); exact Hpos |].
  exists x, xs, y, ys, z, zs. auto.
Qed.

(** Take the next condition of the conditional chain. *)
Ltac next_branch :=
  match goal with
  | |- context [if ?c && ?d && (?k <? ?n)%nat then _ else _] =>
      destruct (c && d && (k <? n)%nat) eqn:?
  end.

Ltac unused_positions :=
  let i := fresh "i" in
  let Hi := fresh "Hi" in
  let Hu := fresh "Hu" in
  intros i Hi Hu;
  do 6 (destruct i as [| i]; [first [discriminate Hu | reflexivity] |]);
  lia.

(** C7: the fit result has six coefficients in every branch, and the
    positions that the selected sub-model does not use are exactly zero. *)
Theorem fit_xsec_data_coefficients_shape (T P Xsec : vector)
  (min_deltaLogP min_deltaT : float64) :
  lstsq_shape lstsq ->
  List.length T = List.length P -> List.length P = List.length Xsec ->
  exists (r : fit_result) (m : model),
    fit_xsec_data lstsq T P Xsec min_deltaLogP min_deltaT = Some r
    /\ selected_model T P Xsec min_deltaLogP min_deltaT = Some m
    /\ List.length (coefficients r) = 6%nat
    /\ forall i : nat,
         (i < 6)%nat -> uses m i = false ->
         nth i (coefficients r) NaN = Fin 0.
Proof.
  intros Hshape HTP HPX. unfold fit_xsec_data, selected_model.
  rewrite logic_bad_eq by (rewrite !length_map; lia). cbn [bind].
  destruct (count_true (bad_mask T (map flog10 P) (map fsqrt Xsec))
            <? List.length T)%nat eqn:Hlt.
  2: { do 2 eexists. split; [reflexivity |]. split; [reflexivity |].
       split; [reflexivity |]. unused_positions. }
  destruct (@valid_samples T (map flog10 P) (map fsqrt Xsec))
    as (x & xs & y & ys & z & zs & Hx & Hy & Hz);
    [rewrite length_map; lia | rewrite !length_map; lia | exact Hlt |].
  rewrite Hx, Hy, Hz. unfold spread, select_model.
  cbn [py_max py_min bind map].
  destruct (fit_poly22_shape Hshape x y xs ys (z :: zs))
    as (a0 & a1 & a2 & a3 & a4 & a5 & H22).
  destruct (fit_poly11_shape Hshape x y xs ys (z :: zs))
    as (b0 & b1 & b2 & b3 & b4 & b5 & H11).
  destruct (fit_poly2_shape Hshape x xs (z :: zs)) as (c0' & c1 & c2 & H2T).
  destruct (fit_poly1_shape Hshape x xs (z :: zs)) as (d0 & d1 & H1T).
  destruct (fit_poly2_shape Hshape y ys (z :: zs)) as (e0 & e1 & e2 & H2P).
  destruct (fit_poly1_shape Hshape y ys (z :: zs)) as (f0 & f1 & H1P).
  repeat next_branch;
    rewrite ?H22, ?H11, ?H2T, ?H1T, ?H2P, ?H1P;
    cbn [nth_error bind];
    (do 2 eexists; split; [reflexivity |]; split; [reflexivity |];
     split; [try rewrite H22; reflexivity |]);
    cbn [coefficients]; try rewrite H22; unused_positions.
Qed.

Lemma residual2_quadratic (xs zs : list R) (q0 q1 q2 : R) :
  residual2 (design_quadratic_spec xs) zs [q0; q1; q2]
  = quadratic_sse xs zs q0 q1 q2.
Proof.
  unfold residual2, quadratic_sse, design_quadratic_spec.
  revert zs. induction xs as [| x xs IH]; intros [| z zs]; cbn [map map2 fold_right];
    try reflexivity.
  rewrite IH. f_equal. unfold dot. cbn [map2 fold_right]. ring.
Qed.

(** C6: with the default thresholds, six temperatures from 200 K to 250 K
    at the constant pressure 1000 Pa and any positive cross sections select
    the quadratic fit in temperature: the solver is given the matrix of the
    rows [1, T, T^2] and the right-hand side [sqrt(Xsec)], so that (for a
    solver that minimises the residual) [p00, p10, p20] minimise the sum of
    the squares of [p00 + p10*T + p20*T^2 - sqrt(Xsec)] over the data;
    [p01, p11, p02] are zero. *)
Theorem fit_xsec_data_quadratic_in_T (x1 x2 x3 x4 x5 x6 : R) :
  (0 < x1)%R -> (0 < x2)%R -> (0 < x3)%R ->
  (0 < x4)%R -> (0 < x5)%R -> (0 < x6)%R ->
  let Ts := [200; 210; 220; 230; 240; 250]%R in
  let zs := [sqrt x1; sqrt x2; sqrt x3; sqrt x4; sqrt x5; sqrt x6] in
  lstsq_least_squares lstsq 3 (design_quadratic_spec Ts) zs ->
  let T := map Fin Ts in
  let P := repeat (Fin 1000) 6 in
  let Xsec := map Fin [x1; x2; x3; x4; x5; x6] in
  let sol := lstsq (map (map Fin) (design_quadratic_spec Ts)) (map Fin zs) in
  exists (c0 c1 c2 : R) (r : fit_result),
    fit_xsec_data lstsq T P Xsec default_min_deltaLogP default_min_deltaT
    = Some r
    /\ selected_model T P Xsec default_min_deltaLogP default_min_deltaT
       = Some Poly2T
    /\ coefficients r = [Fin c0; Fin c1; Fin 0; Fin c2; Fin 0; Fin 0]
    /\ (forall q0 q1 q2 : R,
          (quadratic_sse Ts zs c0 c1 c2 <= quadratic_sse Ts zs q0 q1 q2)%R)
    /\ residuum r = lstsq_res sol
    /\ rank r = RankOf (lstsq_rnk sol)
    /\ sgl_val r = SglOf (lstsq_s sol)
    /\ NumberOfPoints r = 6%nat.
Proof.
  intros H1 H2 H3 H4 H5 H6 Ts zs (c & Hc & Hlen & Hmin) T P Xsec sol.
  destruct c as [| c0 [| c1 [| c2 [| c3 c]]]]; try discriminate Hlen.
  exists c0, c1, c2.
  assert (Hp : lstsq_poly (fit_poly2 lstsq T (map Fin zs))
               = [Fin c0; Fin c1; Fin c2]) by exact Hc.
  assert (Hsol : fit_poly2 lstsq T (map Fin zs) = sol) by reflexivity.
  assert (Hsse : forall q0 q1 q2 : R,
             (quadratic_sse Ts zs c0 c1 c2 <= quadratic_sse Ts zs q0 q1 q2)%R).
  { intros q0 q1 q2. rewrite <- !residual2_quadratic.
    apply Hmin. reflexivity. }
  clearbody sol. clear Hc Hmin.
  assert (HL : map flog10 P = repeat (Fin (log10R 1000)) 6).
  { unfold P. cbn [repeat map]. rewrite flog10_fin by lra. reflexivity. }
  assert (HS : map fsqrt Xsec
               = map Fin [sqrt x1; sqrt x2; sqrt x3; sqrt x4; sqrt x5; sqrt x6]).
  { unfold Xsec, fsqrt. cbn [map]. decide_R. reflexivity. }
  set (L := log10R 1000) in *. clearbody L.
  assert (Hxmax : py_max T = Some (Fin 250)).
  { unfold T, py_max, fgt, flt, Rltb. cbn. decide_R. reflexivity. }
  assert (Hxmin : py_min T = Some (Fin 200)).
  { unfold T, py_min, flt, Rltb. cbn. decide_R. reflexivity. }
  assert (Hymax : py_max (repeat (Fin L) 6) = Some (Fin L)).
  { unfold py_max, fgt, flt, Rltb. cbn. decide_R. reflexivity. }
  assert (Hymin : py_min (repeat (Fin L) 6) = Some (Fin L)).
  { unfold py_min, flt, Rltb. cbn. decide_R. reflexivity. }
  assert (HPmax : py_max (map fexp10 (repeat (Fin L) 6))
                  = Some (Fin (exp (L * ln 10)))).
  { unfold py_max, fgt, flt, Rltb. cbn. decide_R. reflexivity. }
  assert (HPmin : py_min (map fexp10 (repeat (Fin L) 6))
                  = Some (Fin (exp (L * ln 10)))).
  { unfold py_min, flt, Rltb. cbn. decide_R. reflexivity. }
  assert (Hc1 : fge (fsub (Fin L) (Fin L)) default_min_deltaLogP = false).
  { unfold default_min_deltaLogP. eval_R. reflexivity. }
  assert (Hc2 : flt (fsub (Fin L) (Fin L)) default_min_deltaLogP = true).
  { unfold default_min_deltaLogP. eval_R. reflexivity. }
  assert (Hc3 : fgt (fsub (Fin 250) (Fin 200)) default_min_deltaT = true).
  { unfold default_min_deltaT. eval_R. reflexivity. }
  unfold fit_xsec_data, selected_model. rewrite HL, HS.
  rewrite logic_bad_eq by reflexivity. cbn [bind].
  change (bad_mask T (repeat (Fin L) 6)
            (map Fin [sqrt x1; sqrt x2; sqrt x3; sqrt x4; sqrt x5; sqrt x6]))
    with (repeat false 6).
  change (count_true (repeat false 6) <? List.length T)%nat with true.
  cbv iota.
  change (compress (map negb (repeat false 6)) T) with T.
  change (compress (map negb (repeat false 6)) (repeat (Fin L) 6))
    with (repeat (Fin L) 6).
  change (compress (map negb (repeat false 6))
            (map Fin [sqrt x1; sqrt x2; sqrt x3; sqrt x4; sqrt x5; sqrt x6]))
    with (map Fin [sqrt x1; sqrt x2; sqrt x3; sqrt x4; sqrt x5; sqrt x6]).
  change (count_true (map negb (repeat false 6))) with 6%nat.
  unfold spread, select_model.
  rewrite Hxmax, Hxmin, Hymax, Hymin, HPmax, HPmin. cbn [bind].
  rewrite Hc1, Hc2, Hc3.
  cbn [andb Nat.ltb Nat.leb].
  change (map Fin [sqrt x1; sqrt x2; sqrt x3; sqrt x4; sqrt x5; sqrt x6])
    with (map Fin zs).
  rewrite Hp. cbn [nth_error bind]. rewrite Hsol.
  eexists. repeat split; try reflexivity. exact Hsse.
Qed.

Lemma flt_irrefl (a : float64) : flt a a = false.
Proof. destruct a; cbn; try reflexivity. apply Rltb_false. lra. Qed.

Lemma flt_asym (a b : float64) : flt a b = true -> flt b a = false.
Proof.
  destruct a, b; cbn; try reflexivity; try discriminate.
  unfold Rltb. destruct (Rlt_dec r r0), (Rlt_dec r0 r);
    try reflexivity; try discriminate; lra.
Qed.

(** C10: the temperature branches test [Delta_logP >= min_deltaLogP], the
    pressure branches [Delta_logP > min_deltaLogP]; so when the data hold a
    valid sample, [Delta_logP] equals [min_deltaLogP] and
    [Delta_T < min_deltaT], the constant model (the mean of [z]) is
    selected whatever the number of valid samples. *)
Theorem fit_xsec_data_threshold_tie (T P Xsec : vector)
  (min_deltaLogP min_deltaT Delta_T : float64) :
  List.length T = List.length P -> List.length P = List.length Xsec ->
  let bad := bad_mask T (map flog10 P) (map fsqrt Xsec) in
  let good := map negb bad in
  let xData := compress good T in
  let yData := compress good (map flog10 P) in
  let zData := compress good (map fsqrt Xsec) in
  (count_true bad < List.length T)%nat ->
  spread yData = Some min_deltaLogP ->
  spread xData = Some Delta_T ->
  flt Delta_T min_deltaT = true ->
  exists r : fit_result,
    fit_xsec_data lstsq T P Xsec min_deltaLogP min_deltaT = Some r
    /\ selected_model T P Xsec min_deltaLogP min_deltaT = Some Constant
    /\ coefficients r = [mean zData; Fin 0; Fin 0; Fin 0; Fin 0; Fin 0]
    /\ residuum r
       = ResValue (sum (vsqr (map (fun z => fsub z (mean zData)) zData)))
    /\ rank r = RankNaN
    /\ sgl_val r = SglNaN
    /\ NumberOfPoints r = count_true good.
Proof.
  intros HTP HPX bad good xData yData zData Hvalid Hy Hx Hlt.
  apply Nat.ltb_lt in Hvalid.
  destruct (@valid_samples T (map flog10 P) (map fsqrt Xsec))
    as (x & xs & y & ys & z & zs & Ex & Ey & Ez);
    [rewrite length_map; lia | rewrite !length_map; lia | exact Hvalid |].
  unfold fit_xsec_data, selected_model.
  rewrite logic_bad_eq by (rewrite !length_map; lia). cbn [bind].
  fold bad. rewrite Hvalid. fold good. fold xData yData zData.
  unfold spread in Hx, Hy |- *.
  unfold xData, yData, good, bad in Hx, Hy |- *.
  rewrite Ex in Hx. rewrite Ey in Hy. rewrite Ex, Ey.
  cbn [py_max py_min bind map] in Hx, Hy |- *.
  injection Hx as Hx. injection Hy as Hy. rewrite Hx, Hy.
  unfold select_model, fge, fle, fgt.
  rewrite (flt_irrefl min_deltaLogP), (flt_asym _ _ Hlt).
  cbn [andb orb].
  rewrite !andb_false_r. cbn [andb bind].
  eexists. repeat split; reflexivity.
Qed.

End SelectorClaims.

(** A solver that returns no coefficient: enough where no fit is made. *)
Lemma fit_xsec_data_all_invalid_witness :
  fit_xsec_data (fun _ _ => LstsqResult [] ResEmpty 0 [])
    (repeat NaN 10) (repeat (Fin 1000) 10) (repeat (Fin 1) 10)
    default_min_deltaLogP default_min_deltaT
  = Some {| formula := the_formula;
            coeff_names := the_coeff_names;
            coefficients := [Fin 0; Fin 0; Fin 0; Fin 0; Fin 0; Fin 0];
            residuum := ResValue NaN;
            rank := RankNaN;
            sgl_val := SglNaN;
            MinP := PInf; MaxP := NInf; MinT := PInf; MaxT := NInf;
            NumberOfPoints := 0 |}.
Proof.
  apply (@fit_xsec_data_all_invalid (fun _ _ => LstsqResult [] ResEmpty 0 [])
           (repeat NaN 10) (repeat (Fin 1000) 10) (repeat (Fin 1) 10)
           default_min_deltaLogP default_min_deltaT eq_refl eq_refl).
  intros i Hi [HT _].
  do 10 (destruct i as [| i]; [exact HT |]).
  cbn in Hi. lia.
Defined.

Lemma zero_solver_shape : lstsq_shape zero_solver.
Proof.
  intros M z n HM Hrows. unfold zero_solver, zeros. cbn.
  rewrite repeat_length.
  destruct M as [| row M]; [contradiction |].
  inversion Hrows; subst. reflexivity.
Qed.

Lemma fit_xsec_data_coefficients_shape_witness :
  exists (r : fit_result) (m : model),
    fit_xsec_data zero_solver
      [Fin 200; Fin 230; NaN] [Fin 1000; Fin 1000; Fin 1000]
      [Fin 1; Fin 4; Fin 9] default_min_deltaLogP default_min_deltaT = Some r
    /\ selected_model
         [Fin 200; Fin 230; NaN] [Fin 1000; Fin 1000; Fin 1000]
         [Fin 1; Fin 4; Fin 9] default_min_deltaLogP default_min_deltaT
       = Some m
    /\ List.length (coefficients r) = 6%nat
    /\ forall i : nat,
         (i < 6)%nat -> uses m i = false ->
         nth i (coefficients r) NaN = Fin 0.
Proof.
  exact (@fit_xsec_data_coefficients_shape zero_solver
           [Fin 200; Fin 230; NaN] [Fin 1000; Fin 1000; Fin 1000]
           [Fin 1; Fin 4; Fin 9] default_min_deltaLogP default_min_deltaT
           zero_solver_shape eq_refl eq_refl).
Defined.

Lemma residual2_nonneg (M : list (list R)) (z c : list R) :
  (0 <= residual2 M z c)%R.
Proof.
  unfold residual2. revert z.
  induction M as [| row M IH]; intros [| zi z]; cbn [map2 fold_right];
    try apply Rle_refl.
  apply Rplus_le_le_0_compat; [| apply IH].
  pose proof (Rle_0_sqr (dot row c - zi)) as H. unfold Rsqr in H. exact H.
Qed.

Lemma ex_solver_quadratic_least_squares :
  lstsq_least_squares ex_solver_quadratic 3 (design_quadratic_spec ex_T6)
    (map sqrt ex_Xsec6).
Proof.
  exists [0; 0; 1 / 10000]%R. split; [reflexivity |].
  split; [reflexivity |]. intros c' _.
  apply Rle_trans with 0%R; [| apply residual2_nonneg].
  rewrite residual2_quadratic. unfold quadratic_sse, ex_Xsec6, ex_T6.
  cbn [map map2 fold_right].
  rewrite !sqrt_square by lra. lra.
Qed.

Lemma fit_xsec_data_quadratic_in_T_witness :
  exists (c0 c1 c2 : R) (r : fit_result),
    fit_xsec_data ex_solver_quadratic (map Fin ex_T6) (repeat (Fin 1000) 6)
      (map Fin ex_Xsec6) default_min_deltaLogP default_min_deltaT = Some r
    /\ coefficients r = [Fin c0; Fin c1; Fin 0; Fin c2; Fin 0; Fin 0]
    /\ (forall q0 q1 q2 : R,
          (quadratic_sse ex_T6 (map sqrt ex_Xsec6) c0 c1 c2
           <= quadratic_sse ex_T6 (map sqrt ex_Xsec6) q0 q1 q2)%R).
Proof.
  destruct (@fit_xsec_data_quadratic_in_T ex_solver_quadratic
              (200 * 200 / 10000 * (200 * 200 / 10000))
              (210 * 210 / 10000 * (210 * 210 / 10000))
              (220 * 220 / 10000 * (220 * 220 / 10000))
              (230 * 230 / 10000 * (230 * 230 / 10000))
              (240 * 240 / 10000 * (240 * 240 / 10000))
              (250 * 250 / 10000 * (250 * 250 / 10000))
              ltac:(lra) ltac:(lra) ltac:(lra) ltac:(lra) ltac:(lra)
              ltac:(lra) ex_solver_quadratic_least_squares)
    as (c0 & c1 & c2 & r & Hfit & _ & Hc & Hmin & _).
  exists c0, c1, c2, r. split; [exact Hfit |]. split; [exact Hc | exact Hmin].
Defined.

Lemma log10R_1 : log10R 1 = 0%R.
Proof. unfold log10R. rewrite ln_1. pose proof ln10_pos. field. lra. Qed.

Lemma log10R_10 : log10R 10 = 1%R.
Proof. unfold log10R. pose proof ln10_pos. field. lra. Qed.

Lemma fit_xsec_data_threshold_tie_witness :
  exists r : fit_result,
    fit_xsec_data zero_solver
      [Fin 200; Fin 200; Fin 200] [Fin 1; Fin 10; Fin 10]
      [Fin 1; Fin 4; Fin 9] (Fin 1) default_min_deltaT = Some r
    /\ coefficients r
       = [mean [Fin (sqrt 1); Fin (sqrt 4); Fin (sqrt 9)];
          Fin 0; Fin 0; Fin 0; Fin 0; Fin 0]
    /\ NumberOfPoints r = 3%nat.
Proof.
  assert (HL : map flog10 [Fin 1; Fin 10; Fin 10]
               = [Fin 0; Fin 1; Fin 1]).
  { cbn [map]. rewrite !flog10_fin by lra.
    rewrite log10R_1, log10R_10. reflexivity. }
  assert (HS : map fsqrt [Fin 1; Fin 4; Fin 9]
               = [Fin (sqrt 1); Fin (sqrt 4); Fin (sqrt 9)]).
  { unfold fsqrt. cbn [map]. decide_R. reflexivity. }
  destruct (@fit_xsec_data_threshold_tie zero_solver
              [Fin 200; Fin 200; Fin 200] [Fin 1; Fin 10; Fin 10]
              [Fin 1; Fin 4; Fin 9] (Fin 1) default_min_deltaT (Fin 0)
              eq_refl eq_refl)
    as (r & Hfit & _ & Hc & _ & _ & _ & Hn).
  - rewrite HL, HS. cbn. lia.
  - rewrite HL, HS. unfold spread. cbn. eval_R. f_equal. f_equal. lra.
  - rewrite HL, HS. unfold spread. cbn. eval_R. f_equal. f_equal. lra.
  - unfold default_min_deltaT. eval_R. reflexivity.
  - exists r. rewrite HL, HS in Hc, Hn. auto.
Defined.

(** * The bilinear fit *)

Section BilinearFit.

Local Open Scope R_scope.

Lemma sum4_sq_zero (a b c d : R) :
  a * a + b * b + c * c + d * d <= 0 -> a = 0 /\ b = 0 /\ c = 0 /\ d = 0.
Proof.
  intros H.
  pose proof (Rle_0_sqr a) as Ha. pose proof (Rle_0_sqr b) as Hb.
  pose proof (Rle_0_sqr c) as Hc. pose proof (Rle_0_sqr d) as Hd.
  unfold Rsqr in *.
  repeat split; apply Rsqr_0_uniq; unfold Rsqr; lra.
Qed.

Lemma design_poly11_example :
  design_poly11 (map Fin ex_T) (map Fin ex_logP) = map (map Fin) ex_M6.
Proof. reflexivity. Qed.

Lemma residual2_ex_M6 (c0 c1 c2 c3 c4 c5 : R) :
  residual2 ex_M6 ex_z [c0; c1; c2; c3; c4; c5]
  = (c0 + c3 + c4 + c5 + 200 * c1 - 4) * (c0 + c3 + c4 + c5 + 200 * c1 - 4)
    + (c0 + c3 + c4 + c5 + 230 * c1 - 4) * (c0 + c3 + c4 + c5 + 230 * c1 - 4)
    + (c0 + c3 + c4 + c5 + 200 * c1 + c2 - 4)
      * (c0 + c3 + c4 + c5 + 200 * c1 + c2 - 4)
    + (c0 + c3 + c4 + c5 + 230 * c1 + c2 - 4)
      * (c0 + c3 + c4 + c5 + 230 * c1 + c2 - 4).
Proof. unfold residual2, dot, ex_M6, ex_z. cbn. ring. Qed.

Lemma least_squares_ex_M6_ones :
  least_squares 6 ex_M6 ex_z [1; 0; 0; 1; 1; 1].
Proof.
  split; [reflexivity |]. intros c' Hlen.
  destruct (length6_inv c' Hlen) as (c0 & c1 & c2 & c3 & c4 & c5 & ->).
  rewrite !residual2_ex_M6.
  match goal with
  | |- _ <= ?a * ?a + ?b * ?b + ?c * ?c + ?d * ?d =>
      pose proof (Rle_0_sqr a); pose proof (Rle_0_sqr b);
      pose proof (Rle_0_sqr c); pose proof (Rle_0_sqr d)
  end.
  unfold Rsqr in *. lra.
Qed.

(** Every least-squares solution of the six-column system spreads the
    intercept 4 over its four columns of ones. *)
Lemma least_squares_ex_M6_inv (c : list R) :
  least_squares 6 ex_M6 ex_z c ->
  exists c0 c1 c2 c3 c4 c5,
    c = [c0; c1; c2; c3; c4; c5]
    /\ c1 = 0 /\ c2 = 0 /\ c0 + c3 + c4 + c5 = 4.
Proof.
  intros [Hlen Hmin].
  destruct (length6_inv c Hlen) as (c0 & c1 & c2 & c3 & c4 & c5 & ->).
  exists c0, c1, c2, c3, c4, c5. split; [reflexivity |].
  specialize (Hmin [1; 0; 0; 1; 1; 1] eq_refl).
  rewrite !residual2_ex_M6 in Hmin.
  replace ((1 + 1 + 1 + 1 + 200 * 0 - 4) * (1 + 1 + 1 + 1 + 200 * 0 - 4)
           + (1 + 1 + 1 + 1 + 230 * 0 - 4) * (1 + 1 + 1 + 1 + 230 * 0 - 4)
           + (1 + 1 + 1 + 1 + 200 * 0 + 0 - 4)
             * (1 + 1 + 1 + 1 + 200 * 0 + 0 - 4)
           + (1 + 1 + 1 + 1 + 230 * 0 + 0 - 4)
             * (1 + 1 + 1 + 1 + 230 * 0 + 0 - 4)) with 0 in Hmin by ring.
  apply sum4_sq_zero in Hmin. destruct Hmin as (E1 & E2 & E3 & E4).
  repeat split; lra.
Qed.

(** The least-norm solution has the intercept 1 in each of the four
    columns of ones. *)
Lemma min_norm_ex_M6_unique (c : list R) :
  min_norm_least_squares 6 ex_M6 ex_z c -> c = [1; 0; 0; 1; 1; 1].
Proof.
  intros [Hls Hnorm].
  destruct (least_squares_ex_M6_inv Hls)
    as (c0 & c1 & c2 & c3 & c4 & c5 & -> & E1 & E2 & Es).
  specialize (Hnorm _ least_squares_ex_M6_ones).
  unfold dot in Hnorm. cbn in Hnorm. subst c1 c2.
  assert (Hsq : (c0 - 1) * (c0 - 1) + (c3 - 1) * (c3 - 1)
                + (c4 - 1) * (c4 - 1) + (c5 - 1) * (c5 - 1) <= 0) by nra.
  apply sum4_sq_zero in Hsq. destruct Hsq as (F0 & F3 & F4 & F5).
  repeat f_equal; lra.
Qed.

Lemma min_norm_ex_M6_ones :
  min_norm_least_squares 6 ex_M6 ex_z [1; 0; 0; 1; 1; 1].
Proof.
  split; [exact least_squares_ex_M6_ones |]. intros c' Hls.
  destruct (least_squares_ex_M6_inv Hls)
    as (c0 & c1 & c2 & c3 & c4 & c5 & -> & E1 & E2 & Es).
  unfold dot. cbn. subst c1 c2.
  pose proof (Rle_0_sqr (c0 - 1)). pose proof (Rle_0_sqr (c3 - 1)).
  pose proof (Rle_0_sqr (c4 - 1)). pose proof (Rle_0_sqr (c5 - 1)).
  unfold Rsqr in *. nra.
Qed.

(** The least-squares solution of the documented three-column system is
    the plane [z = 4]. *)
Lemma least_squares_bilinear_spec (c : list R) :
  least_squares 3 (design_bilinear_spec ex_T ex_logP) ex_z c -> c = [4; 0; 0].
Proof.
  intros [Hlen Hmin].
  destruct (length3_inv c Hlen) as (a & b & d & ->).
  specialize (Hmin [4; 0; 0] eq_refl).
  unfold residual2, dot in Hmin. cbn in Hmin.
  assert (Hsq : (a + 200 * b - 4) * (a + 200 * b - 4)
                + (a + 230 * b - 4) * (a + 230 * b - 4)
                + (a + 200 * b + d - 4) * (a + 200 * b + d - 4)
                + (a + 230 * b + d - 4) * (a + 230 * b + d - 4) <= 0) by nra.
  apply sum4_sq_zero in Hsq. destruct Hsq as (E1 & E2 & E3 & E4).
  repeat f_equal; lra.
Qed.

Lemma sqrt_16 : sqrt 16 = 4.
Proof. replace 16 with (4 * 4) by ring. apply sqrt_square. lra. Qed.

(** C1: [fit_poly11] builds six columns, [1, x, y, 1, 1, 1], not the three
    columns [1, x, y].  On the example (which takes the bilinear branch) a
    least-norm least-squares solver returns 1 in each of the four columns
    of ones, and [fit_xsec_data] stores [p00 = 1], where the least-squares
    intercept of [z = p00 + p10*x + p01*y] is 4. *)
Theorem fit_poly11_intercept_quartered
  (lstsq : matrix -> vector -> lstsq_result) :
  lstsq_min_norm lstsq 6 ex_M6 ex_z ->
  exists r : fit_result,
    fit_xsec_data lstsq (map Fin ex_T) (map Fin ex_P) (map Fin ex_Xsec)
      default_min_deltaLogP default_min_deltaT = Some r
    /\ selected_model (map Fin ex_T) (map Fin ex_P) (map Fin ex_Xsec)
         default_min_deltaLogP default_min_deltaT = Some Poly11
    /\ design_poly11 (map Fin ex_T) (map Fin ex_logP) = map (map Fin) ex_M6
    /\ coefficients r = [Fin 1; Fin 0; Fin 0; Fin 0; Fin 0; Fin 0]
    /\ forall c : list R,
         least_squares 3 (design_bilinear_spec ex_T ex_logP) ex_z c ->
         c = [4; 0; 0].
Proof.
  intros (c & Hpoly & Hmin).
  apply min_norm_ex_M6_unique in Hmin. subst c.
  assert (HL : map flog10 (map Fin ex_P) = map Fin ex_logP).
  { unfold ex_P, ex_logP. cbn [map]. rewrite !flog10_fin by lra.
    rewrite log10R_1, log10R_10. reflexivity. }
  assert (HS : map fsqrt (map Fin ex_Xsec) = map Fin ex_z).
  { unfold ex_Xsec, ex_z, fsqrt. cbn [map]. decide_R.
    rewrite sqrt_16. reflexivity. }
  assert (Hxmax : py_max (map Fin ex_T) = Some (Fin 230)).
  { unfold ex_T, py_max, fgt, flt, Rltb. cbn. decide_R. reflexivity. }
  assert (Hxmin : py_min (map Fin ex_T) = Some (Fin 200)).
  { unfold ex_T, py_min, flt, Rltb. cbn. decide_R. reflexivity. }
  assert (Hymax : py_max (map Fin ex_logP) = Some (Fin 1)).
  { unfold ex_logP, py_max, fgt, flt, Rltb. cbn. decide_R. reflexivity. }
  assert (Hymin : py_min (map Fin ex_logP) = Some (Fin 0)).
  { unfold ex_logP, py_min, flt, Rltb. cbn. decide_R. reflexivity. }
  assert (HPmax : exists v, py_max (map fexp10 (map Fin ex_logP)) = Some v).
  { eexists. reflexivity. }
  assert (HPmin : exists v, py_min (map fexp10 (map Fin ex_logP)) = Some v).
  { eexists. reflexivity. }
  destruct HPmax as [vmax HPmax]. destruct HPmin as [vmin HPmin].
  assert (Hc1 : fge (fsub (Fin 1) (Fin 0)) default_min_deltaLogP = true).
  { unfold default_min_deltaLogP. eval_R. reflexivity. }
  assert (Hc3 : fgt (fsub (Fin 230) (Fin 200)) default_min_deltaT = true).
  { unfold default_min_deltaT. eval_R. reflexivity. }
  unfold fit_xsec_data, selected_model. rewrite HL, HS.
  rewrite logic_bad_eq by reflexivity. cbn [bind].
  change (bad_mask (map Fin ex_T) (map Fin ex_logP) (map Fin ex_z))
    with (repeat false 4).
  change (count_true (repeat false 4) <? List.length (map Fin ex_T))%nat
    with true.
  cbv iota.
  change (compress (map negb (repeat false 4)) (map Fin ex_T))
    with (map Fin ex_T).
  change (compress (map negb (repeat false 4)) (map Fin ex_logP))
    with (map Fin ex_logP).
  change (compress (map negb (repeat false 4)) (map Fin ex_z))
    with (map Fin ex_z).
  change (count_true (map negb (repeat false 4))) with 4%nat.
  unfold spread, select_model.
  rewrite Hxmax, Hxmin, Hymax, Hymin, HPmax, HPmin. cbn [bind].
  rewrite Hc1, Hc3. cbn [andb Nat.ltb Nat.leb].
  unfold fit_poly11. rewrite design_poly11_example, Hpoly.
  cbn [map nth_error bind].
  eexists. repeat split; try reflexivity.
  apply least_squares_bilinear_spec.
Qed.

End BilinearFit.

Lemma fit_poly11_intercept_quartered_witness :
  lstsq_min_norm ex_solver 6 ex_M6 ex_z
  /\ exists r : fit_result,
       fit_xsec_data ex_solver (map Fin ex_T) (map Fin ex_P)
         (map Fin ex_Xsec) default_min_deltaLogP default_min_deltaT = Some r
       /\ coefficients r = [Fin 1; Fin 0; Fin 0; Fin 0; Fin 0; Fin 0].
Proof.
  assert (H : lstsq_min_norm ex_solver 6 ex_M6 ex_z).
  { exists [1; 0; 0; 1; 1; 1]%R. split; [reflexivity |].
    exact min_norm_ex_M6_ones. }
  split; [exact H |].
  destruct (@fit_poly11_intercept_quartered ex_solver H)
    as (r & Hfit & _ & _ & Hc & _).
  exists r. auto.
Defined.

(** * The assembler *)

Section AssemblerFacts.

Lemma map6_length (f : float64 -> float64 -> float64 -> float64 -> float64 ->
                       float64 -> float64)
  (n : nat) (r0 r1 r2 r3 r4 r5 : vector) :
  List.length r0 = n -> List.length r1 = n -> List.length r2 = n ->
  List.length r3 = n -> List.length r4 = n -> List.length r5 = n ->
  List.length (map6 f r0 r1 r2 r3 r4 r5) = n.
Proof.
  revert r0 r1 r2 r3 r4 r5.
  induction n as [| n IH];
    intros [| a0 r0] [| a1 r1] [| a2 r2] [| a3 r3] [| a4 r4] [| a5 r5];
    cbn; intros H0 H1 H2 H3 H4 H5; try discriminate; [reflexivity |].
  f_equal. apply IH; congruence.
Qed.

Lemma vadd_length (a b : vector) (n : nat) :
  List.length a = n -> List.length b = n -> List.length (vadd a b) = n.
Proof. intros Ha Hb. unfold vadd. rewrite map2_length; congruence. Qed.

Lemma vscale_length (a : vector) (k : float64) :
  List.length (vscale a k) = List.length a.
Proof. unfold vscale. apply length_map. Qed.

Lemma calculate_xsec_rows (T P : float64) (n : nat)
  (r0 r1 r2 r3 r4 r5 : vector) :
  List.length r0 = n -> List.length r1 = n -> List.length r2 = n ->
  List.length r3 = n -> List.length r4 = n -> List.length r5 = n ->
  exists v : vector,
    calculate_xsec T P [r0; r1; r2; r3; r4; r5] = Some v
    /\ List.length v = n.
Proof.
  intros H0 H1 H2 H3 H4 H5. unfold calculate_xsec.
  cbn [seq fold_left nth_error bind zeros_like map set_row].
  eexists. split; [reflexivity |].
  unfold vsqr, sum_axis0. cbn [fold_left hd]. rewrite length_map.
  repeat apply vadd_length;
    rewrite ?vscale_length; try assumption.
  unfold zeros. rewrite repeat_length, ?vscale_length. assumption.
Qed.

Lemma xsec_derivative_rows (T P : float64) (n : nat)
  (r0 r1 r2 r3 r4 r5 : vector) :
  List.length r0 = n -> List.length r1 = n -> List.length r2 = n ->
  List.length r3 = n -> List.length r4 = n -> List.length r5 = n ->
  exists dT dP : vector,
    xsec_derivative T P [r0; r1; r2; r3; r4; r5] = Some (dT, dP)
    /\ List.length dT = n /\ List.length dP = n.
Proof.
  intros H0 H1 H2 H3 H4 H5. unfold xsec_derivative.
  cbn [nth_error bind]. do 2 eexists. split; [reflexivity |].
  split; apply map6_length; assumption.
Qed.

Lemma calculate_xsec_fullmodel_rows (T P minT maxT minP maxP : float64)
  (n : nat) (r0 r1 r2 r3 r4 r5 : vector) :
  List.length r0 = n -> List.length r1 = n -> List.length r2 = n ->
  List.length r3 = n -> List.length r4 = n -> List.length r5 = n ->
  exists v : vector,
    calculate_xsec_fullmodel T P [r0; r1; r2; r3; r4; r5]
      minT maxT minP maxP = Some v
    /\ List.length v = n.
Proof.
  intros H0 H1 H2 H3 H4 H5. unfold calculate_xsec_fullmodel.
  destruct (flt P minP || fgt P maxP || flt T minT || fgt T maxT).
  - set (P0 := if flt P minP then minP else if fgt P maxP then maxP else P).
    set (T0 := if flt T minT then minT else if fgt T maxT then maxT else T).
    destruct (@calculate_xsec_rows T0 P0 n r0 r1 r2 r3 r4 r5)
      as (v & -> & Hv); try assumption.
    destruct (@xsec_derivative_rows T0 P0 n r0 r1 r2 r3 r4 r5)
      as (dT & dP & -> & HdT & HdP); try assumption.
    cbn [bind]. eexists. split; [reflexivity |].
    repeat apply vadd_length; rewrite ?vscale_length; assumption.
  - apply calculate_xsec_rows; assumption.
Qed.

Lemma transpose_rows (D : matrix) :
  D <> [] -> Forall (fun row => List.length row = 6%nat) D ->
  exists r0 r1 r2 r3 r4 r5 : vector,
    transpose D = [r0; r1; r2; r3; r4; r5]
    /\ List.length r0 = List.length D /\ List.length r1 = List.length D
    /\ List.length r2 = List.length D /\ List.length r3 = List.length D
    /\ List.length r4 = List.length D /\ List.length r5 = List.length D.
Proof.
  intros HD Hrows. destruct D as [| d D]; [contradiction |].
  inversion Hrows as [| ? ? Hd _]; subst.
  unfold transpose. cbn [hd]. rewrite Hd. cbn [seq map].
  do 6 eexists. split; [reflexivity |].
  cbn [List.length]. rewrite !length_map. tauto.
Qed.

Lemma interp1d_some (x y : vector) (fill : float64) :
  List.length x = List.length y -> x <> [] ->
  exists (f : float64 -> float64) (x_first : float64),
    interp1d x y fill = Some f
    /\ hd_error x = Some x_first
    /\ forall x_new : float64,
         f x_new = if flt x_new x_first || fgt x_new (last x x_first)
                   then fill
                   else if isnan x_new then NaN
                   else interp_linear x y x_new.
Proof.
  intros Hlen Hx. unfold interp1d. rewrite Hlen, Nat.eqb_refl.
  destruct x as [| x0 x]; [contradiction |].
  cbn [hd_error bind]. do 2 eexists.
  split; [reflexivity |]. split; reflexivity.
Qed.

Lemma nth_error_lt_some (A : Type) (l : list A) (m : nat) :
  (m < List.length l)%nat -> exists a, nth_error l m = Some a.
Proof.
  intros H. destruct (nth_error l m) as [a |] eqn:E; [eauto |].
  apply nth_error_None in E. lia.
Qed.

Lemma contribution_total (wvn : vector) (xsec_data : XsecRecord)
  (T P : float64) (m : nat) :
  wf_record xsec_data ->
  (m < List.length (fitcoeffs xsec_data))%nat ->
  exists (band : GriddedField2) (xm : vector),
    nth_error (fitcoeffs xsec_data) m = Some band
    /\ contribution wvn xsec_data T P m = Some xm
    /\ List.length xm = List.length wvn
    /\ forall (j : nat) (w : float64),
         nth_error wvn j = Some w ->
         outside_band band (freq_of_wvn w) ->
         nth_error xm j = Some (Fin 0).
Proof.
  intros (Hbands & HminP & HmaxP & HminT & HmaxT) Hm.
  destruct (@nth_error_lt_some _ (fitcoeffs xsec_data) m Hm) as [band Eb].
  destruct (@nth_error_lt_some _ (fitminpressures xsec_data) m) as [a1 E1];
    [lia |].
  destruct (@nth_error_lt_some _ (fitmaxpressures xsec_data) m) as [a2 E2];
    [lia |].
  destruct (@nth_error_lt_some _ (fitmintemperatures xsec_data) m)
    as [a3 E3]; [lia |].
  destruct (@nth_error_lt_some _ (fitmaxtemperatures xsec_data) m)
    as [a4 E4]; [lia |].
  assert (Hwf : wf_band band).
  { rewrite Forall_forall in Hbands. apply Hbands.
    apply nth_error_In with (n := m). exact Eb. }
  destruct Hwf as (Hne & Hrows & Hgrid & _).
  destruct (transpose_rows Hne Hrows)
    as (r0 & r1 & r2 & r3 & r4 & r5 & Etr & L0 & L1 & L2 & L3 & L4 & L5).
  destruct (@calculate_xsec_fullmodel_rows T P a3 a4 a1 a2
              (List.length (data_data band)) r0 r1 r2 r3 r4 r5)
    as (v & Ev & Lv); try assumption.
  destruct (@interp1d_some (grids0_data band) v (Fin 0))
    as (f & x_first & Ef & Ehd & Hf).
  { congruence. }
  { intros E. rewrite E in Hgrid. cbn in Hgrid.
    destruct (data_data band); [contradiction | discriminate]. }
  exists band, (map f (vscale (vscale wvn c0) (Fin 100))).
  split; [exact Eb |]. split; [| split].
  - unfold contribution. rewrite Eb, E1, E2, E3, E4. cbn [bind].
    rewrite Etr, Ev. cbn [bind]. rewrite Ef. reflexivity.
  - rewrite length_map, !vscale_length. reflexivity.
  - intros j w Hw (x1 & Ehd' & Hout).
    rewrite Ehd in Ehd'. injection Ehd' as <-.
    unfold vscale. rewrite !nth_error_map, Hw. cbn [option_map].
    f_equal. rewrite Hf. unfold freq_of_wvn in Hout.
    destruct Hout as [-> | ->]; [reflexivity | rewrite orb_true_r; reflexivity].
Qed.

Lemma loop_body_eq (wvn : vector) (xsec_data : XsecRecord) (T P : float64)
  (acc : option vector) (m : nat) :
  (xsec_user <- acc ;;
   band <- nth_error (fitcoeffs xsec_data) m ;;
   MinP <- nth_error (fitminpressures xsec_data) m ;;
   MaxP <- nth_error (fitmaxpressures xsec_data) m ;;
   MinT <- nth_error (fitmintemperatures xsec_data) m ;;
   MaxT <- nth_error (fitmaxtemperatures xsec_data) m ;;
   xsec_temp <- calculate_xsec_fullmodel T P (transpose (data_data band))
                  MinT MaxT MinP MaxP ;;
   f_int <- interp1d (grids0_data band) xsec_temp (Fin 0) ;;
   Some (vadd xsec_user
           (map f_int (vscale (vscale wvn c0) (Fin 100)))))
  = (xsec_user <- acc ;;
     xm <- contribution wvn xsec_data T P m ;;
     Some (vadd xsec_user xm)).
Proof.
  unfold contribution. destruct acc as [xsec_user |]; [| reflexivity].
  cbn [bind].
  destruct (nth_error (fitcoeffs xsec_data) m) as [band |]; [| reflexivity].
  destruct (nth_error (fitminpressures xsec_data) m) as [MinP |];
    [| reflexivity].
  destruct (nth_error (fitmaxpressures xsec_data) m) as [MaxP |];
    [| reflexivity].
  destruct (nth_error (fitmintemperatures xsec_data) m) as [MinT |];
    [| reflexivity].
  destruct (nth_error (fitmaxtemperatures xsec_data) m) as [MaxT |];
    [| reflexivity].
  cbn [bind].
  destruct (calculate_xsec_fullmodel T P (transpose (data_data band))
              MinT MaxT MinP MaxP) as [v |]; [| reflexivity].
  cbn [bind].
  destruct (interp1d (grids0_data band) v (Fin 0)); reflexivity.
Qed.

Lemma fold_left_ext_eq (A B : Type) (f g : A -> B -> A) (l : list B) (a : A) :
  (forall a x, f a x = g a x) -> fold_left f l a = fold_left g l a.
Proof.
  intros H. revert a. induction l as [| x l IH]; intros a; cbn;
    [reflexivity |].
  rewrite H. apply IH.
Qed.

Lemma firstn_S_nth_error (A : Type) (l : list A) (k : nat) (a : A) :
  nth_error l k = Some a -> firstn (S k) l = firstn k l ++ [a].
Proof.
  revert l. induction k as [| k IH]; intros [| x l] H; cbn in *;
    try discriminate.
  - injection H as ->. reflexivity.
  - f_equal. apply IH, H.
Qed.

Lemma fold_contributions (contrib : nat -> option vector) (cs : list vector)
  (z : vector) (k : nat) :
  (forall m, (m < k)%nat -> exists xm,
        contrib m = Some xm /\ nth_error cs m = Some xm) ->
  fold_left (fun acc m => xsec_user <- acc ;; xm <- contrib m ;;
                          Some (vadd xsec_user xm))
    (seq 0 k) (Some z)
  = Some (fold_left vadd (firstn k cs) z).
Proof.
  induction k as [| k IH]; intros Hcs; [reflexivity |].
  rewrite seq_S, fold_left_app, IH by (intros m Hm; apply Hcs; lia).
  cbn [fold_left bind Nat.add].
  destruct (Hcs k) as (xm & -> & Enth); [lia |].
  cbn [bind]. rewrite (firstn_S_nth_error _ _ Enth), fold_left_app.
  reflexivity.
Qed.

Lemma nth_error_map2 (A B C : Type) (f : A -> B -> C)
  (a : list A) (b : list B) (j : nat) (x : A) (y : B) :
  nth_error a j = Some x -> nth_error b j = Some y ->
  nth_error (map2 f a b) j = Some (f x y).
Proof.
  revert a b. induction j as [| j IH]; intros [| x' a] [| y' b] Ha Hb;
    cbn in *; try discriminate.
  - congruence.
  - apply IH; assumption.
Qed.

Lemma nth_error_fold_vadd (cs : list vector) (z : vector) (j : nat)
  (z0 : float64) :
  nth_error z j = Some z0 ->
  Forall (fun xm => (j < List.length xm)%nat) cs ->
  nth_error (fold_left vadd cs z) j
  = Some (fold_left fadd (map (fun xm => nth j xm NaN) cs) z0).
Proof.
  revert z z0. induction cs as [| xm cs IH]; intros z z0 Hz Hall; cbn.
  - exact Hz.
  - inversion Hall as [| ? ? Hxm Hall']; subst.
    apply IH; [| exact Hall'].
    destruct (@nth_error_lt_some _ xm j Hxm) as [v Ev].
    rewrite (nth_error_nth _ _ NaN Ev).
    unfold vadd. apply nth_error_map2; assumption.
Qed.

(** ** Linear interpolation inside a band *)

Lemma flt_below_segment (x1 : float64) (a fr : R) :
  x1 = Fin a \/ flt x1 (Fin a) = true -> (a <= fr)%R ->
  flt (Fin fr) x1 = false.
Proof.
  intros [-> | H] Hle.
  - cbn. apply Rltb_false. lra.
  - destruct x1 as [r | | |]; cbn in *; try reflexivity; try discriminate.
    unfold Rltb in *. destruct (Rlt_dec r a); [| discriminate].
    destruct (Rlt_dec fr r); [lra | reflexivity].
Qed.

Lemma flt_above_segment (x1 : float64) (b fr : R) :
  x1 = Fin b \/ flt (Fin b) x1 = true -> (fr < b)%R ->
  flt x1 (Fin fr) = false.
Proof.
  intros [-> | H] Hlt.
  - cbn. apply Rltb_false. lra.
  - destruct x1 as [r | | |]; cbn in *; try reflexivity; try discriminate.
    unfold Rltb in *. destruct (Rlt_dec b r); [| discriminate].
    destruct (Rlt_dec r fr); [lra | reflexivity].
Qed.

Lemma sorted_hd_le (x : vector) (x0 a : float64) (k : nat) :
  StronglySorted (fun p q => flt p q = true) (x0 :: x) ->
  nth_error (x0 :: x) k = Some a ->
  x0 = a \/ flt x0 a = true.
Proof.
  intros Hs Hk. destruct k as [| k].
  - left. cbn in Hk. congruence.
  - right. inversion Hs as [| ? ? _ Hall]; subst.
    rewrite Forall_forall in Hall. apply Hall.
    apply nth_error_In with (n := k). exact Hk.
Qed.

Lemma sorted_le_last (x : vector) (b d : float64) (k : nat) :
  StronglySorted (fun p q => flt p q = true) x ->
  nth_error x k = Some b ->
  last x d = b \/ flt b (last x d) = true.
Proof.
  revert k. induction x as [| x0 x IH]; intros k Hs Hk.
  - destruct k; discriminate Hk.
  - inversion Hs as [| ? ? Hs' Hall]; subst.
    destruct x as [| x1 x].
    + destruct k as [| k]; [| destruct k; discriminate Hk].
      left. cbn in *. congruence.
    + change (last (x0 :: x1 :: x) d) with (last (x1 :: x) d).
      destruct k as [| k].
      * right. cbn in Hk. injection Hk as <-.
        rewrite Forall_forall in Hall. apply Hall.
        assert (Hne : x1 :: x <> []) by discriminate.
        destruct (exists_last Hne) as (l' & z & E).
        rewrite E, last_last. apply in_or_app. right. left. reflexivity.
      * apply (IH k Hs'). exact Hk.
Qed.

Lemma interp_linear_cons (x0 x1 y0 y1 : float64) (x y : vector)
  (f : float64) :
  interp_linear (x0 :: x1 :: x) (y0 :: y1 :: y) f
  = if flt f x1 then
      if feqb x0 f then y0
      else fadd (fmul (fdiv (fsub y1 y0) (fsub x1 x0)) (fsub f x0)) y0
    else interp_linear (x1 :: x) (y1 :: y) f.
Proof. reflexivity. Qed.

Lemma interp_linear_segment (x y : vector) (k : nat) (a b u v fr : R) :
  StronglySorted (fun p q => flt p q = true) x ->
  nth_error x k = Some (Fin a) -> nth_error x (S k) = Some (Fin b) ->
  nth_error y k = Some (Fin u) -> nth_error y (S k) = Some (Fin v) ->
  (a <= fr < b)%R ->
  interp_linear x y (Fin fr)
  = Fin (u + (v - u) / (b - a) * (fr - a)).
Proof.
  revert x y. induction k as [| k IH]; intros x y Hs Ha Hb Hu Hv Hfr.
  - destruct x as [| x0 [| x1 x]]; try discriminate.
    destruct y as [| y0 [| y1 y]]; try discriminate.
    cbn in Ha, Hb, Hu, Hv.
    injection Ha as ->. injection Hb as ->.
    injection Hu as ->. injection Hv as ->.
    rewrite interp_linear_cons. cbn [flt feqb].
    rewrite Rltb_true by lra.
    unfold Reqb. destruct (Req_dec_T a fr) as [E | E].
    + f_equal. subst fr. field. lra.
    + cbn [fsub fopp fadd fdiv fmul].
      destruct (Req_dec_T (b + - a) 0) as [E' | _]; [lra |].
      cbn [fmul fadd]. f_equal. field. lra.
  - destruct x as [| x0 [| x1 x]]; try discriminate;
      try (destruct k; discriminate).
    destruct y as [| y0 [| y1 y]]; try discriminate;
      try (destruct k; discriminate).
    rewrite interp_linear_cons.
    inversion Hs as [| ? ? Hs' _]; subst.
    change (nth_error (x1 :: x) k = Some (Fin a)) in Ha.
    change (nth_error (x1 :: x) (S k) = Some (Fin b)) in Hb.
    change (nth_error (y1 :: y) k = Some (Fin u)) in Hu.
    change (nth_error (y1 :: y) (S k) = Some (Fin v)) in Hv.
    rewrite (@flt_below_segment x1 a fr (@sorted_hd_le _ _ _ _ Hs' Ha)) by lra.
    apply IH; assumption.
Qed.

Lemma nth_error_nth_NaN (l : vector) (m : nat) (a : float64) :
  nth_error l m = Some a -> nth m l NaN = a.
Proof. intros H. apply nth_error_nth. exact H. Qed.

Lemma last_indep (A : Type) (l : list A) (d d' : A) :
  l <> [] -> last l d = last l d'.
Proof.
  induction l as [| a [| b l] IH]; intros H; [contradiction | reflexivity |].
  change (last (b :: l) d = last (b :: l) d'). apply IH. discriminate.
Qed.

Lemma interp_linear_last (x y : vector) (fr : R) (d : float64) :
  StronglySorted (fun p q => flt p q = true) x ->
  List.length x = List.length y -> x <> [] ->
  last x d = Fin fr ->
  interp_linear x y (Fin fr) = last y NaN.
Proof.
  revert y. induction x as [| x0 x IH]; intros y Hs Hlen Hne Hlast;
    [contradiction |].
  destruct y as [| y0 y]; [discriminate |].
  destruct x as [| x1 x].
  - destruct y as [| y1 y]; [reflexivity | discriminate].
  - destruct y as [| y1 y]; [discriminate |].
    rewrite interp_linear_cons.
    inversion Hs as [| ? ? Hs' _]; subst.
    change (last (x1 :: x) d = Fin fr) in Hlast.
    assert (H1 : x1 = Fin fr \/ flt x1 (Fin fr) = true).
    { destruct (@sorted_le_last (x1 :: x) x1 d 0 Hs' eq_refl) as [E | E];
        rewrite Hlast in E; [left; symmetry; exact E | right; exact E]. }
    rewrite (@flt_below_segment x1 fr fr H1) by lra.
    change (last (y0 :: y1 :: y) NaN) with (last (y1 :: y) NaN).
    apply (IH (y1 :: y) Hs'); [cbn in *; lia | discriminate | exact Hlast].
Qed.

Lemma contribution_inside (wvn : vector) (xsec_data : XsecRecord)
  (T P : float64) (m : nat) :
  wf_record xsec_data ->
  (m < List.length (fitcoeffs xsec_data))%nat ->
  exists (band : GriddedField2) (xm ym : vector),
    nth_error (fitcoeffs xsec_data) m = Some band
    /\ contribution wvn xsec_data T P m = Some xm
    /\ calculate_xsec_fullmodel T P (transpose (data_data band))
         (nth m (fitmintemperatures xsec_data) NaN)
         (nth m (fitmaxtemperatures xsec_data) NaN)
         (nth m (fitminpressures xsec_data) NaN)
         (nth m (fitmaxpressures xsec_data) NaN) = Some ym
    /\ List.length ym = List.length (grids0_data band)
    /\ (forall (j k : nat) (w a b u v : R),
          Forall is_fin ym ->
          nth_error wvn j = Some (Fin w) ->
          nth_error (grids0_data band) k = Some (Fin a) ->
          nth_error (grids0_data band) (S k) = Some (Fin b) ->
          nth_error ym k = Some (Fin u) ->
          nth_error ym (S k) = Some (Fin v) ->
          (a <= w * 299792458 * 100 < b)%R ->
          nth_error xm j
          = Some (Fin (u + (v - u) / (b - a) * (w * 299792458 * 100 - a))))
    /\ (forall (j : nat) (w v : R),
          Forall is_fin ym ->
          nth_error wvn j = Some (Fin w) ->
          last (grids0_data band) NaN = Fin (w * 299792458 * 100) ->
          last ym NaN = Fin v ->
          nth_error xm j = Some (Fin v)).
Proof.
  intros (Hbands & HminP & HmaxP & HminT & HmaxT) Hm.
  destruct (@nth_error_lt_some _ (fitcoeffs xsec_data) m Hm) as [band Eb].
  destruct (@nth_error_lt_some _ (fitminpressures xsec_data) m) as [a1 E1];
    [lia |].
  destruct (@nth_error_lt_some _ (fitmaxpressures xsec_data) m) as [a2 E2];
    [lia |].
  destruct (@nth_error_lt_some _ (fitmintemperatures xsec_data) m)
    as [a3 E3]; [lia |].
  destruct (@nth_error_lt_some _ (fitmaxtemperatures xsec_data) m)
    as [a4 E4]; [lia |].
  assert (Hwf : wf_band band).
  { rewrite Forall_forall in Hbands. apply Hbands.
    apply nth_error_In with (n := m). exact Eb. }
  destruct Hwf as (Hne & Hrows & Hgrid & Hsorted).
  destruct (transpose_rows Hne Hrows)
    as (r0 & r1 & r2 & r3 & r4 & r5 & Etr & L0 & L1 & L2 & L3 & L4 & L5).
  destruct (@calculate_xsec_fullmodel_rows T P a3 a4 a1 a2
              (List.length (data_data band)) r0 r1 r2 r3 r4 r5)
    as (ym & Ev & Lv); try assumption.
  destruct (@interp1d_some (grids0_data band) ym (Fin 0))
    as (f & x_first & Ef & Ehd & Hf).
  { congruence. }
  { intros E. rewrite E in Hgrid. cbn in Hgrid.
    destruct (data_data band); [contradiction | discriminate]. }
  exists band, (map f (vscale (vscale wvn c0) (Fin 100))), ym.
  split; [exact Eb |]. split; [| split; [| split; [| split]]].
  - unfold contribution. rewrite Eb, E1, E2, E3, E4. cbn [bind].
    rewrite Etr, Ev. cbn [bind]. rewrite Ef. reflexivity.
  - rewrite (nth_error_nth_NaN _ _ E1), (nth_error_nth_NaN _ _ E2),
      (nth_error_nth_NaN _ _ E3), (nth_error_nth_NaN _ _ E4), Etr.
    exact Ev.
  - congruence.
  - intros j k w a b u v _ Hw Ha Hb Hu Hv Hfr.
    unfold vscale. rewrite !nth_error_map, Hw. cbn [option_map].
    f_equal. rewrite Hf.
    change (fmul (fmul (Fin w) c0) (Fin 100))
      with (Fin (w * 299792458 * 100)).
    destruct (grids0_data band) as [| g0 g] eqn:Eg; [discriminate Ehd |].
    cbn in Ehd. injection Ehd as <-.
    rewrite (@flt_below_segment g0 a _ (@sorted_hd_le _ _ _ _ Hsorted Ha)) by lra.
    unfold fgt.
    rewrite (@flt_above_segment (last (g0 :: g) g0) b _
               (@sorted_le_last _ _ g0 _ Hsorted Hb)) by lra.
    cbn [orb isnan].
    apply interp_linear_segment with (k := k); assumption.
  - intros j w v _ Hw Hlast Hv.
    unfold vscale. rewrite !nth_error_map, Hw. cbn [option_map].
    f_equal. rewrite Hf.
    change (fmul (fmul (Fin w) c0) (Fin 100))
      with (Fin (w * 299792458 * 100)).
    destruct (grids0_data band) as [| g0 g] eqn:Eg; [discriminate Ehd |].
    cbn in Ehd. injection Ehd as <-.
    assert (Hlast' : last (g0 :: g) g0 = Fin (w * 299792458 * 100)).
    { rewrite (@last_indep _ (g0 :: g) g0 NaN) by discriminate.
      exact Hlast. }
    assert (H0 : g0 = Fin (w * 299792458 * 100)
                 \/ flt g0 (Fin (w * 299792458 * 100)) = true).
    { destruct (@sorted_le_last (g0 :: g) g0 g0 0 Hsorted eq_refl)
        as [E | E]; rewrite Hlast' in E;
        [left; symmetry; exact E | right; exact E]. }
    rewrite (@flt_below_segment g0 _ _ H0) by lra.
    rewrite Hlast'. unfold fgt. cbn [flt].
    rewrite Rltb_false by lra. cbn [orb isnan].
    rewrite (@interp_linear_last (g0 :: g) ym _ g0 Hsorted)
      by (try congruence; try discriminate; exact Hlast').
    exact Hv.
Qed.

(** C8: the output of [calculate_cross_sections] is the sum, started from
    zeros, of the contributions of the bands; so at every target point the
    output is the sum of the values of the bands there (overlapping bands
    add).  A band whose grid does not contain the frequency
    [wvn * c0 * 100] of a target point contributes exactly 0 to that point;
    at a target frequency [f] between two neighbouring points [a <= f < b]
    of its grid a band contributes the value on the line through the values
    [u] and [v] that [calculate_xsec_fullmodel] returns for the band at [a]
    and [b], which is [u + (v - u) / (b - a) * (f - a)], and at the last
    point of its grid the last of these values (the values of the band
    being finite). *)
Theorem calculate_cross_sections_superposition
  (wvn : vector) (xsec_data : XsecRecord) (T P : float64) :
  wf_record xsec_data ->
  exists cs : list vector,
    List.length cs = List.length (fitcoeffs xsec_data)
    /\ (forall m : nat,
          (m < List.length (fitcoeffs xsec_data))%nat ->
          contribution wvn xsec_data T P m = nth_error cs m)
    /\ calculate_cross_sections wvn xsec_data T P
       = Some (fold_left vadd cs (zeros (List.length wvn)))
    /\ (forall (j : nat) (w : float64),
          nth_error wvn j = Some w ->
          nth_error (fold_left vadd cs (zeros (List.length wvn))) j
          = Some (fold_left fadd (map (fun xm => nth j xm NaN) cs) (Fin 0)))
    /\ (forall (m j : nat) (band : GriddedField2) (xm : vector)
               (w : float64),
          nth_error (fitcoeffs xsec_data) m = Some band ->
          nth_error cs m = Some xm ->
          nth_error wvn j = Some w ->
          outside_band band (freq_of_wvn w) ->
          nth_error xm j = Some (Fin 0))
    /\ (forall m : nat,
          (m < List.length (fitcoeffs xsec_data))%nat ->
          exists (band : GriddedField2) (ym : vector),
            nth_error (fitcoeffs xsec_data) m = Some band
            /\ calculate_xsec_fullmodel T P (transpose (data_data band))
                 (nth m (fitmintemperatures xsec_data) NaN)
                 (nth m (fitmaxtemperatures xsec_data) NaN)
                 (nth m (fitminpressures xsec_data) NaN)
                 (nth m (fitmaxpressures xsec_data) NaN) = Some ym
            /\ List.length ym = List.length (grids0_data band)
            /\ (forall (xm : vector) (j k : nat) (w a b u v : R),
                  nth_error cs m = Some xm ->
                  Forall is_fin ym ->
                  nth_error wvn j = Some (Fin w) ->
                  nth_error (grids0_data band) k = Some (Fin a) ->
                  nth_error (grids0_data band) (S k) = Some (Fin b) ->
                  nth_error ym k = Some (Fin u) ->
                  nth_error ym (S k) = Some (Fin v) ->
                  (a <= w * 299792458 * 100 < b)%R ->
                  nth_error xm j
                  = Some (Fin (u + (v - u) / (b - a)
                                   * (w * 299792458 * 100 - a))))
            /\ (forall (xm : vector) (j : nat) (w v : R),
                  nth_error cs m = Some xm ->
                  Forall is_fin ym ->
                  nth_error wvn j = Some (Fin w) ->
                  last (grids0_data band) NaN
                  = Fin (w * 299792458 * 100) ->
                  last ym NaN = Fin v ->
                  nth_error xm j = Some (Fin v)))
    /\ c0 = Fin 299792458.
Proof.
  intros Hwf.
  remember (List.length (fitcoeffs xsec_data)) as N eqn:HN.
  remember (fun m => match contribution wvn xsec_data T P m with
                     | Some xm => xm
                     | None => []
                     end) as pick eqn:Hpick.
  exists (map pick (seq 0 N)).
  assert (Hnth : forall m, (m < N)%nat ->
            exists band xm,
              nth_error (fitcoeffs xsec_data) m = Some band
              /\ contribution wvn xsec_data T P m = Some xm
              /\ nth_error (map pick (seq 0 N)) m = Some xm
              /\ List.length xm = List.length wvn
              /\ forall (j : nat) (w : float64),
                   nth_error wvn j = Some w ->
                   outside_band band (freq_of_wvn w) ->
                   nth_error xm j = Some (Fin 0)).
  { intros m Hm.
    destruct (@contribution_total wvn xsec_data T P m Hwf)
      as (band & xm & Eb & Ec & Hlen & Hzero); [rewrite <- HN; exact Hm |].
    exists band, xm. repeat split; try assumption.
    rewrite nth_error_map, nth_error_seq.
    apply Nat.ltb_lt in Hm. rewrite Hm. cbn [option_map Nat.add].
    rewrite Hpick, Ec. reflexivity. }
  split; [rewrite length_map, length_seq; reflexivity |].
  split; [| split; [| split; [| split; [| split; [| reflexivity]]]]].
  - intros m Hm. destruct (Hnth m Hm) as (_ & xm & _ & -> & -> & _).
    reflexivity.
  - unfold calculate_cross_sections. rewrite <- HN.
    rewrite fold_left_ext_eq
      with (g := fun acc m =>
                   xsec_user <- acc ;;
                   xm <- contribution wvn xsec_data T P m ;;
                   Some (vadd xsec_user xm))
      by (intros acc m; apply loop_body_eq).
    rewrite fold_contributions with (cs := map pick (seq 0 N)).
    + rewrite firstn_all2; [reflexivity |].
      rewrite length_map, length_seq. lia.
    + intros m Hm. destruct (Hnth m Hm) as (_ & xm & _ & Ec & En & _).
      exists xm. auto.
  - intros j w Hw.
    assert (Hj : (j < List.length wvn)%nat).
    { apply nth_error_Some. rewrite Hw. discriminate. }
    apply nth_error_fold_vadd.
    + unfold zeros. rewrite nth_error_repeat by exact Hj. reflexivity.
    + apply Forall_forall. intros xm Hin.
      apply In_nth_error in Hin. destruct Hin as [m Em].
      assert (Hm : (m < N)%nat).
      { assert (H : nth_error (map pick (seq 0 N)) m <> None).
        { intros E. pose proof (eq_trans (eq_sym Em) E) as X.
          discriminate X. }
        apply nth_error_Some in H.
        rewrite length_map, length_seq in H. exact H. }
      destruct (Hnth m Hm) as (_ & xm' & _ & _ & En & Hlen & _).
      pose proof (eq_trans (eq_sym Em) En) as X. injection X as ->. lia.
  - intros m j band xm w Eb Exm Hw Hout.
    assert (Hm : (m < N)%nat).
    { rewrite HN. apply nth_error_Some. rewrite Eb. discriminate. }
    destruct (Hnth m Hm) as (band' & xm' & Eb' & _ & En & _ & Hzero).
    rewrite Eb in Eb'. injection Eb' as <-.
    rewrite Exm in En. injection En as <-.
    exact (Hzero j w Hw Hout).
  - intros m Hm.
    assert (Hm' : (m < List.length (fitcoeffs xsec_data))%nat)
      by (rewrite <- HN; exact Hm).
    destruct (@contribution_inside wvn xsec_data T P m Hwf Hm')
      as (band & xm & ym & Eb & Ec & Ey & Ly & Hin & Hend).
    exists band, ym. split; [exact Eb |]. split; [exact Ey |].
    split; [exact Ly |].
    destruct (Hnth m Hm) as (_ & xm'' & _ & Ec' & En & _).
    rewrite Ec in Ec'. injection Ec' as <-.
    split.
    + intros xm' j k w a b u v Exm.
      rewrite Exm in En. injection En as ->. apply Hin.
    + intros xm' j w v Exm.
      rewrite Exm in En. injection En as ->. apply Hend.
Qed.

End AssemblerFacts.

Lemma ex_record_wf : wf_record ex_record.
Proof.
  unfold wf_record, ex_record. cbn.
  repeat split; try reflexivity.
  repeat constructor; cbn; try discriminate;
    try (apply Rltb_true; lra).
Qed.

Lemma ex_record_band_values (p_lo p_hi : R) :
  calculate_xsec_fullmodel (Fin 250) (Fin 1000)
    (transpose [ [Fin p_lo; Fin 0; Fin 0; Fin 0; Fin 0; Fin 0];
                 [Fin p_hi; Fin 0; Fin 0; Fin 0; Fin 0; Fin 0] ])
    (Fin 200) (Fin 300) (Fin 100) (Fin 100000)
  = Some [Fin (p_lo * p_lo); Fin (p_hi * p_hi)].
Proof.
  unfold calculate_xsec_fullmodel.
  assert (Hin : (flt (Fin 1000) (Fin 100) || fgt (Fin 1000) (Fin 100000)
                 || flt (Fin 250) (Fin 200) || fgt (Fin 250) (Fin 300))
                = false).
  { unfold fgt. cbn [flt]. rewrite !Rltb_false by lra. reflexivity. }
  rewrite Hin.
  change (transpose [ [Fin p_lo; Fin 0; Fin 0; Fin 0; Fin 0; Fin 0];
                      [Fin p_hi; Fin 0; Fin 0; Fin 0; Fin 0; Fin 0] ])
    with (coeff_rows [Coeff6 p_lo 0 0 0 0 0; Coeff6 p_hi 0 0 0 0 0]).
  rewrite calculate_xsec_fin by lra. cbn [map]. unfold xsecR, zpoly.
  cbn [p00 p10 p01 p20 p11 p02].
  apply f_equal.
  apply f_equal2; [apply f_equal; ring |].
  apply f_equal2; [apply f_equal; ring | reflexivity].
Qed.

Lemma ex_record_outside (band : GriddedField2) :
  In band (fitcoeffs ex_record) ->
  outside_band band (freq_of_wvn (Fin 5)).
Proof.
  intros [<- | [<- | []]]; eexists; (split; [reflexivity |]); right;
    unfold freq_of_wvn, c0, fgt; cbn; apply Rltb_true; lra.
Qed.

Lemma calculate_cross_sections_superposition_witness :
  exists out : vector,
    calculate_cross_sections [Fin (3 / 2); Fin 5] ex_record
      (Fin 250) (Fin 1000) = Some out
    /\ nth_error out 0 = Some (Fin (19 / 2))
    /\ nth_error out 1 = Some (Fin 0).
Proof.
  destruct (@calculate_cross_sections_superposition [Fin (3 / 2); Fin 5]
              ex_record (Fin 250) (Fin 1000) ex_record_wf)
    as (cs & Hlen & _ & Hsum & Hpt & Hout & Hin & _).
  destruct cs as [| xm0 [| xm1 [| xm2 cs]]]; try discriminate Hlen.
  destruct (Hin 0%nat ltac:(cbn; lia))
    as (band0 & ym0 & Eb0 & Ey0 & _ & H0 & _).
  destruct (Hin 1%nat ltac:(cbn; lia))
    as (band1 & ym1 & Eb1 & Ey1 & _ & H1 & _).
  cbn in Eb0, Eb1. injection Eb0 as <-. injection Eb1 as <-.
  cbn [nth ex_record grids0_data data_data fitmintemperatures
       fitmaxtemperatures fitminpressures fitmaxpressures] in Ey0, Ey1.
  rewrite ex_record_band_values in Ey0, Ey1.
  injection Ey0 as <-. injection Ey1 as <-.
  assert (Hfin : forall u v : R, Forall is_fin [Fin u; Fin v])
    by (intros u v; repeat constructor).
  pose proof (H0 xm0 0%nat 0%nat (3 / 2)%R 29979245800%R 59958491600%R
                (1 * 1)%R (2 * 2)%R eq_refl (Hfin _ _) eq_refl eq_refl
                eq_refl eq_refl eq_refl ltac:(lra)) as V0.
  pose proof (H1 xm1 0%nat 0%nat (3 / 2)%R 29979245800%R 89937737400%R
                (3 * 3)%R (1 * 1)%R eq_refl (Hfin _ _) eq_refl eq_refl
                eq_refl eq_refl eq_refl ltac:(lra)) as V1.
  pose proof (Hout 0%nat 1%nat _ xm0 (Fin 5) eq_refl eq_refl eq_refl
                (@ex_record_outside _ (or_introl eq_refl))) as Z0.
  pose proof (Hout 1%nat 1%nat _ xm1 (Fin 5) eq_refl eq_refl eq_refl
                (@ex_record_outside _ (or_intror (or_introl eq_refl)))) as Z1.
  eexists. split; [exact Hsum |]. split.
  - rewrite (Hpt 0%nat (Fin (3 / 2)) eq_refl). cbn [map fold_left].
    rewrite (nth_error_nth _ _ NaN V0), (nth_error_nth _ _ NaN V1).
    cbn [fadd]. do 2 f_equal. field.
  - rewrite (Hpt 1%nat (Fin 5) eq_refl). cbn [map fold_left].
    rewrite (nth_error_nth _ _ NaN Z0), (nth_error_nth _ _ NaN Z1).
    cbn [fadd]. do 2 f_equal. lra.
Defined.


(** * Finite arrays, their minimum and maximum *)

Section FiniteArrays.

Local Open Scope R_scope.

Lemma fin_list (l : vector) :
  Forall is_fin l -> exists rs : list R, l = map Fin rs.
Proof.
  induction l as [| a l IH]; intros H.
  - exists []. reflexivity.
  - inversion H as [| ? ? Ha Hl]; subst.
    destruct (IH Hl) as [rs ->].
    destruct a as [r | | |]; try contradiction.
    exists (r :: rs). reflexivity.
Qed.

Lemma py_min_fin (r : R) (rs : list R) :
  py_min (map Fin (r :: rs)) = Some (Fin (fold_left Rmin rs r)).
Proof.
  cbn [map py_min]. f_equal. revert r.
  induction rs as [| a rs IH]; intros r; [reflexivity |].
  cbn [map fold_left].
  change (flt (Fin a) (Fin r)) with (Rltb a r). unfold Rltb.
  replace (if (if Rlt_dec a r then true else false) then Fin a else Fin r)
    with (Fin (Rmin r a)).
  - apply IH.
  - unfold Rmin. destruct (Rlt_dec a r), (Rle_dec r a);
      try reflexivity; f_equal; lra.
Qed.

Lemma py_max_fin (r : R) (rs : list R) :
  py_max (map Fin (r :: rs)) = Some (Fin (fold_left Rmax rs r)).
Proof.
  cbn [map py_max]. f_equal. revert r.
  induction rs as [| a rs IH]; intros r; [reflexivity |].
  cbn [map fold_left].
  change (fgt (Fin a) (Fin r)) with (Rltb r a). unfold Rltb.
  replace (if (if Rlt_dec r a then true else false) then Fin a else Fin r)
    with (Fin (Rmax r a)).
  - apply IH.
  - unfold Rmax. destruct (Rlt_dec r a), (Rle_dec r a);
      try reflexivity; f_equal; lra.
Qed.

Lemma fold_Rmin_le (rs : list R) (r : R) :
  fold_left Rmin rs r <= r
  /\ forall a, In a rs -> fold_left Rmin rs r <= a.
Proof.
  revert r. induction rs as [| b rs IH]; intros r; cbn.
  - split; [lra | contradiction].
  - destruct (IH (Rmin r b)) as [H1 H2].
    pose proof (Rmin_l r b). pose proof (Rmin_r r b).
    split; [lra |]. intros a [<- | Ha]; [lra | apply H2, Ha].
Qed.

Lemma fold_Rmax_ge (rs : list R) (r : R) :
  r <= fold_left Rmax rs r
  /\ forall a, In a rs -> a <= fold_left Rmax rs r.
Proof.
  revert r. induction rs as [| b rs IH]; intros r; cbn.
  - split; [lra | contradiction].
  - destruct (IH (Rmax r b)) as [H1 H2].
    pose proof (Rmax_l r b). pose proof (Rmax_r r b).
    split; [lra |]. intros a [<- | Ha]; [lra | apply H2, Ha].
Qed.

(** The minimum is one of the elements. *)
Lemma fold_Rmin_in (rs : list R) (r : R) :
  In (fold_left Rmin rs r) (r :: rs).
Proof.
  revert r. induction rs as [| b rs IH]; intros r; cbn.
  - left. reflexivity.
  - destruct (IH (Rmin r b)) as [E | Hin].
    + unfold Rmin in E at 1. destruct (Rle_dec r b); cbn in E; auto.
    + right. right. exact Hin.
Qed.

End FiniteArrays.

(** * The valid samples *)

Section ValidSamples.

Lemma valid_samples_fin (T L S : vector) :
  Forall is_fin (compress (map negb (bad_mask T L S)) T)
  /\ Forall is_fin (compress (map negb (bad_mask T L S)) L)
  /\ Forall is_fin (compress (map negb (bad_mask T L S)) S).
Proof.
  revert L S. induction T as [| t T IH]; intros [| l L] [| x S]; cbn;
    try (repeat split; constructor).
  destruct (IH L S) as (HT & HL & HS).
  destruct (sample_bad t l x) eqn:Eb; cbn; [auto |].
  assert (Hfin : is_fin t /\ is_fin l /\ is_fin x).
  { destruct t, l, x; cbn in Eb; try discriminate; cbn; auto. }
  destruct Hfin as (Ht & Hl & Hx).
  repeat split; constructor; assumption.
Qed.

Lemma valid_sample_in (T L S : vector) (i : nat) (t l x : float64) :
  nth_error T i = Some t -> nth_error L i = Some l ->
  nth_error S i = Some x -> sample_bad t l x = false ->
  In t (compress (map negb (bad_mask T L S)) T)
  /\ In l (compress (map negb (bad_mask T L S)) L)
  /\ In x (compress (map negb (bad_mask T L S)) S).
Proof.
  revert T L S. induction i as [| i IH];
    intros [| t' T] [| l' L] [| x' S] HT HL HS Hb; cbn in *;
    try discriminate.
  - injection HT as ->. injection HL as ->. injection HS as ->.
    rewrite Hb. cbn. auto.
  - destruct (IH T L S HT HL HS Hb) as (H1 & H2 & H3).
    destruct (sample_bad t' l' x'); cbn; auto.
Qed.

End ValidSamples.

Section ValidRaw.

Lemma sample_bad_raw (t p x : float64) :
  sample_bad t (flog10 p) (fsqrt x) = negb (valid_sample t p x).
Proof.
  unfold sample_bad, valid_sample, flog10, fsqrt, Rltb.
  destruct t, p as [pv | | |], x as [xv | | |]; cbn;
    repeat match goal with
      | |- context [Rlt_dec ?a ?b] => destruct (Rlt_dec a b)
      end; cbn; try reflexivity; lra.
Qed.

Lemma bad_mask_raw (T P Xsec : vector) :
  count_true (map negb (bad_mask T (map flog10 P) (map fsqrt Xsec)))
  = valid_count T P Xsec.
Proof.
  unfold count_true. revert P Xsec.
  induction T as [| t T IH]; intros [| p P] [| x Xsec]; cbn;
    try reflexivity.
  rewrite sample_bad_raw, negb_involutive.
  destruct (valid_sample t p x); cbn; rewrite IH; reflexivity.
Qed.

Lemma compress_valid_only (T P Xsec : vector) :
  valid_only T P Xsec
  = (compress (map negb (bad_mask T (map flog10 P) (map fsqrt Xsec))) T,
     compress (map negb (bad_mask T (map flog10 P) (map fsqrt Xsec))) P,
     compress (map negb (bad_mask T (map flog10 P) (map fsqrt Xsec))) Xsec).
Proof.
  revert P Xsec.
  induction T as [| t T IH]; intros [| p P] [| x Xsec]; cbn;
    try reflexivity.
  rewrite IH, sample_bad_raw, negb_involutive.
  destruct (valid_sample t p x); reflexivity.
Qed.

Lemma compress_map (A B : Type) (f : A -> B) (mask : list bool) (a : list A) :
  compress mask (map f a) = map f (compress mask a).
Proof.
  revert a. induction mask as [| [|] mask IH]; intros [| x a]; cbn;
    try reflexivity.
  - f_equal. apply IH.
  - apply IH.
Qed.

Lemma valid_only_valid (T P Xsec : vector) :
  let '(Tv, Pv, Xv) := valid_only T P Xsec in
  List.length Tv = List.length Pv /\ List.length Pv = List.length Xv
  /\ bad_mask Tv (map flog10 Pv) (map fsqrt Xv)
     = repeat false (List.length Tv).
Proof.
  revert P Xsec.
  induction T as [| t T IH]; intros [| p P] [| x Xsec]; cbn;
    try (repeat split; reflexivity).
  specialize (IH P Xsec).
  destruct (valid_only T P Xsec) as [[Tv Pv] Xv].
  destruct IH as (H1 & H2 & H3).
  destruct (valid_sample t p x) eqn:Ev; [| auto].
  cbn. rewrite sample_bad_raw, Ev, H3. cbn. auto.
Qed.

Lemma count_true_le (mask : list bool) :
  (count_true mask <= List.length mask)%nat.
Proof. unfold count_true. apply filter_length_le. Qed.

Lemma count_true_repeat_false (n : nat) : count_true (repeat false n) = 0%nat.
Proof. unfold count_true. induction n; cbn; auto. Qed.

Lemma compress_none_bad (A : Type) (a : list A) :
  compress (map negb (repeat false (List.length a))) a = a.
Proof. induction a as [| x a IH]; cbn; [reflexivity | f_equal; exact IH]. Qed.

Lemma compress_none_bad' (A : Type) (n : nat) (a : list A) :
  List.length a = n -> compress (map negb (repeat false n)) a = a.
Proof. intros <-. apply compress_none_bad. Qed.

Lemma count_true_all (n : nat) :
  count_true (map negb (repeat false n)) = n.
Proof. unfold count_true. induction n; cbn; auto. Qed.

End ValidRaw.

(** * Further properties of the model selector *)

Section SelectorFacts.

Variable lstsq : matrix -> vector -> lstsq_result.
Hypothesis Hshape : lstsq_shape lstsq.

(** The result of a fit on data with a valid sample: the envelope and the
    number of points do not depend on the branch. *)
Lemma fit_xsec_data_valid_form (T P Xsec : vector)
  (min_deltaLogP min_deltaT : float64) (x y z : float64) (xs ys zs : vector) :
  List.length T = List.length P -> List.length P = List.length Xsec ->
  (count_true (bad_mask T (map flog10 P) (map fsqrt Xsec))
   <? List.length T)%nat = true ->
  compress (map negb (bad_mask T (map flog10 P) (map fsqrt Xsec))) T
  = x :: xs ->
  compress (map negb (bad_mask T (map flog10 P) (map fsqrt Xsec)))
    (map flog10 P) = y :: ys ->
  compress (map negb (bad_mask T (map flog10 P) (map fsqrt Xsec)))
    (map fsqrt Xsec) = z :: zs ->
  exists coeffs res rnk s mnP mxP mnT mxT,
    py_min (map fexp10 (y :: ys)) = Some mnP
    /\ py_max (map fexp10 (y :: ys)) = Some mxP
    /\ py_min (x :: xs) = Some mnT
    /\ py_max (x :: xs) = Some mxT
    /\ fit_xsec_data lstsq T P Xsec min_deltaLogP min_deltaT
       = Some {| formula := the_formula;
                 coeff_names := the_coeff_names;
                 coefficients := coeffs;
                 residuum := res;
                 rank := rnk;
                 sgl_val := s;
                 MinP := mnP; MaxP := mxP; MinT := mnT; MaxT := mxT;
                 NumberOfPoints :=
                   count_true
                     (map negb
                        (bad_mask T (map flog10 P) (map fsqrt Xsec))) |}.
Proof.
  intros HTP HPX Hlt Hx Hy Hz. unfold fit_xsec_data.
  rewrite logic_bad_eq by (rewrite !length_map; lia). cbn [bind].
  rewrite Hlt, Hx, Hy, Hz.
  cbn [py_max py_min bind map].
  destruct (fit_poly22_shape Hshape x y xs ys (z :: zs))
    as (a0 & a1 & a2 & a3 & a4 & a5 & H22).
  destruct (fit_poly11_shape Hshape x y xs ys (z :: zs))
    as (b0 & b1 & b2 & b3 & b4 & b5 & H11).
  destruct (fit_poly2_shape Hshape x xs (z :: zs)) as (c0' & c1 & c2 & H2T).
  destruct (fit_poly1_shape Hshape x xs (z :: zs)) as (d0 & d1 & H1T).
  destruct (fit_poly2_shape Hshape y ys (z :: zs)) as (e0 & e1 & e2 & H2P).
  destruct (fit_poly1_shape Hshape y ys (z :: zs)) as (f0 & f1 & H1P).
  repeat match goal with
    | |- context [if ?c && ?d && (?k <? ?n)%nat then _ else _] =>
        destruct (c && d && (k <? n)%nat)
    end;
    rewrite ?H22, ?H11, ?H2T, ?H1T, ?H2P, ?H1P;
    cbn [nth_error bind];
    do 8 eexists; repeat split; reflexivity.
Qed.

Lemma map_fexp10_fin (l : list R) :
  map fexp10 (map Fin l) = map Fin (map (fun y => exp (y * ln 10)) l).
Proof. rewrite !map_map. reflexivity. Qed.

Lemma in_map_Fin (r : R) (l : list R) : In (Fin r) (map Fin l) -> In r l.
Proof.
  intros H. apply in_map_iff in H. destruct H as [r' [E H]].
  injection E as ->. exact H.
Qed.

Lemma fsqrt_fin (x : R) : (0 <= x)%R -> fsqrt (Fin x) = Fin (sqrt x).
Proof.
  intros Hx. unfold fsqrt. destruct (Rlt_dec x 0); [lra | reflexivity].
Qed.

Lemma compress_In (A : Type) (mask : list bool) (a : list A) (v : A) :
  In v (compress mask a) -> In v a.
Proof.
  revert a. induction mask as [| [|] mask IH]; intros [| x a] H; cbn in *;
    try contradiction.
  - destruct H as [-> | H]; [left; reflexivity | right; apply IH, H].
  - right. apply IH, H.
Qed.

Lemma fold_Rmax_in (rs : list R) (r : R) :
  In (fold_left Rmax rs r) (r :: rs).
Proof.
  revert r. induction rs as [| b rs IH]; intros r; cbn.
  - left. reflexivity.
  - destruct (IH (Rmax r b)) as [E | Hin].
    + unfold Rmax in E at 1. destruct (Rle_dec r b); cbn in E; auto.
    + right. right. exact Hin.
Qed.

Lemma in_map_fexp10 (v : float64) (l : vector) (P : vector) (mask : list bool) :
  l = compress mask (map flog10 P) ->
  In v (map fexp10 l) ->
  exists p : float64, In p P /\ v = fexp10 (flog10 p).
Proof.
  intros -> H. apply in_map_iff in H. destruct H as (y & <- & Hy).
  apply compress_In in Hy. apply in_map_iff in Hy.
  destruct Hy as (p & <- & Hp). exists p. auto.
Qed.

(** X1: the envelope of a fit result.  Without a valid sample (finite [T],
    positive finite [P], non-negative finite [Xsec]) it is the pair of
    sentinels [+inf], [-inf] on both axes.  With a valid sample [MinT] and
    [MaxT] are finite temperatures of the data and no valid sample has a
    temperature below [MinT] or above [MaxT]; [MinP] and [MaxP] are not
    pressures of the data but values [10 ** log10(p)] of pressures [p] of
    the data, and for no valid sample [10 ** log10(P)] is below [MinP] or
    above [MaxP]. *)
Theorem fit_xsec_data_envelope (T P Xsec : vector)
  (min_deltaLogP min_deltaT : float64) :
  List.length T = List.length P -> List.length P = List.length Xsec ->
  exists r : fit_result,
    fit_xsec_data lstsq T P Xsec min_deltaLogP min_deltaT = Some r
    /\ (valid_count T P Xsec = 0%nat ->
        MinT r = PInf /\ MaxT r = NInf /\ MinP r = PInf /\ MaxP r = NInf)
    /\ ((0 < valid_count T P Xsec)%nat ->
        is_fin (MinT r) /\ is_fin (MaxT r)
        /\ In (MinT r) T /\ In (MaxT r) T
        /\ (exists p : float64, In p P /\ MinP r = fexp10 (flog10 p))
        /\ (exists p : float64, In p P /\ MaxP r = fexp10 (flog10 p))
        /\ forall (i : nat) (t p x : float64),
             nth_error T i = Some t ->
             nth_error P i = Some p ->
             nth_error Xsec i = Some x ->
             valid_sample t p x = true ->
             flt t (MinT r) = false /\ fgt t (MaxT r) = false
             /\ flt (fexp10 (flog10 p)) (MinP r) = false
             /\ fgt (fexp10 (flog10 p)) (MaxP r) = false).
Proof.
  intros HTP HPX.
  pose proof (count_true_negb
                (bad_mask T (map flog10 P) (map fsqrt Xsec))) as Hn.
  rewrite bad_mask_length in Hn by (rewrite ?length_map; lia).
  rewrite bad_mask_raw in Hn.
  destruct (count_true (bad_mask T (map flog10 P) (map fsqrt Xsec))
            <? List.length T)%nat eqn:Hlt.
  2: { apply Nat.ltb_ge in Hlt. eexists. split; [| split].
       - unfold fit_xsec_data.
         rewrite logic_bad_eq by (rewrite !length_map; lia). cbn [bind].
         apply Nat.ltb_ge in Hlt. rewrite Hlt. reflexivity.
       - intros _. cbn. auto.
       - intros Hpos. exfalso.
         pose proof (count_true_le
                       (bad_mask T (map flog10 P) (map fsqrt Xsec))) as Hle.
         rewrite bad_mask_length in Hle by (rewrite ?length_map; lia).
         lia. }
  destruct (@valid_samples T (map flog10 P) (map fsqrt Xsec))
    as (x & xs & y & ys & z & zs & Hx & Hy & Hz);
    [rewrite length_map; lia | rewrite !length_map; lia | exact Hlt |].
  destruct (valid_samples_fin T (map flog10 P) (map fsqrt Xsec))
    as (FT & FL & _).
  rewrite Hx in FT. rewrite Hy in FL.
  destruct (fin_list FT) as [[| tx txs] Ex]; [discriminate |].
  destruct (fin_list FL) as [[| ly lys] Ey]; [discriminate |].
  destruct (@fit_xsec_data_valid_form T P Xsec min_deltaLogP min_deltaT
              x y z xs ys zs HTP HPX Hlt Hx Hy Hz)
    as (coeffs & res & rnk & s & mnP & mxP & mnT & mxT
        & EmnP & EmxP & EmnT & EmxT & Hfit).
  assert (InmnP : In mnP (map fexp10 (y :: ys))).
  { rewrite Ey, map_fexp10_fin in EmnP |- *. cbn [map] in EmnP |- *.
    rewrite <- map_cons in EmnP. rewrite py_min_fin in EmnP.
    injection EmnP as <-. rewrite <- map_cons. apply in_map.
    apply fold_Rmin_in. }
  assert (InmxP : In mxP (map fexp10 (y :: ys))).
  { rewrite Ey, map_fexp10_fin in EmxP |- *. cbn [map] in EmxP |- *.
    rewrite <- map_cons in EmxP. rewrite py_max_fin in EmxP.
    injection EmxP as <-. rewrite <- map_cons. apply in_map.
    apply fold_Rmax_in. }
  rewrite Ex, py_min_fin in EmnT. rewrite Ex, py_max_fin in EmxT.
  rewrite Ey, map_fexp10_fin in EmnP, EmxP.
  cbn [map] in EmnP, EmxP. rewrite <- map_cons in EmnP, EmxP.
  rewrite py_min_fin in EmnP. rewrite py_max_fin in EmxP.
  injection EmnT as <-. injection EmxT as <-.
  injection EmnP as EmnP. injection EmxP as EmxP.
  eexists. split; [exact Hfit |].
  cbn [MinT MaxT MinP MaxP].
  split; [intros H0; exfalso; apply Nat.ltb_lt in Hlt; lia |].
  intros _.
  set (es := map (fun y0 : R => exp (y0 * ln 10)) lys) in *.
  set (e0 := exp (ly * ln 10)) in *.
  destruct (fold_Rmin_le txs tx) as [Hmn0 Hmn].
  destruct (fold_Rmax_ge txs tx) as [Hmx0 Hmx].
  destruct (fold_Rmin_le es e0) as [Pmn0 Pmn].
  destruct (fold_Rmax_ge es e0) as [Pmx0 Pmx].
  split; [exact I |]. split; [exact I |].
  split; [| split; [| split; [| split]]].
  - apply compress_In
      with (mask := map negb (bad_mask T (map flog10 P) (map fsqrt Xsec))).
    rewrite Hx, Ex. apply in_map. apply fold_Rmin_in.
  - apply compress_In
      with (mask := map negb (bad_mask T (map flog10 P) (map fsqrt Xsec))).
    rewrite Hx, Ex. apply in_map. apply fold_Rmax_in.
  - apply (@in_map_fexp10 mnP (y :: ys) P
             (map negb (bad_mask T (map flog10 P) (map fsqrt Xsec))));
      [symmetry; exact Hy | exact InmnP].
  - apply (@in_map_fexp10 mxP (y :: ys) P
             (map negb (bad_mask T (map flog10 P) (map fsqrt Xsec))));
      [symmetry; exact Hy | exact InmxP].
  - intros i t p xv Ht Hp Hxv Hvalid.
    destruct t as [t | | |], p as [p | | |], xv as [xv | | |];
      try discriminate Hvalid.
    cbn in Hvalid. apply andb_prop in Hvalid. destruct Hvalid as [Hp0 Hx0].
    unfold Rltb in Hp0, Hx0.
    destruct (Rlt_dec 0 p) as [Hppos |]; [| discriminate].
    destruct (Rlt_dec xv 0) as [| Hxnn]; [discriminate |].
    destruct (@valid_sample_in T (map flog10 P) (map fsqrt Xsec) i
                (Fin t) (Fin (log10R p)) (Fin (sqrt xv)))
      as (InT & InL & _).
    + exact Ht.
    + rewrite nth_error_map, Hp. cbn [option_map].
      rewrite flog10_fin by exact Hppos. reflexivity.
    + rewrite nth_error_map, Hxv. cbn [option_map].
      rewrite fsqrt_fin by lra. reflexivity.
    + reflexivity.
    + rewrite Hx, Ex in InT. rewrite Hy, Ey in InL.
      apply in_map_Fin in InT. apply in_map_Fin in InL.
      assert (InP : In (exp (log10R p * ln 10)) (e0 :: es)).
      { destruct InL as [<- | InL]; [left; reflexivity | right].
        unfold es. apply in_map_iff. exists (log10R p). auto. }
      rewrite flog10_fin by exact Hppos. cbn [fexp10].
      rewrite <- EmnP, <- EmxP. unfold fgt. cbn [flt].
      repeat split; apply Rltb_false.
      * destruct InT as [<- | InT]; [lra | pose proof (Hmn _ InT); lra].
      * destruct InT as [<- | InT]; [lra | pose proof (Hmx _ InT); lra].
      * destruct InP as [<- | InP']; [lra | pose proof (Pmn _ InP'); lra].
      * destruct InP as [<- | InP']; [lra | pose proof (Pmx _ InP'); lra].
Qed.

(** X2: the number of points of a fit result is the number of samples with
    a finite temperature, a positive finite pressure and a non-negative
    finite cross section: zero or negative pressures, negative cross
    sections, infinities and nan are all left out of the fit. *)
Theorem fit_xsec_data_number_of_points (T P Xsec : vector)
  (min_deltaLogP min_deltaT : float64) :
  List.length T = List.length P -> List.length P = List.length Xsec ->
  exists r : fit_result,
    fit_xsec_data lstsq T P Xsec min_deltaLogP min_deltaT = Some r
    /\ NumberOfPoints r = valid_count T P Xsec
    /\ (NumberOfPoints r <= List.length T)%nat.
Proof.
  intros HTP HPX.
  pose proof (count_true_negb
                (bad_mask T (map flog10 P) (map fsqrt Xsec))) as Hn.
  rewrite bad_mask_length in Hn by (rewrite ?length_map; lia).
  destruct (count_true (bad_mask T (map flog10 P) (map fsqrt Xsec))
            <? List.length T)%nat eqn:Hlt.
  - destruct (@valid_samples T (map flog10 P) (map fsqrt Xsec))
      as (x & xs & y & ys & z & zs & Hx & Hy & Hz);
      [rewrite length_map; lia | rewrite !length_map; lia | exact Hlt |].
    destruct (@fit_xsec_data_valid_form T P Xsec min_deltaLogP min_deltaT
                x y z xs ys zs HTP HPX Hlt Hx Hy Hz)
      as (coeffs & res & rnk & s & mnP & mxP & mnT & mxT & _ & _ & _ & _
          & Hfit).
    eexists. split; [exact Hfit |]. cbn [NumberOfPoints].
    rewrite <- bad_mask_raw. split; [reflexivity | lia].
  - eexists. split.
    + unfold fit_xsec_data.
      rewrite logic_bad_eq by (rewrite !length_map; lia). cbn [bind].
      rewrite Hlt. reflexivity.
    + cbn [NumberOfPoints]. rewrite <- bad_mask_raw.
      apply Nat.ltb_ge in Hlt.
      pose proof (count_true_le
                    (bad_mask T (map flog10 P) (map fsqrt Xsec))) as Hle.
      rewrite bad_mask_length in Hle by (rewrite ?length_map; lia).
      split; lia.
Qed.

(** X3: invalid samples have no effect on the fit: removing them from the
    three arrays beforehand gives the same result. *)
Theorem fit_xsec_data_ignores_invalid (T P Xsec : vector)
  (min_deltaLogP min_deltaT : float64) :
  List.length T = List.length P -> List.length P = List.length Xsec ->
  fit_xsec_data lstsq T P Xsec min_deltaLogP min_deltaT
  = fit_xsec_data lstsq (fst (fst (valid_only T P Xsec)))
      (snd (fst (valid_only T P Xsec))) (snd (valid_only T P Xsec))
      min_deltaLogP min_deltaT.
Proof.
  intros HTP HPX.
  pose proof (valid_only_valid T P Xsec) as Hv.
  rewrite compress_valid_only in Hv |- *. cbn [fst snd].
  destruct Hv as (L1 & L2 & Hmask).
  set (g := map negb (bad_mask T (map flog10 P) (map fsqrt Xsec))) in *.
  assert (Hg : List.length g = List.length T).
  { unfold g. rewrite length_map, bad_mask_length;
      rewrite ?length_map; lia. }
  assert (Hn : List.length (compress g T) = count_true g)
    by (apply compress_length; lia).
  pose proof (count_true_negb
                (bad_mask T (map flog10 P) (map fsqrt Xsec))) as Hcount.
  fold g in Hcount.
  rewrite bad_mask_length in Hcount by (rewrite ?length_map; lia).
  unfold fit_xsec_data.
  rewrite !logic_bad_eq by (rewrite ?length_map; lia). cbn [bind].
  fold g. rewrite Hmask, count_true_repeat_false.
  rewrite !compress_none_bad' by (rewrite ?length_map; lia).
  rewrite count_true_all, <- !compress_map, Hn.
  destruct (count_true g) as [| n] eqn:Eg.
  - assert (E : (count_true (bad_mask T (map flog10 P) (map fsqrt Xsec))
                 <? List.length T)%nat = false)
      by (apply Nat.ltb_ge; lia).
    rewrite E. reflexivity.
  - assert (E : (count_true (bad_mask T (map flog10 P) (map fsqrt Xsec))
                 <? List.length T)%nat = true)
      by (apply Nat.ltb_lt; lia).
    rewrite E. reflexivity.
Qed.

(** X4: the temperature branches and the bilinear branches test
    [Delta_T > min_deltaT], the pressure branches [Delta_T < min_deltaT]; so
    when the spread of the valid temperatures equals [min_deltaT] exactly,
    the constant model is selected whatever the spread of the pressures and
    the number of valid samples. *)
Theorem fit_xsec_data_deltaT_tie (T P Xsec : vector)
  (min_deltaLogP min_deltaT Delta_logP : float64) :
  List.length T = List.length P -> List.length P = List.length Xsec ->
  let bad := bad_mask T (map flog10 P) (map fsqrt Xsec) in
  let good := map negb bad in
  let xData := compress good T in
  let yData := compress good (map flog10 P) in
  let zData := compress good (map fsqrt Xsec) in
  (count_true bad < List.length T)%nat ->
  spread yData = Some Delta_logP ->
  spread xData = Some min_deltaT ->
  exists r : fit_result,
    fit_xsec_data lstsq T P Xsec min_deltaLogP min_deltaT = Some r
    /\ selected_model T P Xsec min_deltaLogP min_deltaT = Some Constant
    /\ coefficients r = [mean zData; Fin 0; Fin 0; Fin 0; Fin 0; Fin 0]
    /\ rank r = RankNaN
    /\ sgl_val r = SglNaN.
Proof.
  intros HTP HPX bad good xData yData zData Hvalid Hy Hx.
  apply Nat.ltb_lt in Hvalid.
  destruct (@valid_samples T (map flog10 P) (map fsqrt Xsec))
    as (x & xs & y & ys & z & zs & Ex & Ey & Ez);
    [rewrite length_map; lia | rewrite !length_map; lia | exact Hvalid |].
  unfold fit_xsec_data, selected_model.
  rewrite logic_bad_eq by (rewrite !length_map; lia). cbn [bind].
  fold bad. rewrite Hvalid. fold good. fold xData yData zData.
  unfold spread in Hx, Hy |- *.
  unfold xData, yData, good, bad in Hx, Hy |- *.
  rewrite Ex in Hx. rewrite Ey in Hy. rewrite Ex, Ey.
  cbn [py_max py_min bind map] in Hx, Hy |- *.
  injection Hx as Hx. injection Hy as Hy. rewrite Hx, Hy.
  unfold select_model, fgt.
  rewrite (flt_irrefl min_deltaT).
  rewrite !andb_false_r. cbn [andb bind].
  eexists. repeat split; reflexivity.
Qed.

Lemma mean_single (v : R) : mean [Fin v] = Fin v.
Proof.
  unfold mean, sum. cbn. destruct (Req_dec_T 1 0) as [E | _]; [lra |].
  f_equal. field.
Qed.

(** X5: a single valid observation is fitted by the constant model,
    whatever the thresholds and the solver: [p00] is [sqrt(Xsec)], the
    residual is 0, rank and singular values are nan, the temperature
    envelope is the temperature of the observation on both sides, and the
    pressure envelope is [10 ** log10(P)] on both sides. *)
Theorem fit_single_sample (T P X : R) (min_deltaLogP min_deltaT : float64) :
  (0 < P)%R -> (0 <= X)%R ->
  fit_xsec_data lstsq [Fin T] [Fin P] [Fin X] min_deltaLogP min_deltaT
  = Some {| formula := the_formula;
            coeff_names := the_coeff_names;
            coefficients :=
              [fsqrt (Fin X); Fin 0; Fin 0; Fin 0; Fin 0; Fin 0];
            residuum := ResValue (Fin 0);
            rank := RankNaN;
            sgl_val := SglNaN;
            MinP := fexp10 (flog10 (Fin P));
            MaxP := fexp10 (flog10 (Fin P));
            MinT := Fin T; MaxT := Fin T;
            NumberOfPoints := 1 |}.
Proof.
  intros HP HX.
  unfold fit_xsec_data. cbn [map].
  rewrite (flog10_fin HP), (fsqrt_fin HX).
  rewrite logic_bad_eq by reflexivity.
  cbn [bind bad_mask sample_bad isinf isnan orb count_true filter
       List.length Nat.ltb Nat.leb map negb compress py_max py_min
       fold_left].
  rewrite !andb_false_r. cbn [bind map fexp10 py_min py_max fold_left].
  rewrite mean_single. do 3 f_equal.
  unfold sum, vsqr, fsqr. cbn. f_equal. ring.
Qed.

End SelectorFacts.

(** ** The properties of the selector on concrete data *)

Lemma fit_xsec_data_envelope_witness :
  exists r : fit_result,
    fit_xsec_data zero_solver [Fin 200; Fin 230; NaN]
      [Fin 1000; Fin 1000; Fin 1000] [Fin 1; Fin 4; Fin 9]
      default_min_deltaLogP default_min_deltaT = Some r
    /\ In (MinT r) [Fin 200; Fin 230; NaN]
    /\ In (MaxT r) [Fin 200; Fin 230; NaN]
    /\ flt (Fin 200) (MinT r) = false
    /\ fgt (Fin 230) (MaxT r) = false.
Proof.
  destruct (@fit_xsec_data_envelope zero_solver zero_solver_shape
              [Fin 200; Fin 230; NaN] [Fin 1000; Fin 1000; Fin 1000]
              [Fin 1; Fin 4; Fin 9] default_min_deltaLogP default_min_deltaT
              eq_refl eq_refl)
    as (r & Hfit & _ & Hvalid).
  assert (Hpos : (0 < valid_count [Fin 200; Fin 230; NaN]
                        [Fin 1000; Fin 1000; Fin 1000]
                        [Fin 1; Fin 4; Fin 9])%nat).
  { cbn. unfold Rltb. decide_R. cbn. lia. }
  destruct (Hvalid Hpos) as (_ & _ & Hmn & Hmx & _ & _ & Hall).
  assert (Hv : forall t x : R, (0 <= x)%R ->
             valid_sample (Fin t) (Fin 1000) (Fin x) = true).
  { intros t x Hx. cbn. unfold Rltb. decide_R. reflexivity. }
  destruct (Hall 0%nat (Fin 200) (Fin 1000) (Fin 1) eq_refl eq_refl eq_refl
              (Hv 200%R 1%R ltac:(lra))) as (H1 & _).
  destruct (Hall 1%nat (Fin 230) (Fin 1000) (Fin 4) eq_refl eq_refl eq_refl
              (Hv 230%R 4%R ltac:(lra))) as (_ & H2 & _).
  exists r. auto.
Defined.

Lemma fit_xsec_data_number_of_points_witness :
  exists r : fit_result,
    fit_xsec_data zero_solver [Fin 200; Fin 230; Fin 250; Fin 260]
      [Fin 1000; Fin 0; Fin 1000; Fin 1000] [Fin 1; Fin 4; Fin (-9); PInf]
      default_min_deltaLogP default_min_deltaT = Some r
    /\ NumberOfPoints r
       = valid_count [Fin 200; Fin 230; Fin 250; Fin 260]
           [Fin 1000; Fin 0; Fin 1000; Fin 1000]
           [Fin 1; Fin 4; Fin (-9); PInf]
    /\ (NumberOfPoints r <= 4)%nat.
Proof.
  exact (@fit_xsec_data_number_of_points zero_solver zero_solver_shape
           [Fin 200; Fin 230; Fin 250; Fin 260]
           [Fin 1000; Fin 0; Fin 1000; Fin 1000]
           [Fin 1; Fin 4; Fin (-9); PInf]
           default_min_deltaLogP default_min_deltaT eq_refl eq_refl).
Defined.

Lemma fit_xsec_data_ignores_invalid_witness :
  fit_xsec_data zero_solver [Fin 200; NaN; Fin 250]
    [Fin 1000; Fin 1000; Fin 1000] [Fin 1; Fin 4; Fin 9]
    default_min_deltaLogP default_min_deltaT
  = fit_xsec_data zero_solver
      (fst (fst (valid_only [Fin 200; NaN; Fin 250]
                   [Fin 1000; Fin 1000; Fin 1000] [Fin 1; Fin 4; Fin 9])))
      (snd (fst (valid_only [Fin 200; NaN; Fin 250]
                   [Fin 1000; Fin 1000; Fin 1000] [Fin 1; Fin 4; Fin 9])))
      (snd (valid_only [Fin 200; NaN; Fin 250]
              [Fin 1000; Fin 1000; Fin 1000] [Fin 1; Fin 4; Fin 9]))
      default_min_deltaLogP default_min_deltaT.
Proof.
  exact (@fit_xsec_data_ignores_invalid zero_solver
           [Fin 200; NaN; Fin 250] [Fin 1000; Fin 1000; Fin 1000]
           [Fin 1; Fin 4; Fin 9] default_min_deltaLogP default_min_deltaT
           eq_refl eq_refl).
Defined.

Lemma fit_xsec_data_deltaT_tie_witness :
  exists r : fit_result,
    fit_xsec_data zero_solver
      [Fin 200; Fin 220; Fin 200; Fin 220] [Fin 1; Fin 1; Fin 10; Fin 10]
      [Fin 16; Fin 16; Fin 16; Fin 16]
      default_min_deltaLogP default_min_deltaT = Some r
    /\ selected_model
         [Fin 200; Fin 220; Fin 200; Fin 220] [Fin 1; Fin 1; Fin 10; Fin 10]
         [Fin 16; Fin 16; Fin 16; Fin 16]
         default_min_deltaLogP default_min_deltaT = Some Constant
    /\ rank r = RankNaN.
Proof.
  assert (HL : map flog10 [Fin 1; Fin 1; Fin 10; Fin 10]
               = [Fin 0; Fin 0; Fin 1; Fin 1]).
  { cbn [map]. rewrite !flog10_fin by lra.
    rewrite log10R_1, log10R_10. reflexivity. }
  assert (HS : map fsqrt [Fin 16; Fin 16; Fin 16; Fin 16]
               = [Fin 4; Fin 4; Fin 4; Fin 4]).
  { unfold fsqrt. cbn [map]. decide_R. rewrite sqrt_16. reflexivity. }
  destruct (@fit_xsec_data_deltaT_tie zero_solver
              [Fin 200; Fin 220; Fin 200; Fin 220]
              [Fin 1; Fin 1; Fin 10; Fin 10]
              [Fin 16; Fin 16; Fin 16; Fin 16]
              default_min_deltaLogP default_min_deltaT (Fin 1)
              eq_refl eq_refl)
    as (r & Hfit & Hsel & _ & Hrank & _).
  - rewrite HL, HS. cbn. lia.
  - rewrite HL, HS. unfold spread. cbn. eval_R. f_equal. f_equal. lra.
  - rewrite HL, HS. unfold spread, default_min_deltaT. cbn. eval_R.
    f_equal. f_equal. lra.
  - exists r. auto.
Defined.

Lemma fit_single_sample_witness :
  exists r : fit_result,
    fit_xsec_data zero_solver [Fin 250] [Fin 5] [Fin 2]
      default_min_deltaLogP default_min_deltaT = Some r
    /\ coefficients r = [fsqrt (Fin 2); Fin 0; Fin 0; Fin 0; Fin 0; Fin 0]
    /\ residuum r = ResValue (Fin 0)
    /\ MinP r = fexp10 (flog10 (Fin 5))
    /\ NumberOfPoints r = 1%nat.
Proof.
  eexists. split.
  - apply (@fit_single_sample zero_solver 250 5 2
             default_min_deltaLogP default_min_deltaT); lra.
  - cbn [coefficients residuum MinP NumberOfPoints]. auto.
Defined.

(** * Further properties of the evaluator *)

Section EvaluatorFacts2.

Local Open Scope R_scope.

Lemma entry_fin (A : Type) (f : A -> R) (l : list A) (j : nat) (a : A) :
  nth_error l j = Some a ->
  entry (Some (map (fun c => Fin (f c)) l)) j = Fin (f a).
Proof.
  intros H. unfold entry.
  apply nth_error_nth. rewrite nth_error_map, H. reflexivity.
Qed.

(** X6: for [P > 0] the two arrays returned by [xsec_derivative] hold, for
    every frequency, the partial derivatives with respect to [T] and to [P]
    of the value that [calculate_xsec] returns for that frequency. *)
Theorem xsec_derivative_is_partial (T P : R) (cs : list coeff6) (j : nat) :
  0 < P -> (j < List.length cs)%nat ->
  exists dT dP : vector,
    xsec_derivative (Fin T) (Fin P) (coeff_rows cs) = Some (dT, dP)
    /\ derivable_pt_lim
         (fun t => to_R (entry (calculate_xsec (Fin t) (Fin P)
                                  (coeff_rows cs)) j))
         T (to_R (nth j dT NaN))
    /\ derivable_pt_lim
         (fun p => to_R (entry (calculate_xsec (Fin T) (Fin p)
                                  (coeff_rows cs)) j))
         P (to_R (nth j dP NaN)).
Proof.
  intros HP Hj.
  destruct (@nth_error_lt_some _ cs j Hj) as [c Ec].
  do 2 eexists. split; [apply xsec_derivative_fin, HP |].
  assert (EdT : nth j (map (fun c0 => Fin (DxsecDT_R T P c0)) cs) NaN
                = Fin (DxsecDT_R T P c)).
  { apply nth_error_nth. rewrite nth_error_map, Ec. reflexivity. }
  assert (EdP : nth j (map (fun c0 => Fin (DxsecDp_R T P c0)) cs) NaN
                = Fin (DxsecDp_R T P c)).
  { apply nth_error_nth. rewrite nth_error_map, Ec. reflexivity. }
  rewrite EdT, EdP. cbn [to_R]. split.
  - apply derivable_pt_lim_ext with (f := fun t => xsecR t P c).
    + intros t. rewrite (calculate_xsec_fin t cs HP).
      rewrite (entry_fin (fun c0 => xsecR t P c0) cs j Ec). reflexivity.
    + apply xsecR_derivative_T.
  - apply derivable_pt_lim_locally_ext
      with (f := fun p => xsecR T p c) (a := 0) (b := P + 1).
    + lra.
    + intros p [Hp _]. rewrite (calculate_xsec_fin T cs Hp).
      rewrite (entry_fin (fun c0 => xsecR T p c0) cs j Ec). reflexivity.
    + apply xsecR_derivative_P, HP.
Qed.

(** ** The full model is continuous *)

Lemma vadd_scaled_fin (A : Type) (f g h : A -> R) (a b : R) (l : list A) :
  vadd (vadd (map (fun c => Fin (f c)) l)
             (vscale (map (fun c => Fin (g c)) l) (Fin a)))
       (vscale (map (fun c => Fin (h c)) l) (Fin b))
  = map (fun c => Fin (f c + g c * a + h c * b)) l.
Proof.
  unfold vadd, vscale.
  induction l as [| c l IH]; [reflexivity |].
  cbn. rewrite IH. reflexivity.
Qed.

Lemma clampR_inside (lo hi x : R) : lo <= x <= hi -> clampR lo hi x = x.
Proof.
  intros H. unfold clampR, Rmax, Rmin.
  destruct (Rle_dec hi x); destruct (Rle_dec lo hi);
    try destruct (Rle_dec lo x); lra.
Qed.

Lemma clampR_pos (lo hi x : R) : 0 < hi -> 0 < x -> 0 < clampR lo hi x.
Proof.
  intros Hhi Hx. unfold clampR, Rmax, Rmin.
  destruct (Rle_dec hi x); destruct (Rle_dec lo hi);
    try destruct (Rle_dec lo x); lra.
Qed.

(** The value of the full model for one frequency, on real numbers. *)
Lemma fullmodel_entry (T P minT maxT minP maxP : R) (cs : list coeff6)
  (j : nat) (c : coeff6) :
  0 < P -> 0 < maxP -> minT <= maxT -> minP <= maxP ->
  nth_error cs j = Some c ->
  entry (calculate_xsec_fullmodel (Fin T) (Fin P) (coeff_rows cs)
           (Fin minT) (Fin maxT) (Fin minP) (Fin maxP)) j
  = Fin (extrapolatedR T P minT maxT minP maxP c).
Proof.
  intros HP HmaxP HT HPe Ec. unfold extrapolatedR.
  destruct (Rlt_dec minT T) as [H1 | H1];
    [destruct (Rlt_dec T maxT) as [H2 | H2];
     [destruct (Rlt_dec minP P) as [H3 | H3];
      [destruct (Rlt_dec P maxP) as [H4 | H4] |] |] |].
  1: { rewrite fullmodel_interior by lra.
       rewrite (calculate_xsec_fin T cs HP).
       rewrite (entry_fin (fun c0 => xsecR T P c0) cs j Ec).
       rewrite !clampR_inside by lra. f_equal. ring. }
  all: rewrite fullmodel_not_interior by (try assumption; lra);
    fold (clampR minT maxT T); fold (clampR minP maxP P);
    rewrite calculate_xsec_fin, xsec_derivative_fin
      by (apply clampR_pos; assumption);
    cbn [bind]; unfold fsub, fopp, fadd;
    rewrite vadd_scaled_fin;
    rewrite (entry_fin _ cs j Ec); reflexivity.
Qed.

Lemma clampR_continuous (lo hi x : R) : continuity_pt (clampR lo hi) x.
Proof.
  intros eps Heps. exists eps. split; [exact Heps |].
  intros y [_ Hy]. cbn in *. unfold Rdist in *.
  apply Rle_lt_trans with (Rabs (y - x)); [| exact Hy].
  unfold clampR, Rmax, Rmin.
  destruct (Rle_dec hi y), (Rle_dec hi x);
    repeat match goal with
      | |- context [Rle_dec ?a ?b] => destruct (Rle_dec a b)
      end;
    unfold Rabs;
    repeat match goal with
      | |- context [Rcase_abs ?a] => destruct (Rcase_abs a)
      end; lra.
Qed.

(** X7: for a positive pressure and an envelope with [minT <= maxT],
    [minP <= maxP] and [0 < maxP], the value that
    [calculate_xsec_fullmodel] returns for a frequency is a continuous
    function of the temperature, at every temperature: the linear
    extrapolation joins the fitted surface on the boundary of the envelope
    without a jump. *)
Theorem fullmodel_continuous_in_T (T P minT maxT minP maxP : R)
  (cs : list coeff6) (j : nat) :
  0 < P -> 0 < maxP -> minT <= maxT -> minP <= maxP ->
  (j < List.length cs)%nat ->
  continuity_pt
    (fun t => to_R (entry (calculate_xsec_fullmodel (Fin t) (Fin P)
                             (coeff_rows cs)
                             (Fin minT) (Fin maxT) (Fin minP) (Fin maxP)) j))
    T.
Proof.
  intros HP HmaxP HT HPe Hj.
  destruct (@nth_error_lt_some _ cs j Hj) as [c Ec].
  set (P0 := clampR minP maxP P).
  set (A := fun u => xsecR u P0 c).
  set (B := fun u => DxsecDT_R u P0 c).
  set (C := fun u => DxsecDp_R u P0 c).
  apply continuity_pt_locally_ext
    with (a := 1)
         (f := ((comp A (clampR minT maxT))
                + (comp B (clampR minT maxT)) * (id - clampR minT maxT)
                + (comp C (clampR minT maxT)) * fct_cte (P - P0))%F).
  - lra.
  - intros t _.
    rewrite (@fullmodel_entry t P minT maxT minP maxP cs j c)
      by assumption.
    reflexivity.
  - assert (HA : forall u, continuity_pt A u).
    { intros u. unfold A, xsecR, zpoly. reg. }
    assert (HB : forall u, continuity_pt B u).
    { intros u. unfold B, DxsecDT_R, dzdT, zpoly. reg. }
    assert (HC : forall u, continuity_pt C u).
    { intros u. unfold C, DxsecDp_R, dzdP, zpoly. reg. }
    pose proof (clampR_continuous minT maxT T) as Hcl.
    apply continuity_pt_plus; [apply continuity_pt_plus |].
    + apply continuity_pt_comp; [exact Hcl | apply HA].
    + apply continuity_pt_mult.
      * apply continuity_pt_comp; [exact Hcl | apply HB].
      * apply continuity_pt_minus; [| exact Hcl].
        apply derivable_continuous_pt, derivable_pt_id.
    + apply continuity_pt_mult.
      * apply continuity_pt_comp; [exact Hcl | apply HC].
      * apply continuity_pt_const. intros ? ?. reflexivity.
Qed.

Lemma log10R_continuous (u : R) : 0 < u -> continuity_pt log10R u.
Proof.
  intros Hu. apply derivable_continuous_pt.
  exists (/ (u * ln 10)). apply derivable_pt_lim_log10R, Hu.
Qed.

(** X8: under the same conditions the value that
    [calculate_xsec_fullmodel] returns for a frequency is a continuous
    function of the pressure, at every positive pressure. *)
Theorem fullmodel_continuous_in_P (T P minT maxT minP maxP : R)
  (cs : list coeff6) (j : nat) :
  0 < P -> 0 < maxP -> minT <= maxT -> minP <= maxP ->
  (j < List.length cs)%nat ->
  continuity_pt
    (fun p => to_R (entry (calculate_xsec_fullmodel (Fin T) (Fin p)
                             (coeff_rows cs)
                             (Fin minT) (Fin maxT) (Fin minP) (Fin maxP)) j))
    P.
Proof.
  intros HP HmaxP HT HPe Hj. pose proof ln10_pos as H10.
  destruct (@nth_error_lt_some _ cs j Hj) as [c Ec].
  set (T0 := clampR minT maxT T).
  set (zq := fun y => p00 c * 1 + p10 c * T0 + p01 c * y + p20 c * (T0 * T0)
                      + p11 c * (T0 * y) + p02 c * (y * y)).
  set (A := fun y => zq y * zq y).
  set (B := fun y => 2 * (p10 c + 2 * p20 c * T0 + p11 c * y) * zq y).
  set (Cn := fun y => 2 * (p01 c + p11 c * T0 + 2 * p02 c * y) * zq y).
  set (inv10 := fun u : R => / (u * ln 10)).
  set (cl := clampR minP maxP).
  apply continuity_pt_locally_ext
    with (a := P)
         (f := ((comp A (comp log10R cl))
                + (comp B (comp log10R cl)) * fct_cte (T - T0)
                + ((comp Cn (comp log10R cl)) * (comp inv10 cl))
                  * (id - cl))%F).
  - exact HP.
  - intros p Hp.
    assert (Hppos : 0 < p).
    { unfold Rdist, Rabs in Hp. destruct (Rcase_abs (p - P)); lra. }
    rewrite (@fullmodel_entry T p minT maxT minP maxP cs j c)
      by assumption.
    cbn [to_R].
    assert (Hcl : 0 < cl p) by (apply clampR_pos; assumption).
    unfold extrapolatedR, plus_fct, mult_fct, minus_fct, comp, fct_cte, id,
      A, B, Cn, inv10, zq, xsecR, DxsecDT_R, DxsecDp_R, dzdT, dzdP, zpoly.
    fold T0. fold (cl p). field. lra.
  - assert (Hcl0 : 0 < cl P) by (apply clampR_pos; assumption).
    assert (Hcl : continuity_pt cl P) by apply clampR_continuous.
    assert (Hlog : continuity_pt (comp log10R cl) P).
    { apply continuity_pt_comp; [exact Hcl |].
      apply log10R_continuous, Hcl0. }
    assert (HA : forall y, continuity_pt A y).
    { intros y. unfold A, zq. reg. }
    assert (HB : forall y, continuity_pt B y).
    { intros y. unfold B, zq. reg. }
    assert (HC : forall y, continuity_pt Cn y).
    { intros y. unfold Cn, zq. reg. }
    assert (Hinv : continuity_pt inv10 (cl P)).
    { unfold inv10.
      apply continuity_pt_inv with (f := fun u => u * ln 10).
      - reg.
      - apply Rmult_integral_contrapositive. lra. }
    apply continuity_pt_plus; [apply continuity_pt_plus |].
    + apply continuity_pt_comp; [exact Hlog | apply HA].
    + apply continuity_pt_mult.
      * apply continuity_pt_comp; [exact Hlog | apply HB].
      * apply continuity_pt_const. intros ? ?. reflexivity.
    + apply continuity_pt_mult.
      * apply continuity_pt_mult.
        -- apply continuity_pt_comp; [exact Hlog | apply HC].
        -- apply continuity_pt_comp; [exact Hcl | exact Hinv].
      * apply continuity_pt_minus; [| exact Hcl].
        apply derivable_continuous_pt, derivable_pt_id.
Qed.

(** ** Evaluating the result of a fit without valid sample *)

Lemma fadd_nan_r (a : float64) : fadd a NaN = NaN.
Proof. destruct a; reflexivity. Qed.

Lemma vadd_nan_r (a : vector) (m : nat) :
  List.length a = m -> vadd a (repeat NaN m) = repeat NaN m.
Proof.
  revert a. induction m as [| m IH]; intros [| x a] H; cbn in *;
    try discriminate; [reflexivity |].
  rewrite fadd_nan_r. f_equal. apply IH. lia.
Qed.

Lemma vadd_nan_l (b : vector) (m : nat) :
  List.length b = m -> vadd (repeat NaN m) b = repeat NaN m.
Proof.
  revert b. induction m as [| m IH]; intros [| x b] H; cbn in *;
    try discriminate; [reflexivity |].
  f_equal. apply IH. lia.
Qed.

Lemma vscale_zeros_inf (m : nat) : vscale (zeros m) PInf = repeat NaN m.
Proof.
  unfold vscale, zeros. rewrite map_repeat. f_equal.
  cbn. unfold by_sign. destruct (Rlt_dec 0 0); [lra | reflexivity].
Qed.

Lemma transpose_zeros (n : nat) :
  transpose (repeat (zeros 6) (S n)) = repeat (zeros (S n)) 6.
Proof.
  unfold transpose. cbn [repeat hd zeros List.length seq map].
  rewrite !map_repeat. reflexivity.
Qed.

Lemma calculate_xsec_inf_zeros (m : nat) :
  calculate_xsec PInf PInf (repeat (zeros m) 6) = Some (repeat NaN m).
Proof.
  unfold calculate_xsec.
  cbn [repeat seq fold_left nth_error bind zeros_like map set_row
       flog10 fsqr fmul].
  f_equal. unfold sum_axis0. cbn [fold_left hd].
  rewrite !vscale_zeros_inf.
  rewrite (@vadd_nan_r (vadd (zeros (List.length (vscale (zeros m) (Fin 1))))
                            (vscale (zeros m) (Fin 1))) m).
  - rewrite !vadd_nan_l by apply repeat_length.
    unfold vsqr. rewrite map_repeat. reflexivity.
  - apply vadd_length.
    + unfold zeros at 1. rewrite repeat_length, vscale_length.
      unfold zeros. apply repeat_length.
    + rewrite vscale_length. unfold zeros. apply repeat_length.
Qed.

(** X9: the result of a fit without valid sample (six zero coefficients,
    the envelope [MinT = MinP = +inf], [MaxT = MaxP = -inf]) cannot be
    evaluated: for every finite temperature and pressure
    [calculate_xsec_fullmodel] returns nan for every frequency of such a
    band (the point is clamped to the infinite bounds and [0 * inf] is
    nan). *)
Theorem degenerate_fit_evaluates_to_nan
  (lstsq : matrix -> vector -> lstsq_result) (T P Xsec : vector)
  (min_deltaLogP min_deltaT : float64) (t p : R) (n : nat) :
  List.length T = List.length P -> List.length P = List.length Xsec ->
  valid_count T P Xsec = 0%nat ->
  exists r : fit_result,
    fit_xsec_data lstsq T P Xsec min_deltaLogP min_deltaT = Some r
    /\ calculate_xsec_fullmodel (Fin t) (Fin p)
         (transpose (repeat (coefficients r) (S n)))
         (MinT r) (MaxT r) (MinP r) (MaxP r)
       = Some (repeat NaN (S n)).
Proof.
  intros HTP HPX Hnone.
  assert (Hlt : (count_true (bad_mask T (map flog10 P) (map fsqrt Xsec))
                 <? List.length T)%nat = false).
  { apply Nat.ltb_ge.
    pose proof (count_true_negb
                  (bad_mask T (map flog10 P) (map fsqrt Xsec))) as Hn.
    rewrite bad_mask_raw, Hnone in Hn.
    rewrite bad_mask_length in Hn by (rewrite ?length_map; lia).
    lia. }
  eexists. split.
  { unfold fit_xsec_data.
    rewrite logic_bad_eq by (rewrite !length_map; lia). cbn [bind].
    rewrite Hlt. reflexivity. }
  cbn [coefficients MinT MaxT MinP MaxP].
  rewrite transpose_zeros. set (m := S n).
  unfold calculate_xsec_fullmodel.
  change (flt (Fin p) PInf) with true. cbn [orb].
  change (flt (Fin t) PInf) with true. cbv iota.
  rewrite calculate_xsec_inf_zeros.
  destruct (@xsec_derivative_rows PInf PInf m
              (zeros m) (zeros m) (zeros m) (zeros m) (zeros m) (zeros m))
    as (dT & dP & Hd & LT & LP);
    try (unfold zeros; apply repeat_length).
  change (repeat (zeros m) 6)
    with [zeros m; zeros m; zeros m; zeros m; zeros m; zeros m].
  rewrite Hd. cbn [bind]. f_equal.
  rewrite (@vadd_nan_l (vscale dT (fsub (Fin t) PInf)) m)
    by (rewrite vscale_length; exact LT).
  apply vadd_nan_l. rewrite vscale_length. exact LP.
Qed.

End EvaluatorFacts2.

Lemma xsec_derivative_is_partial_witness :
  exists dT dP : vector,
    xsec_derivative (Fin 250) (Fin 1000)
      (coeff_rows [Coeff6 1 (1 / 100) (1 / 2) 0 0 0]) = Some (dT, dP)
    /\ derivable_pt_lim
         (fun t => to_R (entry (calculate_xsec (Fin t) (Fin 1000)
                                  (coeff_rows
                                     [Coeff6 1 (1 / 100) (1 / 2) 0 0 0]))
                           0))
         250 (to_R (nth 0 dT NaN))
    /\ derivable_pt_lim
         (fun p => to_R (entry (calculate_xsec (Fin 250) (Fin p)
                                  (coeff_rows
                                     [Coeff6 1 (1 / 100) (1 / 2) 0 0 0]))
                           0))
         1000 (to_R (nth 0 dP NaN)).
Proof.
  apply (@xsec_derivative_is_partial 250 1000
           [Coeff6 1 (1 / 100) (1 / 2) 0 0 0] 0).
  - lra.
  - cbn. lia.
Defined.

Lemma fullmodel_continuous_in_T_witness :
  continuity_pt
    (fun t => to_R (entry (calculate_xsec_fullmodel (Fin t) (Fin 1000)
                             (coeff_rows [Coeff6 1 (1 / 100) (1 / 2) 0 0 0])
                             (Fin 200) (Fin 300) (Fin 100) (Fin 100000)) 0))
    200.
Proof.
  apply (@fullmodel_continuous_in_T 200 1000 200 300 100 100000
           [Coeff6 1 (1 / 100) (1 / 2) 0 0 0] 0); try lra.
  cbn. lia.
Defined.

Lemma fullmodel_continuous_in_P_witness :
  continuity_pt
    (fun p => to_R (entry (calculate_xsec_fullmodel (Fin 250) (Fin p)
                             (coeff_rows [Coeff6 1 (1 / 100) (1 / 2) 0 0 0])
                             (Fin 200) (Fin 300) (Fin 100) (Fin 100000)) 0))
    100000.
Proof.
  apply (@fullmodel_continuous_in_P 250 100000 200 300 100 100000
           [Coeff6 1 (1 / 100) (1 / 2) 0 0 0] 0); try lra.
  cbn. lia.
Defined.

Lemma degenerate_fit_evaluates_to_nan_witness :
  exists r : fit_result,
    fit_xsec_data zero_solver (repeat NaN 10) (repeat (Fin 1000) 10)
      (repeat (Fin 1) 10) default_min_deltaLogP default_min_deltaT = Some r
    /\ calculate_xsec_fullmodel (Fin 250) (Fin 1000)
         (transpose (repeat (coefficients r) 3))
         (MinT r) (MaxT r) (MinP r) (MaxP r)
       = Some (repeat NaN 3).
Proof.
  exact (@degenerate_fit_evaluates_to_nan zero_solver
           (repeat NaN 10) (repeat (Fin 1000) 10) (repeat (Fin 1) 10)
           default_min_deltaLogP default_min_deltaT 250 1000 2
           eq_refl eq_refl eq_refl).
Defined.

(** * Further properties of the adjusted R-square statistic *)

Section RsquareFacts.

Local Open Scope R_scope.

Lemma Reqb_refl' (x : R) : Reqb x x = true.
Proof.
  unfold Reqb. destruct (Req_dec_T x x); [reflexivity | contradiction].
Qed.

Lemma fsqr_cases (a : float64) :
  isnan (fsqr a) = true \/ nonneg_ext (fsqr a).
Proof.
  destruct a as [x | | |]; cbn; auto.
  right. pose proof (Rle_0_sqr x) as H. unfold Rsqr in H. exact H.
Qed.

Lemma fadd_nonneg_ext (a b : float64) :
  nonneg_ext a -> nonneg_ext b -> nonneg_ext (fadd a b).
Proof. destruct a, b; cbn; try tauto. intros; lra. Qed.

Lemma nansum_nonneg (l : vector) :
  Forall (fun a => isnan a = true \/ nonneg_ext a) l ->
  nonneg_ext (nansum l).
Proof.
  unfold nansum, sum. intros H.
  assert (G : forall acc : float64,
             nonneg_ext acc ->
             nonneg_ext
               (fold_left fadd
                  (map (fun v => if isnan v then Fin 0 else v) l) acc)).
  { induction H as [| a l Ha _ IH]; intros acc Hacc; cbn [map fold_left];
      [exact Hacc |].
    apply IH. apply fadd_nonneg_ext; [exact Hacc |].
    destruct Ha as [-> | Ha]; [cbn; lra |].
    destruct (isnan a); [cbn; lra | exact Ha]. }
  apply G. cbn. lra.
Qed.

Lemma nansum_vsqr_nonneg (l : vector) : nonneg_ext (nansum (vsqr l)).
Proof.
  apply nansum_nonneg. apply Forall_forall. intros v Hv.
  unfold vsqr in Hv. apply in_map_iff in Hv. destruct Hv as (a & <- & _).
  apply fsqr_cases.
Qed.

(** X11: whatever the entries of the two arrays are (nan and infinities
    included), with fewer coefficients than entries the statistic is never
    greater than 1: it is nan, [-inf] or a finite number [<= 1]. *)
Theorem calc_Rsquare_at_most_one (y yfit : vector) (Ncoeffs : Z) :
  List.length y = List.length yfit ->
  (Ncoeffs < Z.of_nat (List.length y))%Z ->
  exists r : float64,
    calc_Rsquare y yfit Ncoeffs = Some r /\ fgt r (Fin 1) = false.
Proof.
  intros Hlen Hk. unfold calc_Rsquare.
  rewrite map2_checked_eq by exact Hlen. cbn [bind].
  pose proof (nansum_vsqr_nonneg (map2 fsub y yfit)) as Hsse.
  pose proof (nansum_vsqr_nonneg (map (fun v => fsub v (nanmean y)) y))
    as Hsst.
  set (SSE := nansum (vsqr (map2 fsub y yfit))) in *.
  set (SST := nansum (vsqr (map (fun v => fsub v (nanmean y)) y))) in *.
  destruct (feqb SST (Fin 0) || (Z.of_nat (List.length y) - Ncoeffs =? 0)%Z)
    eqn:Hc.
  - eexists. split; [reflexivity |].
    destruct SSE; reflexivity.
  - apply orb_false_elim in Hc. destruct Hc as [Hne _].
    assert (Hn : (1 <= Z.of_nat (List.length y))%Z).
    { destruct y as [| y0 y].
      - exfalso. subst SST. cbn in Hne. unfold nansum, sum in Hne.
        cbn in Hne. rewrite Reqb_refl' in Hne. discriminate.
      - cbn [List.length]. lia. }
    set (n := Z.of_nat (List.length y)) in *.
    assert (Ha : 0 <= IZR n + - (1)).
    { apply IZR_le in Hn. lra. }
    assert (Hb : 0 < IZR (n - Ncoeffs)) by (apply IZR_lt; lia).
    set (a := IZR n + - (1)) in *. set (b := IZR (n - Ncoeffs)) in *.
    eexists. split; [reflexivity |].
    change (fsub (Fin (IZR n)) (Fin 1)) with (Fin a).
    clearbody SSE SST a b.
    destruct SSE as [s | | |]; try contradiction;
      destruct SST as [t | | |]; try contradiction; cbn in Hsse, Hsst, Hne.
    + assert (Ht : 0 < t).
      { unfold Reqb in Hne. destruct (Req_dec_T t 0); [discriminate | lra]. }
      assert (Htb : 0 < t * b) by (apply Rmult_lt_0_compat; assumption).
      assert (Hq : 0 <= s * a / (t * b)).
      { apply Rmult_le_pos; [apply Rmult_le_pos; assumption |].
        apply Rlt_le, Rinv_0_lt_compat, Htb. }
      unfold fgt, fsub. cbn [fmul fdiv].
      destruct (Req_dec_T (t * b) 0) as [E | _]; [lra |].
      cbn [fopp fadd flt]. apply Rltb_false. lra.
    + unfold fgt, fsub. cbn [fmul]. unfold by_sign.
      destruct (Rlt_dec 0 b) as [_ | N]; [| contradiction].
      cbn [fdiv fopp fadd flt]. apply Rltb_false. lra.
    + assert (Ht : 0 < t).
      { unfold Reqb in Hne. destruct (Req_dec_T t 0); [discriminate | lra]. }
      assert (Htb : 0 < t * b) by (apply Rmult_lt_0_compat; assumption).
      unfold fgt, fsub. cbn [fmul]. unfold by_sign.
      destruct (Rlt_dec 0 a); [| destruct (Rlt_dec a 0); [lra |]].
      * cbn [fdiv]. destruct (Rlt_dec (t * b) 0); [lra |]. reflexivity.
      * reflexivity.
    + unfold fgt, fsub. cbn [fmul]. unfold by_sign.
      destruct (Rlt_dec 0 b) as [_ | N]; [| contradiction].
      destruct (Rlt_dec 0 a); [| destruct (Rlt_dec a 0); [lra |]];
        reflexivity.
Qed.

End RsquareFacts.

Lemma calc_Rsquare_at_most_one_witness :
  exists r : float64,
    calc_Rsquare [Fin 1; NaN; PInf] [Fin 1; Fin 2; Fin 3] 2 = Some r
    /\ fgt r (Fin 1) = false.
Proof.
  apply (@calc_Rsquare_at_most_one [Fin 1; NaN; PInf] [Fin 1; Fin 2; Fin 3] 2);
    [reflexivity | cbn; lia].
Defined.

Lemma calc_Rsquare_undefined_witness :
  calc_Rsquare [Fin 3; Fin 3; Fin 3] [Fin 1; Fin 2; Fin 3] 2 = Some NaN
  /\ calc_Rsquare [Fin 1; Fin 2] [Fin 1; Fin 2] 2 = Some NaN.
Proof.
  split.
  - apply (@calc_Rsquare_undefined [Fin 3; Fin 3; Fin 3]
             [Fin 1; Fin 2; Fin 3] 2 eq_refl).
    left.
    assert (Hm : nanmean [Fin 3; Fin 3; Fin 3] = Fin 3).
    { unfold nanmean, sum. eval_R. f_equal. lra. }
    rewrite Hm. unfold nansum, sum, vsqr, fsqr. eval_R; reflexivity.
  - apply (@calc_Rsquare_undefined [Fin 1; Fin 2] [Fin 1; Fin 2] 2 eq_refl).
    right. reflexivity.
Defined.

(** * Properties of the auxiliary functions *)

Section OverlapFacts.

Local Open Scope R_scope.

(** X12: for two ranges with finite edges in ascending order,
    [getOverlap] returns the length of their intersection, which is the
    interval from [lo = max(a[0], b[0])] to [hi = min(a[1], b[1])]: the
    difference [hi - lo] when the ranges share more than a point, and 0
    when they do not; the result does not depend on the order of the two
    ranges. *)
Theorem getOverlap_measure (a0 a1 b0 b1 : R) :
  a0 <= a1 -> b0 <= b1 ->
  exists lo hi r : R,
    getOverlap [Fin a0; Fin a1] [Fin b0; Fin b1] = Some (Fin r)
    /\ getOverlap [Fin b0; Fin b1] [Fin a0; Fin a1] = Some (Fin r)
    /\ (forall x : R, (a0 <= x <= a1 /\ b0 <= x <= b1) <-> lo <= x <= hi)
    /\ (lo < hi -> r = hi - lo /\ 0 < r)
    /\ (hi <= lo -> r = 0).
Proof.
  intros Ha Hb.
  exists (Rmax a0 b0), (Rmin a1 b1), (Rmax 0 (Rmin a1 b1 - Rmax a0 b0)).
  assert (Hcode : forall p0 p1 q0 q1 : R,
             getOverlap [Fin p0; Fin p1] [Fin q0; Fin q1]
             = Some (Fin (Rmax 0 (Rmin p1 q1 - Rmax p0 q0)))).
  { intros p0 p1 q0 q1. unfold getOverlap.
    cbn [nth_error bind py_min py_max fold_left].
    unfold fgt, flt, fsub, fopp, fadd, Rltb, Rmax, Rmin.
    destruct (Rle_dec p1 q1), (Rle_dec p0 q0);
      decide_R; cbn [fadd fopp]; unfold Rltb; decide_R;
      try reflexivity; do 2 f_equal; lra. }
  split; [apply Hcode |].
  split; [rewrite Hcode, (Rmin_comm b1 a1), (Rmax_comm b0 a0); reflexivity |].
  unfold Rmax, Rmin.
  destruct (Rle_dec a1 b1), (Rle_dec a0 b0);
    (split; [intros x; lra |]);
    decide_R; repeat split; intros; lra.
Qed.

Lemma py_max_zero (v : float64) :
  exists r : float64,
    py_max [Fin 0; v] = Some r /\ isnan r = false /\ flt r (Fin 0) = false.
Proof.
  cbn [py_max fold_left]. destruct (fgt v (Fin 0)) eqn:E.
  - exists v. split; [reflexivity |]. unfold fgt in E.
    destruct v as [x | | |]; cbn in *; try discriminate; try tauto.
    split; [reflexivity |]. unfold Rltb in *.
    destruct (Rlt_dec 0 x); [| discriminate].
    destruct (Rlt_dec x 0); [lra | reflexivity].
  - exists (Fin 0). split; [reflexivity |]. split; [reflexivity |].
    cbn. unfold Rltb. destruct (Rlt_dec 0 0); [lra | reflexivity].
Qed.

(** X13: [getOverlap] raises ([IndexError]) exactly when one of the ranges
    has fewer than two entries; whatever the entries are (infinities and
    nan included), a value that it returns is neither nan nor negative. *)
Theorem getOverlap_never_negative (a b : vector) :
  (getOverlap a b = None
   <-> (List.length a < 2)%nat \/ (List.length b < 2)%nat)
  /\ (forall r : float64,
        getOverlap a b = Some r -> isnan r = false /\ flt r (Fin 0) = false).
Proof.
  destruct a as [| a0 [| a1 ta]];
    try (split; [split; [intros _; left; cbn; lia | reflexivity]
                | intros r H; discriminate H]).
  destruct b as [| b0 [| b1 tb]];
    try (split; [split; [intros _; right; cbn; lia | reflexivity]
                | intros r H; discriminate H]).
  unfold getOverlap. cbn [nth_error bind py_min].
  set (hi := fold_left _ [b1] a1).
  cbn [py_max bind]. set (lo := fold_left _ [b0] a0).
  destruct (py_max_zero (fsub hi lo)) as (r & Hr & Hnan & Hneg).
  fold (py_max [Fin 0; fsub hi lo]). rewrite Hr.
  split.
  - split; [discriminate | cbn; lia].
  - intros r' E. injection E as <-. split; assumption.
Qed.

(** X14: a nan edge is not treated alike in the two ranges: as upper edge
    of the first range it makes the overlap 0, as upper edge of the second
    range it is ignored, and the first range bounds the overlap alone. *)
Theorem getOverlap_nan_edge (lo hi : R) :
  lo < hi ->
  getOverlap [Fin lo; NaN] [Fin lo; Fin hi] = Some (Fin 0)
  /\ getOverlap [Fin lo; Fin hi] [Fin lo; NaN] = Some (Fin (hi - lo)).
Proof.
  intros H. unfold getOverlap.
  cbn [nth_error bind py_min py_max fold_left flt fgt].
  unfold Rltb. decide_R. cbn [fsub fopp fadd flt]. unfold Rltb.
  decide_R. split; reflexivity.
Qed.

End OverlapFacts.

Lemma getOverlap_measure_witness :
  exists lo hi r : R,
    getOverlap [Fin 1; Fin 3] [Fin 2; Fin 5] = Some (Fin r)
    /\ (lo < hi -> r = hi - lo /\ 0 < r)%R.
Proof.
  destruct (@getOverlap_measure 1 3 2 5) as (lo & hi & r & H1 & _ & _ & H2 & _);
    [lra | lra |].
  exists lo, hi, r. split; assumption.
Defined.

Lemma getOverlap_nan_edge_witness :
  getOverlap [Fin 1; NaN] [Fin 1; Fin 2] = Some (Fin 0)
  /\ getOverlap [Fin 1; Fin 2] [Fin 1; NaN] = Some (Fin (2 - 1)).
Proof. apply (@getOverlap_nan_edge 1 2). lra. Defined.

(** * Further properties of the assembler *)

Section AssemblerFacts2.

Lemma nth_error_vadd_zero (a b : vector) (j : nat) :
  nth_error a j = Some (Fin 0) -> nth_error b j = Some (Fin 0) ->
  nth_error (vadd a b) j = Some (Fin 0).
Proof.
  intros Ha Hb. unfold vadd.
  rewrite (@nth_error_map2 _ _ _ fadd a b j _ _ Ha Hb).
  cbn. do 2 f_equal. lra.
Qed.

(** X15: for a well formed record [calculate_cross_sections] returns one
    value for every wavenumber of the user, and exactly 0 at every
    wavenumber whose frequency lies outside of the grids of all bands (at
    every wavenumber when the record has no band). *)
Theorem calculate_cross_sections_zero_outside
  (wvn : vector) (xsec_data : XsecRecord) (T P : float64) :
  wf_record xsec_data ->
  exists out : vector,
    calculate_cross_sections wvn xsec_data T P = Some out
    /\ List.length out = List.length wvn
    /\ forall (j : nat) (w : float64),
         nth_error wvn j = Some w ->
         (forall band : GriddedField2,
            In band (fitcoeffs xsec_data) ->
            outside_band band (freq_of_wvn w)) ->
         nth_error out j = Some (Fin 0).
Proof.
  intros Hwf. unfold calculate_cross_sections.
  rewrite fold_left_ext_eq
    with (g := fun acc m =>
                 xsec_user <- acc ;;
                 xm <- contribution wvn xsec_data T P m ;;
                 Some (vadd xsec_user xm))
    by (intros acc m; apply loop_body_eq).
  assert (G : forall k : nat,
             (k <= List.length (fitcoeffs xsec_data))%nat ->
             exists out : vector,
               fold_left
                 (fun acc m =>
                    xsec_user <- acc ;;
                    xm <- contribution wvn xsec_data T P m ;;
                    Some (vadd xsec_user xm))
                 (seq 0 k) (Some (zeros (List.length wvn))) = Some out
               /\ List.length out = List.length wvn
               /\ forall (j : nat) (w : float64),
                    nth_error wvn j = Some w ->
                    (forall band : GriddedField2,
                       In band (fitcoeffs xsec_data) ->
                       outside_band band (freq_of_wvn w)) ->
                    nth_error out j = Some (Fin 0)).
  { induction k as [| k IH]; intros Hk.
    - exists (zeros (List.length wvn)). split; [reflexivity |].
      split; [unfold zeros; apply repeat_length |].
      intros j w Hw _. unfold zeros. apply nth_error_repeat.
      apply nth_error_Some. rewrite Hw. discriminate.
    - destruct IH as (v & Hv & Lv & Zv); [lia |].
      destruct (@contribution_total wvn xsec_data T P k Hwf)
        as (band & xm & Eb & Ec & Lx & Zx); [lia |].
      exists (vadd v xm). split; [| split].
      + rewrite seq_S, fold_left_app, Hv. cbn [fold_left Nat.add bind].
        rewrite Ec. reflexivity.
      + unfold vadd. rewrite map2_length; lia.
      + intros j w Hw Hout. apply nth_error_vadd_zero.
        * exact (Zv j w Hw Hout).
        * apply (Zx j w Hw). apply Hout.
          apply nth_error_In with (n := k). exact Eb. }
  apply G. lia.
Qed.

End AssemblerFacts2.

Lemma calculate_cross_sections_zero_outside_witness :
  exists out : vector,
    calculate_cross_sections [Fin (3 / 2); Fin 5] ex_record
      (Fin 250) (Fin 1000) = Some out
    /\ List.length out = 2%nat
    /\ nth_error out 1 = Some (Fin 0).
Proof.
  destruct (@calculate_cross_sections_zero_outside [Fin (3 / 2); Fin 5]
              ex_record (Fin 250) (Fin 1000) ex_record_wf)
    as (out & Hout & Hlen & Hzero).
  exists out. split; [exact Hout |]. split; [exact Hlen |].
  apply (Hzero 1%nat (Fin 5) eq_refl). intros band Hin.
  apply ex_record_outside. exact Hin.
Defined.

(** * The species of a coefficients folder *)

Section SpeciesFacts.

Variable glob : string -> list string.

Lemma sort_insert_In (s x : string) (l : list string) :
  In x (sort_insert s l) <-> x = s \/ In x l.
Proof.
  induction l as [| y l IH]; cbn.
  - split; [intros [H | []]; auto | intros [H | []]; auto].
  - destruct (String.leb s y); cbn.
    + split; [intros [H | H]; auto | intros [H | H]; auto].
    + rewrite IH. tauto.
Qed.

Lemma list_sort_In (x : string) (l : list string) :
  In x (list_sort l) <-> In x l.
Proof.
  unfold list_sort. induction l as [| y l IH]; cbn; [tauto |].
  rewrite sort_insert_In, IH. split; intros [H | H]; auto.
Qed.

Lemma sort_insert_length (s : string) (l : list string) :
  List.length (sort_insert s l) = S (List.length l).
Proof.
  induction l as [| y l IH]; cbn; [reflexivity |].
  destruct (String.leb s y); cbn; [reflexivity | rewrite IH; reflexivity].
Qed.

Lemma list_sort_length (l : list string) :
  List.length (list_sort l) = List.length l.
Proof.
  unfold list_sort. induction l as [| y l IH]; cbn; [reflexivity |].
  rewrite sort_insert_length, IH. reflexivity.
Qed.

Lemma NoDup_snoc (A : Type) (l : list A) (a : A) :
  NoDup l -> ~ In a l -> NoDup (l ++ [a]).
Proof.
  induction l as [| b l IH]; intros Hl Ha; cbn.
  - constructor; [intros [] | constructor].
  - inversion Hl as [| ? ? Hb Hl']; subst. constructor.
    + intros Hin. apply in_app_or in Hin. destruct Hin as [Hin | [-> | []]].
      * contradiction.
      * apply Ha. left. reflexivity.
    + apply IH; [exact Hl' |]. intros Hin. apply Ha. right. exact Hin.
Qed.

Lemma existsb_eqb_In (s : string) (l : list string) :
  existsb (String.eqb s) l = true <-> In s l.
Proof.
  rewrite existsb_exists. split.
  - intros (x & Hx & E). apply String.eqb_eq in E. subst. exact Hx.
  - intros H. exists s. split; [exact H | apply String.eqb_refl].
Qed.

Lemma species_loop (files acc : list string) :
  NoDup acc ->
  let out :=
    fold_left
      (fun all_species file =>
         let filename := basename file in
         let species := split_dot_0 filename in
         if existsb (String.eqb species) all_species then all_species
         else all_species ++ [species])
      files acc in
  NoDup out
  /\ (forall s : string,
        In s out
        <-> In s acc
            \/ exists file : string,
                 In file files /\ split_dot_0 (basename file) = s)
  /\ (List.length out <= List.length acc + List.length files)%nat.
Proof.
  revert acc. induction files as [| f files IH]; intros acc Hacc; cbn zeta.
  - cbn [fold_left]. split; [exact Hacc |]. split; [| cbn; lia].
    intros s. split; [auto | intros [H | (file & [] & _)]; exact H].
  - cbn [fold_left].
    destruct (existsb (String.eqb (split_dot_0 (basename f))) acc) eqn:E.
    + apply existsb_eqb_In in E.
      destruct (IH acc Hacc) as (H1 & H2 & H3).
      split; [exact H1 |].
      split; [| eapply Nat.le_trans; [exact H3 | cbn [List.length]; lia]].
      intros s. rewrite H2. split.
      * intros [H | (file & Hin & Hs)]; [auto |].
        right. exists file. split; [right; exact Hin | exact Hs].
      * intros [H | (file & [<- | Hin] & Hs)]; [auto | |].
        -- left. rewrite <- Hs. exact E.
        -- right. exists file. auto.
    + assert (Hn : ~ In (split_dot_0 (basename f)) acc).
      { intros H. apply existsb_eqb_In in H. congruence. }
      destruct (IH (acc ++ [split_dot_0 (basename f)])
                  (@NoDup_snoc _ _ _ Hacc Hn)) as (H1 & H2 & H3).
      split; [exact H1 |]. split.
      * intros s. rewrite H2. split.
        -- intros [H | (file & Hin & Hs)].
           ++ apply in_app_or in H. destruct H as [H | [<- | []]]; [auto |].
              right. exists f. split; [left; reflexivity | reflexivity].
           ++ right. exists file. split; [right; exact Hin | exact Hs].
        -- intros [H | (file & [<- | Hin] & Hs)].
           ++ left. apply in_or_app. left. exact H.
           ++ left. apply in_or_app. right. left. exact Hs.
           ++ right. exists file. auto.
      * eapply Nat.le_trans; [exact H3 |].
        rewrite length_app. cbn [List.length]. lia.
Qed.

(** X16: the list returned by [get_coeff_species] holds no name twice; a
    name is in it exactly when it is the part before the first dot of the
    base name of a file found by [glob]; so there are at most as many names
    as files. *)
Theorem get_coeff_species_spec (coefficients_folder : string) :
  let files := glob (coefficients_folder ++ "*.xml.bin") in
  let all_species := get_coeff_species glob coefficients_folder in
  NoDup all_species
  /\ (forall s : string,
        In s all_species
        <-> exists file : string,
              In file files /\ split_dot_0 (basename file) = s)
  /\ (List.length all_species <= List.length files)%nat.
Proof.
  intros files all_species. unfold all_species, get_coeff_species.
  destruct (@species_loop (list_sort files) [] (NoDup_nil _))
    as (H1 & H2 & H3).
  fold files. split; [exact H1 |]. split.
  - intros s. rewrite H2. split.
    + intros [[] | (file & Hin & Hs)]. exists file.
      split; [apply list_sort_In; exact Hin | exact Hs].
    + intros (file & Hin & Hs). right. exists file.
      split; [apply list_sort_In; exact Hin | exact Hs].
  - eapply Nat.le_trans; [exact H3 |].
    rewrite list_sort_length. cbn [List.length]. lia.
Qed.

End SpeciesFacts.

Lemma get_coeff_species_spec_witness :
  NoDup (get_coeff_species ex_glob "coefficients/")
  /\ In "CFC-11"%string (get_coeff_species ex_glob "coefficients/")
  /\ (List.length (get_coeff_species ex_glob "coefficients/") <= 3)%nat.
Proof.
  destruct (@get_coeff_species_spec ex_glob "coefficients/")
    as (H1 & H2 & H3).
  split; [exact H1 |]. split; [| exact H3].
  apply H2. exists "coefficients/CFC-11.xml.bin"%string.
  split; [right; left; reflexivity | reflexivity].
Defined.
